(** * Raw-transaction RPC layer of smileyCoin: a shallow embedding

    The definitions below follow [src/src/rpcrawtransaction.cpp]
    function by function.  C++ exceptions become the [Throw] outcome,
    unchecked out-of-range accesses become the [Undef] outcome, global
    node state (memory pool, coin database, relay queue) is passed
    explicitly, and the functions of the node that live in other
    translation units (script engine, serialisation, base58, wallet)
    are gathered in interfaces that the embedded code is abstracted
    over. *)

From Stdlib Require Import ZArith String Ascii List Lia Bool.
From Stdlib.Strings Require Import Byte.
From Stdlib Require Import DecimalString DecimalZ.
From stdpp Require Import gmap strings list.

Local Open Scope string_scope.
Local Open Scope Z_scope.

(** ** Outcomes of an RPC handler *)

Inductive RPCErrorCode :=
| RPC_TYPE_ERROR
| RPC_INVALID_PARAMETER
| RPC_INVALID_ADDRESS_OR_KEY
| RPC_DESERIALIZATION_ERROR
| RPC_WALLET_ERROR
| RPC_TRANSACTION_ERROR
| RPC_TRANSACTION_REJECTED
| RPC_TRANSACTION_ALREADY_IN_CHAIN.

(** A handler asked for help, or called with the wrong number of
    parameters, throws [runtime_error] with its usage text.  That text is
    put together from string literals and, for most handlers, from the
    results of [HelpExampleCli] and [HelpExampleRpc] of rpcserver.h; it
    is abbreviated below to the name of the handler followed by
    [: usage]. *)
Inductive Exception :=
| JSONRPCError (code : RPCErrorCode) (message : string)
| runtime_error (what : string).

(** [Ok] is a normal return, [Throw] a C++ exception that leaves the
    handler, [Undef] an access the C++ standard leaves undefined
    (reading a vector or an array outside its bounds). *)
Inductive Outcome (A : Type) :=
| Ok (a : A)
| Throw (e : Exception)
| Undef.
Arguments Ok {A} a.
Arguments Throw {A} e.
Arguments Undef {A}.

Definition bind {A B} (m : Outcome A) (k : A -> Outcome B) : Outcome B :=
  match m with
  | Ok a => k a
  | Throw e => Throw e
  | Undef => Undef
  end.

#[global] Instance outcome_bind : MBind Outcome := fun A B k m => bind m k.
#[global] Instance outcome_ret : MRet Outcome := @Ok.

Definition is_Ok {A} (m : Outcome A) : Prop := exists a, m = Ok a.

(** Running one [bind] whose first computation is known. *)
Tactic Notation "run_bind" := cbn [mbind outcome_bind bind].
Tactic Notation "run_bind" "in" hyp(H) := cbn [mbind outcome_bind bind] in H.

(** ** Bytes and hexadecimal text *)

Abbreviation bytes := (list Byte.byte).

Definition byte_to_Z (b : Byte.byte) : Z := Z.of_N (Byte.to_N b).

#[global] Instance byte_eq_dec : EqDecision Byte.byte := Byte.byte_eq_dec.

Module Hex.

(** [for (char character : c)]: every [unsigned char] of the vector is
    converted to [char].  Whether [char] is signed is left to the
    platform, so it is a parameter here. *)
Definition to_char (char_signed : bool) (b : Byte.byte) : Z :=
  let u := byte_to_Z b in
  if char_signed && (128 <=? u) then u - 256 else u.

(** One of the two sixteen-way [if]/[else if] chains of the loop body;
    when no branch matches nothing is appended. *)
Definition append_nibble (s : string) (half : Z) : string :=
  if half =? 0 then s +:+ "0"
  else if half =? 1 then s +:+ "1"
  else if half =? 2 then s +:+ "2"
  else if half =? 3 then s +:+ "3"
  else if half =? 4 then s +:+ "4"
  else if half =? 5 then s +:+ "5"
  else if half =? 6 then s +:+ "6"
  else if half =? 7 then s +:+ "7"
  else if half =? 8 then s +:+ "8"
  else if half =? 9 then s +:+ "9"
  else if half =? 10 then s +:+ "a"
  else if half =? 11 then s +:+ "b"
  else if half =? 12 then s +:+ "c"
  else if half =? 13 then s +:+ "d"
  else if half =? 14 then s +:+ "e"
  else if half =? 15 then s +:+ "f"
  else s.

Definition GetHexStringFromBytes_body (s : string) (character : Z) : string :=
  let firstHalf := Z.land (Z.shiftr character 4) 15 in
  let secondHalf := Z.land character 15 in
  append_nibble (append_nibble s firstHalf) secondHalf.

Definition GetHexStringFromBytes (char_signed : bool) (c : bytes) : string :=
  fold_left GetHexStringFromBytes_body (map (to_char char_signed) c) "".

(** Modelled from the spec: [HexStr] (util.h, not under src/), the hex
    encoding used for transactions and scripts: the standard lowercase
    encoding, two digits per byte, high nibble first, bytes in order,
    digits taken from the table 0123456789abcdef. *)
Definition hexmap : list ascii :=
  ["0"; "1"; "2"; "3"; "4"; "5"; "6"; "7";
   "8"; "9"; "a"; "b"; "c"; "d"; "e"; "f"]%char.

Definition hex_digit (n : Z) : ascii := nth (Z.to_nat n) hexmap "?"%char.

Fixpoint HexStr_standard (v : bytes) : string :=
  match v with
  | [] => ""
  | b :: v' =>
      String (hex_digit (byte_to_Z b / 16))
        (String (hex_digit (byte_to_Z b mod 16)) (HexStr_standard v'))
  end.

Definition byte_hex (b : Byte.byte) : string :=
  String (hex_digit (byte_to_Z b / 16))
    (String (hex_digit (byte_to_Z b mod 16)) "").

Lemma append_assoc (a b c : string) : (a +:+ b) +:+ c = a +:+ (b +:+ c).
Proof.
  induction a as [|x a IH]; [reflexivity|].
  change (String x ((a +:+ b) +:+ c) = String x (a +:+ (b +:+ c))).
  now rewrite IH.
Qed.

Lemma append_nil_r (a : string) : a +:+ "" = a.
Proof.
  induction a as [|x a IH]; [reflexivity|].
  change (String x (a +:+ "") = String x a). now rewrite IH.
Qed.

Lemma append_nibble_spec (s : string) (half : Z) :
  0 <= half < 16 -> append_nibble s half = s +:+ String (hex_digit half) "".
Proof.
  intros H.
  assert (Hc : In half (map Z.of_nat (seq 0 16))).
  { apply in_map_iff. exists (Z.to_nat half). split; [lia|].
    apply in_seq. lia. }
  cbn in Hc.
  repeat (destruct Hc as [<-|Hc]; [reflexivity|]). destruct Hc.
Qed.

Lemma nibbles_of_char (sg : bool) (b : Byte.byte) :
  Z.land (Z.shiftr (to_char sg b) 4) 15 = byte_to_Z b / 16
  /\ Z.land (to_char sg b) 15 = byte_to_Z b mod 16.
Proof. destruct sg, b; split; reflexivity. Qed.

Lemma byte_to_Z_range (b : Byte.byte) : 0 <= byte_to_Z b < 256.
Proof. destruct b; cbn; lia. Qed.

Lemma body_spec (sg : bool) (s : string) (b : Byte.byte) :
  GetHexStringFromBytes_body s (to_char sg b) = s +:+ byte_hex b.
Proof.
  unfold GetHexStringFromBytes_body.
  destruct (nibbles_of_char sg b) as [-> ->].
  pose proof (byte_to_Z_range b) as Hb.
  rewrite !append_nibble_spec, append_assoc.
  - reflexivity.
  - split; [apply Z.div_pos; lia | apply Z.div_lt_upper_bound; lia].
  - apply Z.mod_pos_bound; lia.
Qed.

Lemma fold_spec (sg : bool) (c : bytes) (s : string) :
  fold_left GetHexStringFromBytes_body (map (to_char sg) c) s
  = s +:+ HexStr_standard c.
Proof.
  revert s; induction c as [|b c IH]; intros s; simpl.
  - now rewrite append_nil_r.
  - rewrite body_spec, IH, append_assoc. reflexivity.
Qed.

(** C10: on every byte vector, and whatever the signedness of [char],
    the nibble-by-nibble encoder [GetHexStringFromBytes] returns the
    standard lowercase hexadecimal encoding (two digits per byte, high
    nibble first, bytes in order). *)
Theorem GetHexStringFromBytes_is_HexStr (char_signed : bool) (v : bytes) :
  GetHexStringFromBytes char_signed v = HexStr_standard v.
Proof.
  unfold GetHexStringFromBytes. rewrite fold_spec. reflexivity.
Qed.

End Hex.


(** ** Fixed-width integers *)

(** Two's-complement reduction to [w] bits, signed. *)
Definition wrap_signed (w : Z) (x : Z) : Z :=
  (x + 2 ^ (w - 1)) mod 2 ^ w - 2 ^ (w - 1).

Definition INT64_MIN : Z := - 2 ^ 63.
Definition INT64_MAX : Z := 2 ^ 63 - 1.
Definition UINT32_MAX : Z := 2 ^ 32 - 1.

(** [int64_t * int64_t]; a product outside the type wraps around. *)
Definition int64_mul (a b : Z) : Z := wrap_signed 64 (a * b).

(** [static_cast<int>] of a 64-bit value. *)
Definition to_int (x : Z) : Z := wrap_signed 32 x.

(** [(unsigned int) n] for an [int] n. *)
Definition to_unsigned (x : Z) : Z := x mod 2 ^ 32.

Lemma wrap_signed_id (w x : Z) :
  0 < w -> - 2 ^ (w - 1) <= x < 2 ^ (w - 1) -> wrap_signed w x = x.
Proof.
  intros Hw Hx. unfold wrap_signed.
  assert (E : 2 ^ w = 2 * 2 ^ (w - 1)).
  { replace w with (Z.succ (w - 1)) at 1 by lia. apply Z.pow_succ_r. lia. }
  rewrite Z.mod_small; lia.
Qed.

(** ** Text helpers of the C and boost libraries *)

Module Text.

Fixpoint bytes_of_string (s : string) : bytes :=
  match s with
  | EmptyString => []
  | String c s' => byte_of_ascii c :: bytes_of_string s'
  end.

Fixpoint colon_free (s : string) : bool :=
  match s with
  | EmptyString => true
  | String c s' => negb (Ascii.eqb c ":") && colon_free s'
  end.

(** [boost::split(result, input, boost::is_any_of(":"))]: the input is
    cut at every colon, empty tokens are kept, and the result always has
    at least one token. *)
Fixpoint split_colon (s : string) : list string :=
  match s with
  | EmptyString => [EmptyString]
  | String c s' =>
      if Ascii.eqb c ":" then EmptyString :: split_colon s'
      else match split_colon s' with
           | [] => [String c EmptyString]
           | tok :: toks => String c tok :: toks
           end
  end.

Definition isspace (c : ascii) : bool :=
  let n := nat_of_ascii c in
  ((9 <=? n) && (n <=? 13))%nat || (n =? 32)%nat.

Definition digit_value (c : ascii) : option Z :=
  let n := nat_of_ascii c in
  if ((48 <=? n) && (n <=? 57))%nat then Some (Z.of_nat n - 48) else None.

Fixpoint skip_spaces (s : string) : string :=
  match s with
  | String c s' => if isspace c then skip_spaces s' else s
  | EmptyString => EmptyString
  end.

(** Value of the longest prefix of decimal digits, most significant
    first, continuing from [acc]. *)
Fixpoint digits_prefix (s : string) (acc : Z) : Z :=
  match s with
  | String c s' =>
      match digit_value c with
      | Some d => digits_prefix s' (10 * acc + d)
      | None => acc
      end
  | EmptyString => acc
  end.

Definition clamp_int64 (x : Z) : Z := Z.max INT64_MIN (Z.min INT64_MAX x).

(** [strtoll(text, NULL, 10)]: leading white space is skipped, an
    optional sign is read, then the longest run of decimal digits; no
    digits give 0 and a value outside [long long] saturates. *)
Definition strtoll (s : string) : Z :=
  match skip_spaces s with
  | String "-" s' => clamp_int64 (- digits_prefix s' 0)
  | String "+" s' => clamp_int64 (digits_prefix s' 0)
  | s' => clamp_int64 (digits_prefix s' 0)
  end.

Lemma split_colon_free (s : string) :
  colon_free s = true -> split_colon s = [s].
Proof.
  induction s as [|c s IH]; simpl; [reflexivity|].
  intros [Hc Hs]%andb_prop. apply negb_true_iff in Hc. rewrite Hc.
  now rewrite (IH Hs).
Qed.

Lemma split_colon_cons (a b : string) :
  colon_free a = true ->
  split_colon (a +:+ String ":" b) = a :: split_colon b.
Proof.
  induction a as [|c a IH]; intros Ha.
  - reflexivity.
  - simpl in Ha. apply andb_prop in Ha as [Hc Ha].
    apply negb_true_iff in Hc.
    change (split_colon (String c (a +:+ String ":" b)) = String c a :: split_colon b).
    simpl. rewrite Hc, (IH Ha). reflexivity.
Qed.

Example strtoll_5 : strtoll "5" = 5.
Proof. reflexivity. Qed.

Example strtoll_neg : strtoll "  -17 coins" = -17.
Proof. reflexivity. Qed.

Example strtoll_saturates : strtoll "99999999999999999999" = INT64_MAX.
Proof. reflexivity. Qed.

(** Decimal text of an integer, as a caller writes an amount. *)
Definition decimal (z : Z) : string := NilZero.string_of_int (Z.to_int z).

Fixpoint horner (d : Decimal.uint) (acc : Z) : Z :=
  match d with
  | Decimal.Nil => acc
  | Decimal.D0 l => horner l (10 * acc + 0)
  | Decimal.D1 l => horner l (10 * acc + 1)
  | Decimal.D2 l => horner l (10 * acc + 2)
  | Decimal.D3 l => horner l (10 * acc + 3)
  | Decimal.D4 l => horner l (10 * acc + 4)
  | Decimal.D5 l => horner l (10 * acc + 5)
  | Decimal.D6 l => horner l (10 * acc + 6)
  | Decimal.D7 l => horner l (10 * acc + 7)
  | Decimal.D8 l => horner l (10 * acc + 8)
  | Decimal.D9 l => horner l (10 * acc + 9)
  end.

Lemma digits_prefix_uint (d : Decimal.uint) (acc : Z) :
  digits_prefix (NilEmpty.string_of_uint d) acc = horner d acc.
Proof.
  revert acc; induction d; intros acc;
    cbn [NilEmpty.string_of_uint digits_prefix horner]; [reflexivity | ..];
    match goal with
    | |- context [digit_value ?c] =>
        let v := eval vm_compute in (digit_value c) in
        change (digit_value c) with v
    end; apply IHd.
Qed.

Lemma of_uint_acc_horner (d : Decimal.uint) (acc : positive) :
  Z.pos (Pos.of_uint_acc d acc) = horner d (Z.pos acc).
Proof.
  revert acc; induction d; intros acc; cbn [Pos.of_uint_acc horner];
    [reflexivity | rewrite IHd; f_equal; lia ..].
Qed.

Lemma of_uint_horner (d : Decimal.uint) : Z.of_uint d = horner d 0.
Proof.
  unfold Z.of_uint.
  induction d; cbn [Pos.of_uint horner Z.of_N];
    [reflexivity | exact IHd | apply of_uint_acc_horner ..].
Qed.

Lemma digits_prefix_NilZero (d : Decimal.uint) :
  digits_prefix (NilZero.string_of_uint d) 0 = Z.of_uint d.
Proof.
  rewrite of_uint_horner.
  destruct d; try apply digits_prefix_uint. reflexivity.
Qed.

Lemma skip_spaces_digit (d : Decimal.uint) :
  exists c s, NilZero.string_of_uint d = String c s
    /\ isspace c = false /\ c <> "-"%char /\ c <> "+"%char.
Proof.
  destruct d; cbn; eexists _, _; (split; [reflexivity|]);
    (split; [reflexivity|]); split; discriminate.
Qed.

Lemma strtoll_decimal (z : Z) : strtoll (decimal z) = clamp_int64 z.
Proof.
  unfold decimal. rewrite <- (DecimalZ.of_to z) at 2.
  destruct (Z.to_int z) as [d|d]; cbn [NilZero.string_of_int Z.of_int].
  - rewrite <- digits_prefix_NilZero.
    destruct (skip_spaces_digit d) as (c & s & -> & Hsp & Hm & Hp).
    unfold strtoll. cbn [skip_spaces]. rewrite Hsp.
    destruct c as [[] [] [] [] [] [] [] []]; try reflexivity; congruence.
  - rewrite <- digits_prefix_NilZero. reflexivity.
Qed.

Lemma colon_free_uint (d : Decimal.uint) :
  colon_free (NilEmpty.string_of_uint d) = true.
Proof. induction d; cbn; auto. Qed.

Lemma colon_free_decimal (z : Z) : colon_free (decimal z) = true.
Proof.
  unfold decimal.
  assert (Hu : forall d, colon_free (NilZero.string_of_uint d) = true).
  { intros d; destruct d; try apply colon_free_uint. reflexivity. }
  destruct (Z.to_int z); cbn [NilZero.string_of_int]; [apply Hu|].
  cbn. apply Hu.
Qed.

Example decimal_5 : decimal 5 = "5".
Proof. reflexivity. Qed.

Example decimal_neg : decimal (-120) = "-120".
Proof. reflexivity. Qed.

End Text.


(** ** JSON values (json_spirit) *)

Inductive Value_type :=
| obj_type | array_type | str_type | bool_type | int_type | real_type | null_type.

#[global] Instance Value_type_eq_dec : EqDecision Value_type.
Proof. solve_decision. Defined.

(** An [Object] is a vector of name/value pairs: order and repeated
    names are kept. *)
#[local] Set Warnings "-register-all".
Inductive Value :=
| Value_null
| Value_str (s : string)
| Value_int (i : Z)
| Value_bool (b : bool)
| Value_real (num : Z) (den : positive)
| Value_obj (o : list (string * Value))
| Value_array (a : list Value).

Abbreviation Object := (list (string * Value)).
Abbreviation Array := (list Value).

Module Json.

Definition type (v : Value) : Value_type :=
  match v with
  | Value_null => null_type
  | Value_str _ => str_type
  | Value_int _ => int_type
  | Value_bool _ => bool_type
  | Value_real _ _ => real_type
  | Value_obj _ => obj_type
  | Value_array _ => array_type
  end.

(** The accessors of json_spirit check the stored type and throw
    [std::runtime_error] on a mismatch; [get_int] narrows the stored
    64-bit integer to [int]. *)
Definition bad_type {A} : Outcome A := Throw (runtime_error "value is of another type").

Definition get_str (v : Value) : Outcome string :=
  match v with Value_str s => Ok s | _ => bad_type end.

Definition get_int (v : Value) : Outcome Z :=
  match v with Value_int i => Ok (to_int i) | _ => bad_type end.

Definition get_bool (v : Value) : Outcome bool :=
  match v with Value_bool b => Ok b | _ => bad_type end.

Definition get_obj (v : Value) : Outcome Object :=
  match v with Value_obj o => Ok o | _ => bad_type end.

Definition get_array (v : Value) : Outcome Array :=
  match v with Value_array a => Ok a | _ => bad_type end.

(** [find_value]: the value of the first pair with that name, or null. *)
Fixpoint find_value (o : Object) (name : string) : Value :=
  match o with
  | [] => Value_null
  | (k, v) :: o' => if decide (k = name) then v else find_value o' name
  end.

Definition type_ok (fAllowNull : bool) (t : Value_type) (v : Value) : bool :=
  bool_decide (type v = t) || (fAllowNull && bool_decide (type v = null_type)).

(** Modelled from the spec: [RPCTypeCheck] on a parameter array, as
    rpcserver.h declares and documents it (its body is not under src/):
    the parameters that were passed must have the expected types, or be
    null when [fAllowNull]; their number is not checked. *)
Fixpoint RPCTypeCheck (params : Array) (typesExpected : list Value_type)
    (fAllowNull : bool) : Outcome unit :=
  match params, typesExpected with
  | v :: params', t :: types' =>
      if type_ok fAllowNull t v then RPCTypeCheck params' types' fAllowNull
      else Throw (JSONRPCError RPC_TYPE_ERROR "Expected type differs from the one given")
  | _, _ => Ok tt
  end.

(** Modelled from the spec: [RPCTypeCheck] on an object, as rpcserver.h
    declares and documents it: every expected key must be present with
    the expected type.  The expected types form a [std::map], visited in
    the order of its keys. *)
Fixpoint RPCTypeCheckObj (o : Object) (typesExpected : list (string * Value_type))
    : Outcome unit :=
  match typesExpected with
  | [] => Ok tt
  | (k, t) :: types' =>
      let v := find_value o k in
      if bool_decide (type v = null_type) then
        Throw (JSONRPCError RPC_TYPE_ERROR ("Missing " +:+ k))
      else if bool_decide (type v = t) then RPCTypeCheckObj o types'
      else Throw (JSONRPCError RPC_TYPE_ERROR ("Expected type differs for key " +:+ k))
  end.

End Json.

(** ** Transactions (core.h) *)

Abbreviation uint256 := Z (only parsing).
Abbreviation CScript := (list Byte.byte) (only parsing).

Record COutPoint := { hash : uint256; n : Z }.

Record CTxIn := { prevout : COutPoint; scriptSig : CScript; nSequence : Z }.

Record CTxOut := { nValue : Z; scriptPubKey : CScript }.

Record CMutableTransaction := {
  nVersion : Z;
  vin : list CTxIn;
  vout : list CTxOut;
  nLockTime : Z
}.

Abbreviation CTransaction := CMutableTransaction (only parsing).

(** Modelled from the spec: the constructor [CTxIn(COutPoint(txid, n))]
    of core.h (not under src/): the unlocking script is empty and the
    sequence number is the maximal value. *)
Definition CTxIn_of (p : COutPoint) : CTxIn :=
  {| prevout := p; scriptSig := []; nSequence := UINT32_MAX |}.

Definition set_nSequence (i : CTxIn) (s : Z) : CTxIn :=
  {| prevout := prevout i; scriptSig := scriptSig i; nSequence := s |}.

Definition set_scriptSig (i : CTxIn) (s : CScript) : CTxIn :=
  {| prevout := prevout i; scriptSig := s; nSequence := nSequence i |}.

Definition set_vin (tx : CMutableTransaction) (v : list CTxIn) : CMutableTransaction :=
  {| nVersion := nVersion tx; vin := v; vout := vout tx; nLockTime := nLockTime tx |}.

Definition set_vout (tx : CMutableTransaction) (v : list CTxOut) : CMutableTransaction :=
  {| nVersion := nVersion tx; vin := vin tx; vout := v; nLockTime := nLockTime tx |}.

Definition push_vin (tx : CMutableTransaction) (i : CTxIn) : CMutableTransaction :=
  set_vin tx (vin tx ++ [i]).

Definition push_vout (tx : CMutableTransaction) (o : CTxOut) : CMutableTransaction :=
  set_vout tx (vout tx ++ [o]).

(** [foreach]: a loop whose body may throw. *)
Fixpoint foreach {A S : Type} (body : S -> A -> Outcome S) (l : list A) (s : S)
    : Outcome S :=
  match l with
  | [] => Ok s
  | x :: l' => s' ← body s x; foreach body l' s'
  end.

Lemma foreach_app {A S : Type} (body : S -> A -> Outcome S) (l1 l2 : list A) (s : S) :
  foreach body (l1 ++ l2) s = s' ← foreach body l1 s; foreach body l2 s'.
Proof.
  revert s; induction l1 as [|x l1 IH]; intros s; simpl; [reflexivity|].
  destruct (body s x) as [s'| |]; simpl; [apply IH | reflexivity | reflexivity].
Qed.

(** ** Interfaces of the rest of the node

    These functions are declared in headers the RPC file includes and
    are defined in other translation units; the embedded code is
    parametric in them. *)

(** rpcserver.h, util.h, core.h and the serialisation of transactions. *)
Class NodeCore := {
  COIN : Z;
  CURRENT_VERSION : Z;
  ParseHashV : Value -> string -> Outcome uint256;
  ParseHexV : Value -> string -> Outcome bytes;
  AmountFromValue : Value -> Outcome Z;
  (** [stream << tx] *)
  Serialize : CMutableTransaction -> bytes;
  (** [stream >> tx]: the transaction read and the bytes left in the
      stream, or nothing when the read throws. *)
  Unserialize : bytes -> option (CMutableTransaction * bytes);
  (** A successful read takes at least one byte off the stream. *)
  Unserialize_consumes : forall data tx rest,
    Unserialize data = Some (tx, rest) -> (length rest < length data)%nat;
  GetHash : CMutableTransaction -> uint256;
  (** [uint256::GetHex] *)
  GetHex : uint256 -> string;
}.

(** base58.h and script.h. *)
Class ScriptEngine := {
  Address : Type;
  Address_eq_dec :: EqDecision Address;
  Address_countable :: Countable Address;
  (** [CBitcoinAddress(text)]: the decoded address when [IsValid()]. *)
  CBitcoinAddress : string -> option Address;
  (** [script.SetDestination(address.Get())] on an empty script. *)
  SetDestination : Address -> CScript;
  OP_RETURN : Byte.byte;
  (** [script << opcode] and [script << vector]. *)
  push_opcode : CScript -> Byte.byte -> CScript;
  push_data : CScript -> bytes -> CScript;
  IsPayToScriptHash : CScript -> bool;
  ToString : CScript -> string;
}.

(** Modelled from the spec: [ParseHashO] and [ParseHexO] (declared in
    rpcserver.h, bodies not under src/) convert the value found under a
    key of an object. *)
Definition ParseHashO `{NodeCore} (o : Object) (strKey : string) : Outcome uint256 :=
  ParseHashV (Json.find_value o strKey) strKey.

Definition ParseHexO `{NodeCore} (o : Object) (strKey : string) : Outcome bytes :=
  ParseHexV (Json.find_value o strKey) strKey.

Definition HexStr : bytes -> string := Hex.HexStr_standard.

(** ** createrawtransaction *)

Module Builder.
Section Builder.
Context `{NodeCore} `{ScriptEngine}.

Definition help : Exception := runtime_error "createrawtransaction: usage".

Definition empty_tx : CMutableTransaction :=
  {| nVersion := CURRENT_VERSION; vin := []; vout := []; nLockTime := 0 |}.

(** Body of the loop over [inputs]. *)
Definition add_input (rawTx : CMutableTransaction) (input : Value)
    : Outcome CMutableTransaction :=
  o ← Json.get_obj input;
  txid ← ParseHashO o "txid";
  let vout_v := Json.find_value o "vout" in
  if negb (bool_decide (Json.type vout_v = int_type)) then
    Throw (JSONRPCError RPC_INVALID_PARAMETER "Invalid parameter, missing vout key")
  else
    nOutput ← Json.get_int vout_v;
    if nOutput <? 0 then
      Throw (JSONRPCError RPC_INVALID_PARAMETER "Invalid parameter, vout must be positive")
    else
      let in_ := CTxIn_of {| hash := txid; n := to_unsigned nOutput |} in
      let sequence := Json.find_value o "sequence" in
      in_ ← (if bool_decide (Json.type sequence = int_type) then
               nSequence ← Json.get_int sequence;
               if nSequence <? 0 then
                 Throw (JSONRPCError RPC_INVALID_PARAMETER
                          "Invalid parameter, sequence must be positive")
               else Ok (set_nSequence in_ (to_unsigned nSequence))
             else Ok in_);
      Ok (push_vin rawTx in_).

(** The two exceptions of the address branch of the output loop. *)
Definition InvalidAddress (name_ : string) : Exception :=
  JSONRPCError RPC_INVALID_ADDRESS_OR_KEY ("Invalid Smileycoin address: " +:+ name_).

Definition DuplicateAddress (name_ : string) : Exception :=
  JSONRPCError RPC_INVALID_PARAMETER ("Invalid parameter, duplicated address: " +:+ name_).

Definition DEFAULT_AMOUNT : Z := 0.

(** Both branches of the loop over the pairs of [sendTo]; the state is
    the transaction under construction and [setAddress]. *)
Definition add_output (st : CMutableTransaction * gset Address) (s : string * Value)
    : Outcome (CMutableTransaction * gset Address) :=
  let '(rawTx, setAddress) := st in
  let '(name_, value_) := s in
  if decide (name_ = "data") then
    hexdata ← Json.get_str value_;
    let str := Text.split_colon hexdata in
    data ← ParseHexV (Value_str (nth 0 str "")) "Data";
    let amount := if (length str =? 2)%nat then Text.strtoll (nth 1 str "") else 0 in
    let out := {| nValue := int64_mul (Z.max DEFAULT_AMOUNT amount) COIN;
                  scriptPubKey := push_data (push_opcode [] OP_RETURN) data |} in
    Ok (push_vout rawTx out, setAddress)
  else
    match CBitcoinAddress name_ with
    | None =>
        Throw (InvalidAddress name_)
    | Some address =>
        if decide (address ∈ setAddress) then
          Throw (DuplicateAddress name_)
        else
          let setAddress := {[address]} ∪ setAddress in
          let scriptPubKey := SetDestination address in
          nAmount ← AmountFromValue value_;
          Ok (push_vout rawTx {| nValue := nAmount; scriptPubKey := scriptPubKey |},
              setAddress)
    end.

(** The transaction assembled by [createrawtransaction], before it is
    serialised. *)
Definition build (params : Array) (fHelp : bool) : Outcome CMutableTransaction :=
  if fHelp || negb (length params =? 2)%nat then Throw help
  else
    _ ← Json.RPCTypeCheck params [array_type; obj_type] false;
    inputs ← Json.get_array (nth 0 params Value_null);
    sendTo ← Json.get_obj (nth 1 params Value_null);
    rawTx ← foreach add_input inputs empty_tx;
    '(rawTx, _) ← foreach add_output sendTo (rawTx, ∅);
    Ok rawTx.

Definition createrawtransaction (params : Array) (fHelp : bool) : Outcome Value :=
  rawTx ← build params fHelp;
  Ok (Value_str (HexStr (Serialize rawTx))).

(** The address keys of an output object, and the two ways such a key
    can be wrong. *)
Definition address_keys (sendTo : Object) : list string :=
  filter (fun k => k <> "data") (sendTo.*1).

Definition key_repeated (sendTo : Object) (k : string) : Prop :=
  exists (i j : nat) (v1 v2 : Value),
    (i < j)%nat /\ sendTo !! i = Some (k, v1) /\ sendTo !! j = Some (k, v2).

Definition key_invalid (sendTo : Object) (k : string) : Prop :=
  k ∈ sendTo.*1 /\ CBitcoinAddress k = None.

(** *** The [data] branch *)

Lemma add_output_data_amount (rawTx : CMutableTransaction) (setAddress : gset Address)
    (h a : string) (data : bytes) :
  Text.colon_free h = true -> Text.colon_free a = true ->
  ParseHexV (Value_str h) "Data" = Ok data ->
  add_output (rawTx, setAddress) ("data", Value_str (h +:+ String ":" a))
  = Ok (push_vout rawTx
          {| nValue := int64_mul (Z.max 0 (Text.strtoll a)) COIN;
             scriptPubKey := push_data (push_opcode [] OP_RETURN) data |},
        setAddress).
Proof.
  intros Hh Ha Hd. unfold add_output.
  destruct (decide ("data" = "data")) as [_|]; [|congruence].
  cbn [Json.get_str mbind outcome_bind bind].
  rewrite (Text.split_colon_cons h a Hh), (Text.split_colon_free a Ha).
  cbn [nth length]. rewrite Hd. reflexivity.
Qed.

Lemma add_output_data_plain (rawTx : CMutableTransaction) (setAddress : gset Address)
    (h : string) (data : bytes) :
  Text.colon_free h = true ->
  ParseHexV (Value_str h) "Data" = Ok data ->
  add_output (rawTx, setAddress) ("data", Value_str h)
  = Ok (push_vout rawTx
          {| nValue := 0;
             scriptPubKey := push_data (push_opcode [] OP_RETURN) data |},
        setAddress).
Proof.
  intros Hh Hd. unfold add_output.
  destruct (decide ("data" = "data")) as [_|]; [|congruence].
  cbn [Json.get_str mbind outcome_bind bind].
  rewrite (Text.split_colon_free h Hh).
  cbn [nth length]. rewrite Hd. reflexivity.
Qed.

(** *** The address branch *)

Lemma add_output_invalid (st : CMutableTransaction * gset Address) (k : string) (v : Value) :
  k <> "data" -> CBitcoinAddress k = None ->
  add_output st (k, v) = Throw (InvalidAddress k).
Proof.
  intros Hk Hbad. destruct st as [rawTx setAddress]. unfold add_output.
  destruct (decide (k = "data")); [contradiction|]. now rewrite Hbad.
Qed.

Lemma add_output_duplicate (rawTx : CMutableTransaction) (setAddress : gset Address)
    (k : string) (v : Value) (a : Address) :
  k <> "data" -> CBitcoinAddress k = Some a -> a ∈ setAddress ->
  add_output (rawTx, setAddress) (k, v) = Throw (DuplicateAddress k).
Proof.
  intros Hk Ha Hin. unfold add_output.
  destruct (decide (k = "data")); [contradiction|]. rewrite Ha.
  destruct (decide (a ∈ setAddress)); [reflexivity | contradiction].
Qed.

(** One successful step keeps the addresses already seen and, for an
    address key, records a valid address that was not seen before. *)
Lemma add_output_ok (rawTx rawTx' : CMutableTransaction) (S0 S1 : gset Address)
    (k : string) (v : Value) :
  add_output (rawTx, S0) (k, v) = Ok (rawTx', S1) ->
  S0 ⊆ S1 /\
  (k <> "data" -> exists a, CBitcoinAddress k = Some a /\ (a ∉ S0) /\ a ∈ S1).
Proof.
  unfold add_output. destruct (decide (k = "data")) as [->|Hk].
  - intros Hstep. split; [|congruence].
    destruct (Json.get_str v) as [hexdata| |]; cbn in Hstep; try discriminate.
    destruct (ParseHexV _ _) as [data| |]; cbn in Hstep; try discriminate.
    injection Hstep as _ <-. reflexivity.
  - destruct (CBitcoinAddress k) as [a|]; [|discriminate].
    destruct (decide (a ∈ S0)) as [|Hnew]; [discriminate|].
    destruct (AmountFromValue v) as [nAmount| |]; cbn; try discriminate.
    intros [= _ <-]. split; [apply union_subseteq_r|].
    intros _. exists a. split; [reflexivity|]. split; [assumption|].
    apply elem_of_union_l, elem_of_singleton_2. reflexivity.
Qed.

Lemma foreach_add_output_ok (l : Object) :
  forall (rawTx rawTx' : CMutableTransaction) (S0 S1 : gset Address),
  foreach add_output l (rawTx, S0) = Ok (rawTx', S1) ->
  S0 ⊆ S1 /\
  NoDup (address_keys l) /\
  (forall k, k ∈ address_keys l ->
     exists a, CBitcoinAddress k = Some a /\ (a ∉ S0) /\ a ∈ S1).
Proof.
  induction l as [|[k v] l IH]; intros rawTx rawTx' S0 S1 Hrun.
  - injection Hrun as _ <-. split; [reflexivity|]. split; [constructor|].
    intros k Hk. unfold address_keys in Hk. cbn in Hk. now apply elem_of_nil in Hk.
  - cbn [foreach] in Hrun.
    destruct (add_output (rawTx, S0) (k, v)) as [[rawTx1 Smid]| |] eqn:Hstep;
      cbn in Hrun; try discriminate.
    apply add_output_ok in Hstep as [Hsub Hkey].
    apply IH in Hrun as (Hsub' & Hnodup & Hall).
    split; [now transitivity Smid|].
    unfold address_keys in *. cbn [fmap list_fmap fst]. rewrite filter_cons.
    destruct (decide (k <> "data")) as [Hk|Hk].
    + destruct (Hkey Hk) as (a & Ha & Hfresh & Hin).
      split.
      * constructor; [|assumption].
        intros Hdup. destruct (Hall k Hdup) as (a' & Ha' & Hfresh' & _).
        rewrite Ha in Ha'. injection Ha' as <-. contradiction.
      * intros k' [->|Hk']%elem_of_cons.
        -- exists a. split; [assumption|]. split; [assumption | now apply Hsub'].
        -- destruct (Hall k' Hk') as (a' & Ha' & Hfresh' & Hin').
           exists a'. split; [assumption|]. split; [|assumption].
           intros Hold. apply Hfresh'. now apply Hsub.
    + split; [assumption|].
      intros k' Hk'. destruct (Hall k' Hk') as (a' & Ha' & Hfresh' & Hin').
      exists a'. split; [assumption|]. split; [|assumption].
      intros Hold. apply Hfresh'. now apply Hsub.
Qed.

Lemma build_unfold (inputs : Array) (sendTo : Object) :
  build [Value_array inputs; Value_obj sendTo] false
  = rawTx ← foreach add_input inputs empty_tx;
    st ← foreach add_output sendTo (rawTx, ∅);
    Ok st.1.
Proof.
  unfold build. cbn.
  destruct (foreach add_input inputs empty_tx) as [rawTx| |]; cbn; try reflexivity.
  destruct (foreach add_output sendTo (rawTx, ∅)) as [[rawTx' S1]| |]; reflexivity.
Qed.

Lemma key_repeated_not_NoDup (sendTo : Object) (k : string) :
  k <> "data" -> key_repeated sendTo k -> ~ NoDup (address_keys sendTo).
Proof.
  intros Hk (i & j & v1 & v2 & Hij & Hi & Hj) Hnd.
  apply (take_drop_middle sendTo j) in Hj as Hsplit.
  assert (Hi' : take j sendTo !! i = Some (k, v1)).
  { rewrite lookup_take_lt; [assumption | lia]. }
  unfold address_keys in Hnd. rewrite <- Hsplit in Hnd.
  rewrite fmap_app, filter_app in Hnd. cbn [fmap list_fmap fst] in Hnd.
  rewrite filter_cons in Hnd. destruct (decide (k <> "data")); [|contradiction].
  apply NoDup_app in Hnd as (_ & Hdisj & _).
  apply (Hdisj k); [|left].
  apply list_elem_of_filter. split; [assumption|].
  apply list_elem_of_fmap. exists (k, v1). split; [reflexivity|].
  apply list_elem_of_lookup. eauto.
Qed.

(** C5: a pair ["data" : "<hex>"] or ["data" : "<hex>:<amount>"], the
    amount being an integer written in decimal, makes the output loop
    append exactly one output and change nothing else; its script is
    [OP_RETURN] followed by the pushed decoded bytes and its value is
    [max(0, amount) * COIN], 0 without an amount, as long as that product
    fits the 64-bit amount type. *)
Theorem data_entry_appends_commitment_output
    (rawTx : CMutableTransaction) (setAddress : gset Address)
    (h : string) (data : bytes) (amount : option Z) :
  0 < COIN ->
  Text.colon_free h = true ->
  ParseHexV (Value_str h) "Data" = Ok data ->
  Z.max 0 (default 0 amount) * COIN <= INT64_MAX ->
  let text := match amount with
              | Some z => h +:+ String ":" (Text.decimal z)
              | None => h
              end in
  exists rawTx',
    add_output (rawTx, setAddress) ("data", Value_str text) = Ok (rawTx', setAddress)
    /\ vout rawTx' = (vout rawTx ++
         [{| nValue := Z.max 0 (default 0 amount) * COIN;
             scriptPubKey := push_data (push_opcode [] OP_RETURN) data |}])%list
    /\ vin rawTx' = vin rawTx
    /\ nVersion rawTx' = nVersion rawTx /\ nLockTime rawTx' = nLockTime rawTx.
Proof.
  intros Hcoin Hh Hd Hfit text. subst text.
  destruct amount as [z|]; cbn [default from_option] in *; unfold id in *.
  - rewrite (add_output_data_amount rawTx setAddress h (Text.decimal z) data Hh
               (Text.colon_free_decimal z) Hd).
    eexists. split; [reflexivity|]. cbn. repeat split.
    rewrite Text.strtoll_decimal.
    assert (Hmin : INT64_MIN = - 2 ^ 63) by reflexivity.
    assert (Hmax : INT64_MAX = 2 ^ 63 - 1) by reflexivity.
    assert (Hpow : 2 ^ (64 - 1) = 2 ^ 63) by reflexivity.
    assert (Hpos : 0 < 2 ^ 63) by reflexivity.
    assert (Hle : Z.max 0 z <= INT64_MAX).
    { apply Z.le_trans with (Z.max 0 z * COIN); [nia | exact Hfit]. }
    assert (Hz : Z.max 0 (Text.clamp_int64 z) = Z.max 0 z).
    { unfold Text.clamp_int64. lia. }
    rewrite Hz. unfold int64_mul. rewrite wrap_signed_id; [reflexivity | lia |].
    assert (Hnn : 0 <= Z.max 0 z * COIN) by (apply Z.mul_nonneg_nonneg; lia).
    rewrite Hpow. lia.
  - rewrite (add_output_data_plain rawTx setAddress h data Hh Hd).
    eexists. split; [reflexivity|]. cbn. repeat split.
Qed.

(** C7: a call whose output object repeats an address key, or holds a
    key that is not a valid address, never returns a transaction; and
    when the pairs before such a key were accepted, the exception thrown
    is the duplicated-address error for a key already seen and the
    invalid-address error for a key that does not decode. *)
Theorem bad_address_key_is_hard_error (inputs : Array) (sendTo : Object) :
  let call := createrawtransaction [Value_array inputs; Value_obj sendTo] false in
  ((exists k, k <> "data" /\ (key_repeated sendTo k \/ key_invalid sendTo k)) ->
     ~ is_Ok call)
  /\
  (forall (pre post : Object) (k : string) (v : Value) rawTx0 st,
     sendTo = (pre ++ (k, v) :: post)%list -> k <> "data" ->
     foreach add_input inputs empty_tx = Ok rawTx0 ->
     foreach add_output pre (rawTx0, ∅) = Ok st ->
     (CBitcoinAddress k = None -> call = Throw (InvalidAddress k))
     /\ (k ∈ pre.*1 -> call = Throw (DuplicateAddress k))).
Proof.
  intros call. subst call. unfold createrawtransaction. rewrite build_unfold.
  split.
  - intros (k & Hk & Hbad) [val Hok].
    destruct (foreach add_input inputs empty_tx) as [rawTx0| |]; cbn in Hok;
      try discriminate.
    destruct (foreach add_output sendTo (rawTx0, ∅)) as [[rawTx1 S1]| |] eqn:Hrun;
      cbn in Hok; try discriminate.
    apply foreach_add_output_ok in Hrun as (_ & Hnd & Hall).
    destruct Hbad as [Hrep | [Hin Hinv]].
    + exact (key_repeated_not_NoDup sendTo k Hk Hrep Hnd).
    + destruct (Hall k) as (a & Ha & _).
      * unfold address_keys. apply list_elem_of_filter. now split.
      * congruence.
  - intros pre post k v rawTx0 [rawTx1 S1] -> Hk Hin Hpre.
    rewrite Hin. run_bind.
    rewrite foreach_app, Hpre. cbn [mbind outcome_bind bind foreach].
    split.
    + intros Hbad. now rewrite (add_output_invalid _ k v Hk Hbad).
    + intros Hseen.
      apply foreach_add_output_ok in Hpre as (_ & _ & Hall).
      destruct (Hall k) as (a & Ha & _ & Hin1).
      { unfold address_keys. apply list_elem_of_filter. now split. }
      now rewrite (add_output_duplicate rawTx1 S1 k v a Hk Ha Hin1).
Qed.

End Builder.
End Builder.

(** ** Coins and the coin view (coins.h) *)

Record CCoins := { coins_vout : list CTxOut; nHeight : Z }.

(** Modelled from the spec: a default-constructed [CTxOut] (core.h, not
    under src/) is the null output, the mark of a spent one: value -1
    and an empty script. *)
Definition CTxOut_null : CTxOut := {| nValue := -1; scriptPubKey := [] |}.

Definition IsNull (o : CTxOut) : bool := nValue o =? -1.

Definition CCoins_empty : CCoins := {| coins_vout := []; nHeight := 0 |}.

(** Modelled from the spec: [CCoins::IsAvailable] (coins.h is not under
    src/): a coin is available iff the index exists and the output has
    not been marked spent. *)
Definition IsAvailable (c : CCoins) (nPos : Z) : bool :=
  match coins_vout c !! Z.to_nat nPos with
  | Some o => negb (IsNull o)
  | None => false
  end.

(** Modelled from the spec: [CCoinsViewCache] (coins.h is not under
    src/): an in-memory overlay from transaction identifier to coins over
    a backend that can be swapped; a lookup answered by the backend is
    kept in the overlay. *)
Record CCoinsViewCache := {
  base : uint256 -> option CCoins;
  cacheCoins : gmap Z CCoins
}.

(** The backend that knows no transaction ([CCoinsView]). *)
Definition viewDummy : uint256 -> option CCoins := fun _ => None.

Definition SetBackend (view : CCoinsViewCache) (b : uint256 -> option CCoins)
    : CCoinsViewCache :=
  {| base := b; cacheCoins := cacheCoins view |}.

(** [view.GetCoins(txid, coins)]: the coins when the call returns true,
    and the view, whose overlay may have grown. *)
Definition GetCoins (view : CCoinsViewCache) (txid : uint256)
    : option CCoins * CCoinsViewCache :=
  match cacheCoins view !! txid with
  | Some c => (Some c, view)
  | None =>
      match base view txid with
      | Some c =>
          (Some c, {| base := base view; cacheCoins := <[txid := c]> (cacheCoins view) |})
      | None => (None, view)
      end
  end.

Definition SetCoins (view : CCoinsViewCache) (txid : uint256) (c : CCoins)
    : CCoinsViewCache :=
  {| base := base view; cacheCoins := <[txid := c]> (cacheCoins view) |}.

(** ** Signature-hash selectors and verification flags (script.h) *)

(** Modelled from the spec: the selectors ALL, NONE and SINGLE and the
    ANYONECANPAY modifier, and the two policy flags of the final
    verification (script.h is not under src/), with the values of the
    reference client. *)
Definition SIGHASH_ALL : Z := 1.
Definition SIGHASH_NONE : Z := 2.
Definition SIGHASH_SINGLE : Z := 3.
Definition SIGHASH_ANYONECANPAY : Z := 128.

Definition SCRIPT_VERIFY_P2SH : Z := 1.
Definition SCRIPT_VERIFY_STRICTENC : Z := 2.

(** keystore.h, key.h, base58.h and the signing functions of script.h.
    [SignSignature] writes only [txTo.vin[nIn].scriptSig]; it is given by
    the script it leaves there. *)
Class Signer := {
  CKey : Type;
  KeyStore : Type;
  CBasicKeyStore : KeyStore;
  AddKey : KeyStore -> CKey -> KeyStore;
  AddCScript : KeyStore -> CScript -> KeyStore;
  (** [CBitcoinSecret::SetString] followed by [GetKey], when the text
      decodes. *)
  CBitcoinSecret : string -> option CKey;
  SignSignature : KeyStore -> CScript -> CMutableTransaction -> nat -> Z -> CScript;
  CombineSignatures :
    CScript -> CMutableTransaction -> nat -> CScript -> CScript -> CScript;
  VerifyScript : CScript -> CScript -> CMutableTransaction -> nat -> Z -> Z -> bool;
}.

(** The node state the signer reads: the coin database overlaid with the
    memory pool ([CCoinsViewMemPool]), the wallet, and whether it is
    unlocked. *)
Record SignerEnv `{Signer} := {
  viewMempool : uint256 -> option CCoins;
  pwalletMain : option KeyStore;
  EnsureWalletIsUnlocked : Outcome unit
}.

(** ** signrawtransaction and signrawtokentransaction *)

Module SigningEngine.
Section SigningEngine.
Context `{NodeCore} `{ScriptEngine} `{Signer}.
Variable env : SignerEnv.

Definition help : Exception := runtime_error "signrawtransaction: usage".

Definition decode_failed {A} : Outcome A :=
  Throw (JSONRPCError RPC_DESERIALIZATION_ERROR "TX decode failed").

Definition missing_transaction {A} : Outcome A :=
  Throw (JSONRPCError RPC_DESERIALIZATION_ERROR "Missing transaction").

(** [while (!ssData.empty())]: transactions are read off the stream one
    after the other.  Each read shortens the stream, so [fuel] equal to
    its length is never exhausted. *)
Fixpoint decode_variants (fuel : nat) (ssData : bytes)
    (txVariants : list CMutableTransaction) : Outcome (list CMutableTransaction) :=
  match ssData with
  | [] => Ok txVariants
  | _ :: _ =>
      match fuel with
      | O => Undef
      | S fuel' =>
          match Unserialize ssData with
          | Some (tx, rest) => decode_variants fuel' rest (txVariants ++ [tx])
          | None => decode_failed
          end
      end
  end.

(** The block under [LOCK(mempool.cs)]: every previous transaction of
    the merge target is looked up once through the memory-pool view. *)
Definition fetch_inputs (view : CCoinsViewCache) (mergedTx : CMutableTransaction)
    : CCoinsViewCache :=
  let view := SetBackend view (viewMempool env) in
  let view :=
    fold_left (fun view txin => (GetCoins view (hash (prevout txin))).2)
      (vin mergedTx) view in
  SetBackend view viewDummy.

Definition add_key (tempKeystore : KeyStore) (k : Value) : Outcome KeyStore :=
  text ← Json.get_str k;
  match CBitcoinSecret text with
  | None => Throw (JSONRPCError RPC_INVALID_ADDRESS_OR_KEY "Invalid private key")
  | Some key => Ok (AddKey tempKeystore key)
  end.

Definition given (params : Array) (i : nat) : bool :=
  (i <? length params)%nat
  && negb (bool_decide (Json.type (nth i params Value_null) = null_type)).

(** [fGivenKeys] and [tempKeystore]. *)
Definition load_keys (params : Array) : Outcome (bool * KeyStore) :=
  if given params 2 then
    keys ← Json.get_array (nth 2 params Value_null);
    tempKeystore ← foreach add_key keys CBasicKeyStore;
    Ok (true, tempKeystore)
  else
    _ ← EnsureWalletIsUnlocked env;
    Ok (false, CBasicKeyStore).

(** [coins.vout.resize(n)] pads with null outputs. *)
Definition resize_vout (v : list CTxOut) (len : nat) : list CTxOut :=
  take len v ++ replicate (len - length v) CTxOut_null.

Definition quoted (s : string) : string :=
  String (ascii_of_nat 34) s +:+ String (ascii_of_nat 34) "".

Definition newline : string := String (ascii_of_nat 10) "".

(** Body of the loop over [prevTxs].  The size [nOut + 1] asked of the
    resize is an [int] sum: at the largest [int] it cannot be
    represented, and the outcome is left undefined. *)
Definition add_prevout (fGivenKeys : bool) (st : CCoinsViewCache * KeyStore) (p : Value)
    : Outcome (CCoinsViewCache * KeyStore) :=
  let '(view, tempKeystore) := st in
  if negb (bool_decide (Json.type p = obj_type)) then
    Throw (JSONRPCError RPC_DESERIALIZATION_ERROR
             ("expected object with {" +:+ quoted "txid'" +:+ "," +:+ quoted "vout"
              +:+ "," +:+ quoted "scriptPubKey" +:+ "}"))
  else
    prevOut ← Json.get_obj p;
    _ ← Json.RPCTypeCheckObj prevOut
          [("scriptPubKey", str_type); ("txid", str_type); ("vout", int_type)];
    txid ← ParseHashO prevOut "txid";
    nOut ← Json.get_int (Json.find_value prevOut "vout");
    if nOut <? 0 then
      Throw (JSONRPCError RPC_DESERIALIZATION_ERROR "vout must be positive")
    else
      scriptPubKey' ← ParseHexO prevOut "scriptPubKey";
      let '(found, view) := GetCoins view txid in
      let coins := default CCoins_empty found in
      _ ← match found return Outcome unit with
      | Some c =>
          if IsAvailable c nOut
             && negb (bool_decide
                        (scriptPubKey <$> coins_vout c !! Z.to_nat nOut
                         = Some scriptPubKey'))
          then
            Throw (JSONRPCError RPC_DESERIALIZATION_ERROR
                     ("Previous output scriptPubKey mismatch:" +:+ newline
                      +:+ ToString (default []
                                      (scriptPubKey <$> coins_vout c !! Z.to_nat nOut))
                      +:+ newline +:+ "vs:" +:+ newline +:+ ToString scriptPubKey'))
          else Ok tt
      | None => Ok tt
      end;
      vout1 ← (if (length (coins_vout coins) <=? Z.to_nat nOut)%nat
               then
                 if nOut =? 2 ^ 31 - 1 then Undef
                 else Ok (resize_vout (coins_vout coins) (Z.to_nat nOut + 1))
               else Ok (coins_vout coins));
      let vout2 :=
        <[Z.to_nat nOut := {| nValue := 0; scriptPubKey := scriptPubKey' |}]> vout1 in
      let view := SetCoins view txid {| coins_vout := vout2; nHeight := nHeight coins |} in
      if fGivenKeys && IsPayToScriptHash scriptPubKey' then
        _ ← Json.RPCTypeCheckObj prevOut
              [("redeemScript", str_type); ("scriptPubKey", str_type);
               ("txid", str_type); ("vout", int_type)];
        let v := Json.find_value prevOut "redeemScript" in
        match v with
        | Value_null => Ok (view, tempKeystore)
        | _ =>
            rsData ← ParseHexV v "redeemScript";
            Ok (view, AddCScript tempKeystore rsData)
        end
      else Ok (view, tempKeystore).

Definition add_prevouts (params : Array) (fGivenKeys : bool)
    (view : CCoinsViewCache) (tempKeystore : KeyStore)
    : Outcome (CCoinsViewCache * KeyStore) :=
  if given params 1 then
    prevTxs ← Json.get_array (nth 1 params Value_null);
    foreach (add_prevout fGivenKeys) prevTxs (view, tempKeystore)
  else Ok (view, tempKeystore).

Definition mapSigHashValues : list (string * Z) :=
  [("ALL", SIGHASH_ALL);
   ("ALL|ANYONECANPAY", Z.lor SIGHASH_ALL SIGHASH_ANYONECANPAY);
   ("NONE", SIGHASH_NONE);
   ("NONE|ANYONECANPAY", Z.lor SIGHASH_NONE SIGHASH_ANYONECANPAY);
   ("SINGLE", SIGHASH_SINGLE);
   ("SINGLE|ANYONECANPAY", Z.lor SIGHASH_SINGLE SIGHASH_ANYONECANPAY)].

Fixpoint map_find (m : list (string * Z)) (k : string) : option Z :=
  match m with
  | [] => None
  | (k', v) :: m' => if decide (k' = k) then Some v else map_find m' k
  end.

Definition sighash_param (params : Array) : Outcome Z :=
  if given params 3 then
    strHashType ← Json.get_str (nth 3 params Value_null);
    match map_find mapSigHashValues strHashType with
    | Some v => Ok v
    | None => Throw (JSONRPCError RPC_INVALID_PARAMETER "Invalid sighash param")
    end
  else Ok SIGHASH_ALL.

Definition fHashSingle (nHashType : Z) : bool :=
  Z.land nHashType (Z.lnot SIGHASH_ANYONECANPAY) =? SIGHASH_SINGLE.

(** [mergedTx.vin[i].scriptSig = s] *)
Definition set_scriptSig_at (tx : CMutableTransaction) (i : nat) (s : CScript)
    : CMutableTransaction :=
  set_vin tx (alter (fun txin => set_scriptSig txin s) i (vin tx)).

Definition scriptSig_at (tx : CMutableTransaction) (i : nat) : option CScript :=
  scriptSig <$> vin tx !! i.

(** Whether the previous output of [txin] resolves in the view, and its
    locking script when it does. *)
Definition resolve (view : CCoinsViewCache) (txin : CTxIn)
    : option CScript * CCoinsViewCache :=
  let '(found, view) := GetCoins view (hash (prevout txin)) in
  match found with
  | Some coins =>
      if IsAvailable coins (n (prevout txin))
      then (scriptPubKey <$> coins_vout coins !! Z.to_nat (n (prevout txin)), view)
      else (None, view)
  | None => (None, view)
  end.

(** Body of the loop that merges in the other signatures; [txv.vin[i]]
    is read without a bounds check. *)
Definition combine_with (prevPubKey : CScript) (i : nat)
    (mergedTx : CMutableTransaction) (txv : CMutableTransaction)
    : Outcome CMutableTransaction :=
  match scriptSig_at mergedTx i, scriptSig_at txv i with
  | Some sig, Some sigv =>
      Ok (set_scriptSig_at mergedTx i
            (CombineSignatures prevPubKey mergedTx i sig sigv))
  | _, _ => Undef
  end.

Definition verify_flags : Z := Z.lor SCRIPT_VERIFY_P2SH SCRIPT_VERIFY_STRICTENC.

(** The script input [i] carries when signing starts: cleared, then
    signed unless the selector is SINGLE without a matching output. *)
Definition sign_fresh (keystore : KeyStore) (nHashType : Z) (prevPubKey : CScript)
    (mergedTx : CMutableTransaction) (i : nat) : CMutableTransaction :=
  let mergedTx := set_scriptSig_at mergedTx i [] in
  if negb (fHashSingle nHashType) || (i <? length (vout mergedTx))%nat
  then set_scriptSig_at mergedTx i
         (SignSignature keystore prevPubKey mergedTx i nHashType)
  else mergedTx.

(** Body of the loop "Sign what we can"; the state is [mergedTx],
    [fComplete] and the view. *)
Definition sign_input (keystore : KeyStore) (nHashType : Z)
    (txVariants : list CMutableTransaction)
    (st : CMutableTransaction * bool * CCoinsViewCache) (i : nat)
    : Outcome (CMutableTransaction * bool * CCoinsViewCache) :=
  let '(mergedTx, fComplete, view) := st in
  match vin mergedTx !! i with
  | None => Undef
  | Some txin =>
      match resolve view txin with
      | (None, view) => Ok (mergedTx, false, view)
      | (Some prevPubKey, view) =>
          let mergedTx := sign_fresh keystore nHashType prevPubKey mergedTx i in
          mergedTx ← foreach (combine_with prevPubKey i) txVariants mergedTx;
          match scriptSig_at mergedTx i with
          | None => Undef
          | Some sig =>
              if negb (VerifyScript sig prevPubKey mergedTx i verify_flags 0)
              then Ok (mergedTx, false, view)
              else Ok (mergedTx, fComplete, view)
          end
      end
  end.

Definition sign_loop (keystore : KeyStore) (nHashType : Z)
    (txVariants : list CMutableTransaction) (mergedTx : CMutableTransaction)
    (view : CCoinsViewCache)
    : Outcome (CMutableTransaction * bool * CCoinsViewCache) :=
  foreach (sign_input keystore nHashType txVariants)
    (seq 0 (length (vin mergedTx))) (mergedTx, true, view).

Definition empty_view : CCoinsViewCache := {| base := viewDummy; cacheCoins := ∅ |}.

(** Everything [signrawtransaction] sets up before the signing loop. *)
Record Prepared := {
  txVariants : list CMutableTransaction;
  view : CCoinsViewCache;
  keystore : KeyStore;
  nHashType : Z
}.

Definition first_variant (p : Prepared) : CMutableTransaction :=
  default (Builder.empty_tx) (head (txVariants p)).

Definition prepare (params : Array) (fHelp : bool) : Outcome Prepared :=
  if fHelp || (length params <? 1)%nat || (4 <? length params)%nat then Throw help
  else
    _ ← Json.RPCTypeCheck params [str_type; array_type; array_type; str_type] true;
    txData ← ParseHexV (nth 0 params Value_null) "argument 1";
    txVariants ← decode_variants (length txData) txData [];
    match txVariants with
    | [] => missing_transaction
    | mergedTx :: _ =>
        let view := fetch_inputs empty_view mergedTx in
        '(fGivenKeys, tempKeystore) ← load_keys params;
        '(view, tempKeystore) ← add_prevouts params fGivenKeys view tempKeystore;
        let keystore :=
          match pwalletMain env with
          | Some wallet => if (fGivenKeys : bool) then tempKeystore else wallet
          | None => tempKeystore
          end in
        nHashType ← sighash_param params;
        Ok {| txVariants := txVariants; view := view;
              keystore := keystore; nHashType := nHashType |}
    end.

Definition signrawtransaction (params : Array) (fHelp : bool) : Outcome Value :=
  p ← prepare params fHelp;
  '(mergedTx, fComplete, _) ←
     sign_loop (keystore p) (nHashType p) (txVariants p) (first_variant p) (view p);
  Ok (Value_obj [("hex", Value_str (HexStr (Serialize mergedTx)));
                 ("complete", Value_bool fComplete)]).

(** The copy of the signer used by [inittoken]: no previous outputs, no
    keys and no selector are passed in. *)
Definition prepare_token (txDataHex : string) : Outcome Prepared :=
  txData ← ParseHexV (Value_str txDataHex) "argument 1";
  txVariants ← decode_variants (length txData) txData [];
  match txVariants with
  | [] => missing_transaction
  | mergedTx :: _ =>
      let view := fetch_inputs empty_view mergedTx in
      _ ← EnsureWalletIsUnlocked env;
      let keystore := default CBasicKeyStore (pwalletMain env) in
      Ok {| txVariants := txVariants; view := view;
            keystore := keystore; nHashType := SIGHASH_ALL |}
  end.

Definition signrawtokentransaction (txDataHex : string) : Outcome Value :=
  p ← prepare_token txDataHex;
  '(mergedTx, _, _) ←
     sign_loop (keystore p) (nHashType p) (txVariants p) (first_variant p) (view p);
  Ok (Value_str (HexStr (Serialize mergedTx))).

(** *** Decoding the variants *)

(** The stream length is fuel enough: the decoding loop ends with the
    variants or with the decode error. *)
Lemma decode_variants_fuel (fuel : nat) :
  forall ssData txVariants,
  (length ssData <= fuel)%nat -> decode_variants fuel ssData txVariants <> Undef.
Proof.
  induction fuel as [|fuel IH]; intros ssData acc Hlen.
  - destruct ssData; [discriminate | cbn in Hlen; lia].
  - destruct ssData as [|b ssData]; [discriminate|].
    cbn [decode_variants].
    destruct (Unserialize (b :: ssData)) as [[tx rest]|] eqn:Hread; [|discriminate].
    apply IH. apply Unserialize_consumes in Hread. lia.
Qed.

(** *** What the view answers *)

Definition view_lookup (view : CCoinsViewCache) (txid : uint256) : option CCoins :=
  match cacheCoins view !! txid with
  | Some c => Some c
  | None => base view txid
  end.

(** The locking script the loop finds for [txin], if its previous output
    resolves. *)
Definition prevPubKey_of (view : CCoinsViewCache) (txin : CTxIn) : option CScript :=
  match view_lookup view (hash (prevout txin)) with
  | Some coins =>
      if IsAvailable coins (n (prevout txin))
      then scriptPubKey <$> coins_vout coins !! Z.to_nat (n (prevout txin))
      else None
  | None => None
  end.

Lemma GetCoins_fst (view : CCoinsViewCache) (txid : uint256) :
  (GetCoins view txid).1 = view_lookup view txid.
Proof.
  unfold GetCoins, view_lookup.
  destruct (cacheCoins view !! txid); [reflexivity|].
  destruct (base view txid); reflexivity.
Qed.

Lemma GetCoins_snd (view : CCoinsViewCache) (txid txid' : uint256) :
  view_lookup (GetCoins view txid).2 txid' = view_lookup view txid'.
Proof.
  unfold GetCoins, view_lookup.
  destruct (cacheCoins view !! txid) eqn:Hc; [reflexivity|].
  destruct (base view txid) eqn:Hb; [|reflexivity]. cbn.
  destruct (decide (txid = txid')) as [<-|Hne].
  - now rewrite lookup_insert_eq, Hc, Hb.
  - now rewrite lookup_insert_ne.
Qed.

Lemma resolve_fst (view : CCoinsViewCache) (txin : CTxIn) :
  (resolve view txin).1 = prevPubKey_of view txin.
Proof.
  unfold resolve, prevPubKey_of. rewrite <- GetCoins_fst.
  destruct (GetCoins view (hash (prevout txin))) as [[coins|] view']; cbn;
    [|reflexivity].
  destruct (IsAvailable coins (n (prevout txin))); reflexivity.
Qed.

Lemma resolve_snd (view : CCoinsViewCache) (txin txin' : CTxIn) :
  prevPubKey_of (resolve view txin).2 txin' = prevPubKey_of view txin'.
Proof.
  assert (Hv : (resolve view txin).2 = (GetCoins view (hash (prevout txin))).2).
  { unfold resolve.
    destruct (GetCoins view (hash (prevout txin))) as [[coins|] view']; cbn;
      [|reflexivity].
    destruct (IsAvailable coins (n (prevout txin))); reflexivity. }
  unfold prevPubKey_of. now rewrite Hv, GetCoins_snd.
Qed.

(** *** Writing one unlocking script *)

(** [tx'] differs from [tx] at most in the unlocking script of input [i]. *)
Definition touches_only (i : nat) (tx tx' : CMutableTransaction) : Prop :=
  vout tx' = vout tx
  /\ length (vin tx') = length (vin tx)
  /\ (forall j, j <> i -> vin tx' !! j = vin tx !! j)
  /\ prevout <$> vin tx' !! i = prevout <$> vin tx !! i.

Lemma touches_only_refl (i : nat) (tx : CMutableTransaction) : touches_only i tx tx.
Proof. repeat split. Qed.

Lemma touches_only_trans (i : nat) (a b c : CMutableTransaction) :
  touches_only i a b -> touches_only i b c -> touches_only i a c.
Proof.
  intros (Ho & Hl & Hf & Hp) (Ho' & Hl' & Hf' & Hp').
  repeat split; try congruence.
  intros j Hj. rewrite Hf', Hf; auto.
Qed.

Lemma set_scriptSig_at_touches (tx : CMutableTransaction) (i : nat) (s : CScript) :
  touches_only i tx (set_scriptSig_at tx i s).
Proof.
  unfold set_scriptSig_at, touches_only; cbn. repeat split.
  - apply length_alter.
  - intros j Hj. apply list_lookup_alter_ne. congruence.
  - rewrite list_lookup_alter_eq. destruct (vin tx !! i); reflexivity.
Qed.

Lemma scriptSig_at_set (tx : CMutableTransaction) (i : nat) (s : CScript) :
  (i < length (vin tx))%nat -> scriptSig_at (set_scriptSig_at tx i s) i = Some s.
Proof.
  intros Hi. unfold scriptSig_at, set_scriptSig_at; cbn.
  rewrite list_lookup_alter_eq.
  destruct (lookup_lt_is_Some_2 _ _ Hi) as [txin ->]. reflexivity.
Qed.

Lemma scriptSig_at_is_Some (tx : CMutableTransaction) (i : nat) :
  (i < length (vin tx))%nat <-> is_Some (scriptSig_at tx i).
Proof.
  unfold scriptSig_at. rewrite fmap_is_Some. symmetry. apply lookup_lt_is_Some.
Qed.

Lemma sign_fresh_touches (ks : KeyStore) (ht : Z) (pk : CScript)
    (tx : CMutableTransaction) (i : nat) :
  touches_only i tx (sign_fresh ks ht pk tx i).
Proof.
  unfold sign_fresh.
  destruct (negb (fHashSingle ht) || _).
  - eapply touches_only_trans; apply set_scriptSig_at_touches.
  - apply set_scriptSig_at_touches.
Qed.

(** *** Merging in the variants *)

Lemma combine_with_ok (pk : CScript) (i : nat) (tx txv : CMutableTransaction) :
  (i < length (vin tx))%nat -> (i < length (vin txv))%nat ->
  exists tx', combine_with pk i tx txv = Ok tx' /\ touches_only i tx tx'.
Proof.
  intros [sig Hs]%scriptSig_at_is_Some [sigv Hv]%scriptSig_at_is_Some.
  unfold combine_with. rewrite Hs, Hv. eexists. split; [reflexivity|].
  apply set_scriptSig_at_touches.
Qed.

Lemma combine_with_short (pk : CScript) (i : nat) (tx txv : CMutableTransaction) :
  (length (vin txv) <= i)%nat -> combine_with pk i tx txv = Undef.
Proof.
  intros Hle. unfold combine_with, scriptSig_at.
  rewrite (lookup_ge_None_2 (vin txv) i Hle).
  destruct (vin tx !! i); reflexivity.
Qed.

Lemma combine_with_no_throw (pk : CScript) (i : nat) (tx txv : CMutableTransaction)
    (e : Exception) :
  combine_with pk i tx txv <> Throw e.
Proof.
  unfold combine_with.
  destruct (scriptSig_at tx i), (scriptSig_at txv i); discriminate.
Qed.

Lemma merge_ok (pk : CScript) (i : nat) (variants : list CMutableTransaction) :
  forall tx,
  (i < length (vin tx))%nat ->
  Forall (fun txv => (i < length (vin txv))%nat) variants ->
  exists tx', foreach (combine_with pk i) variants tx = Ok tx'
              /\ touches_only i tx tx'.
Proof.
  induction variants as [|txv variants IH]; intros tx Hi Hall.
  - exists tx. split; [reflexivity | apply touches_only_refl].
  - apply Forall_cons in Hall as [Hv Hall]. cbn [foreach].
    destruct (combine_with_ok pk i tx txv Hi Hv) as (tx1 & -> & Ht1).
    run_bind.
    destruct (IH tx1) as (tx2 & Hrun & Ht2); [|assumption|].
    + destruct Ht1 as (_ & Hl & _). lia.
    + exists tx2. split; [assumption|]. eapply touches_only_trans; eassumption.
Qed.

Lemma merge_short (pk : CScript) (i : nat) (variants : list CMutableTransaction) :
  forall tx,
  (i < length (vin tx))%nat ->
  Exists (fun txv => (length (vin txv) <= i)%nat) variants ->
  foreach (combine_with pk i) variants tx = Undef.
Proof.
  induction variants as [|txv variants IH]; intros tx Hi Hex.
  - now apply Exists_nil in Hex.
  - cbn [foreach].
    destruct (le_lt_dec (length (vin txv)) i) as [Hshort|Hlong].
    + now rewrite combine_with_short.
    + destruct (combine_with_ok pk i tx txv Hi Hlong) as (tx1 & -> & Ht1).
      run_bind.
      apply Exists_cons in Hex as [Hbad|Hex]; [lia|].
      apply IH; [|assumption]. destruct Ht1 as (_ & Hl & _). lia.
Qed.

Lemma merge_no_throw (pk : CScript) (i : nat) (variants : list CMutableTransaction)
    (e : Exception) :
  forall tx, foreach (combine_with pk i) variants tx <> Throw e.
Proof.
  induction variants as [|txv variants IH]; intros tx; cbn [foreach];
    [discriminate|].
  destruct (combine_with pk i tx txv) as [tx1| |] eqn:Hc;
    run_bind; [apply IH | | discriminate].
  intros [= ->]. exact (combine_with_no_throw pk i tx txv e Hc).
Qed.

Lemma merge_touches (pk : CScript) (i : nat) (variants : list CMutableTransaction) :
  forall tx tx', foreach (combine_with pk i) variants tx = Ok tx' ->
                 touches_only i tx tx'.
Proof.
  induction variants as [|txv variants IH]; intros tx tx' Hrun; cbn [foreach] in Hrun.
  - injection Hrun as <-. apply touches_only_refl.
  - destruct (combine_with pk i tx txv) as [tx1| |] eqn:Hc;
      run_bind in Hrun; try discriminate.
    apply touches_only_trans with tx1; [|now apply IH].
    unfold combine_with in Hc.
    destruct (scriptSig_at tx i), (scriptSig_at txv i); try discriminate.
    injection Hc as <-. apply set_scriptSig_at_touches.
Qed.

(** *** One iteration of the signing loop *)

(** The flag after the final check of input [i]. *)
Definition verified (fComplete : bool) (pk : CScript) (i : nat)
    (merged : CMutableTransaction) : bool :=
  match scriptSig_at merged i with
  | Some sig => if VerifyScript sig pk merged i verify_flags 0 then fComplete else false
  | None => false
  end.

Lemma sign_input_unresolved (ks : KeyStore) (ht : Z)
    (variants : list CMutableTransaction) (tx : CMutableTransaction)
    (c : bool) (v : CCoinsViewCache) (i : nat) (txin : CTxIn) :
  vin tx !! i = Some txin -> prevPubKey_of v txin = None ->
  sign_input ks ht variants (tx, c, v) i = Ok (tx, false, (resolve v txin).2).
Proof.
  intros Hi Hun. unfold sign_input. rewrite Hi.
  rewrite <- resolve_fst in Hun.
  destruct (resolve v txin) as [[pk|] v']; cbn in *; [discriminate | reflexivity].
Qed.

Lemma sign_input_resolved (ks : KeyStore) (ht : Z)
    (variants : list CMutableTransaction) (tx : CMutableTransaction)
    (c : bool) (v : CCoinsViewCache) (i : nat) (txin : CTxIn) (pk : CScript) :
  vin tx !! i = Some txin -> prevPubKey_of v txin = Some pk ->
  sign_input ks ht variants (tx, c, v) i
  = merged ← foreach (combine_with pk i) variants (sign_fresh ks ht pk tx i);
    match scriptSig_at merged i with
    | Some _ => Ok (merged, verified c pk i merged, (resolve v txin).2)
    | None => Undef
    end.
Proof.
  intros Hi Hres. unfold sign_input. rewrite Hi.
  rewrite <- resolve_fst in Hres.
  destruct (resolve v txin) as [[pk'|] v']; cbn in Hres; [|discriminate].
  injection Hres as ->. cbn [snd].
  destruct (foreach _ variants _) as [merged| |]; run_bind;
    try reflexivity.
  unfold verified.
  destruct (scriptSig_at merged i) as [sig|]; [|reflexivity].
  destruct (VerifyScript _ _ _ _ _ _); reflexivity.
Qed.

Lemma sign_input_frame (ks : KeyStore) (ht : Z)
    (variants : list CMutableTransaction) (tx tx' : CMutableTransaction)
    (c c' : bool) (v v' : CCoinsViewCache) (i : nat) :
  sign_input ks ht variants (tx, c, v) i = Ok (tx', c', v') ->
  touches_only i tx tx'
  /\ (forall txin, prevPubKey_of v' txin = prevPubKey_of v txin)
  /\ (c = false -> c' = false)
  /\ (forall txin, vin tx !! i = Some txin -> prevPubKey_of v txin = None ->
        tx' = tx /\ c' = false).
Proof.
  intros Hstep.
  destruct (vin tx !! i) as [txin|] eqn:Hi.
  2:{ unfold sign_input in Hstep. rewrite Hi in Hstep. discriminate. }
  destruct (prevPubKey_of v txin) as [pk|] eqn:Hres.
  - rewrite (sign_input_resolved ks ht variants tx c v i txin pk Hi Hres) in Hstep.
    destruct (foreach _ variants _) as [merged| |] eqn:Hm;
      run_bind in Hstep; try discriminate.
    destruct (scriptSig_at merged i) as [sig|] eqn:Hsig; [|discriminate].
    injection Hstep as <- <- <-.
    split; [|split; [|split]].
    + eapply touches_only_trans; [apply sign_fresh_touches|].
      eapply merge_touches; eassumption.
    + intros txin'. apply resolve_snd.
    + intros ->. unfold verified. rewrite Hsig.
      destruct (VerifyScript _ _ _ _ _ _); reflexivity.
    + intros txin' [= <-] Hun. congruence.
  - rewrite (sign_input_unresolved ks ht variants tx c v i txin Hi Hres) in Hstep.
    injection Hstep as <- <- <-.
    split; [apply touches_only_refl|]. split; [intros txin'; apply resolve_snd|].
    split; [reflexivity|]. intros txin' _ _. split; reflexivity.
Qed.

Lemma sign_input_no_throw (ks : KeyStore) (ht : Z)
    (variants : list CMutableTransaction)
    (st : CMutableTransaction * bool * CCoinsViewCache) (i : nat) (e : Exception) :
  sign_input ks ht variants st i <> Throw e.
Proof.
  destruct st as [[tx c] v].
  destruct (vin tx !! i) as [txin|] eqn:Hi.
  2:{ unfold sign_input. rewrite Hi. discriminate. }
  destruct (prevPubKey_of v txin) as [pk|] eqn:Hres.
  - rewrite (sign_input_resolved ks ht variants tx c v i txin pk Hi Hres).
    destruct (foreach _ variants _) as [merged| |] eqn:Hm;
      run_bind; [| |discriminate].
    + destruct (scriptSig_at merged i); discriminate.
    + intros [= ->]. exact (merge_no_throw pk i variants e _ Hm).
  - rewrite (sign_input_unresolved ks ht variants tx c v i txin Hi Hres).
    discriminate.
Qed.

(** *** The whole loop *)

(** The loop over the inputs [a], [a+1], ..., [a+k-1]. *)
Definition sign_range (ks : KeyStore) (ht : Z) (variants : list CMutableTransaction)
    (a k : nat) (st : CMutableTransaction * bool * CCoinsViewCache)
    : Outcome (CMutableTransaction * bool * CCoinsViewCache) :=
  foreach (sign_input ks ht variants) (seq a k) st.


Lemma sign_range_frame (ks : KeyStore) (ht : Z)
    (variants : list CMutableTransaction) (k : nat) :
  forall a tx c v tx' c' v',
  sign_range ks ht variants a k (tx, c, v) = Ok (tx', c', v') ->
  vout tx' = vout tx
  /\ length (vin tx') = length (vin tx)
  /\ (forall j, prevout <$> vin tx' !! j = prevout <$> vin tx !! j)
  /\ (forall j, (j < a \/ a + k <= j)%nat -> vin tx' !! j = vin tx !! j)
  /\ (forall txin, prevPubKey_of v' txin = prevPubKey_of v txin)
  /\ (c = false -> c' = false)
  /\ (forall j txin, vin tx !! j = Some txin -> prevPubKey_of v txin = None ->
        vin tx' !! j = Some txin)
  /\ (forall j txin, (a <= j < a + k)%nat ->
        vin tx !! j = Some txin -> prevPubKey_of v txin = None -> c' = false).
Proof.
  unfold sign_range. induction k as [|k IH]; intros a tx c v tx' c' v' Hrun;
    cbn [seq foreach] in Hrun.
  - injection Hrun as <- <- <-. repeat split; auto. intros j txin Hj. lia.
  - destruct (sign_input ks ht variants (tx, c, v) a) as [[[tx1 c1] v1]| |] eqn:Hs;
      run_bind in Hrun; try discriminate.
    apply sign_input_frame in Hs as ((Ho1 & Hl1 & Hf1 & Hp1) & Hv1 & Hc1 & Hu1).
    apply IH in Hrun as (Ho & Hl & Hp & Hf & Hv & Hc & Hu & Hcu).
    split; [congruence|]. split; [congruence|].
    split.
    { intros j. rewrite Hp. destruct (decide (j = a)) as [->|Hne]; [assumption|].
      now rewrite Hf1. }
    split.
    { intros j Hj. rewrite Hf by lia. apply Hf1. lia. }
    split.
    { intros txin. now rewrite Hv, Hv1. }
    split.
    { auto. }
    split.
    { intros j txin Hj Hun. destruct (decide (j = a)) as [->|Hne].
      - destruct (Hu1 txin Hj Hun) as [-> _]. rewrite Hf by lia. assumption.
      - apply Hu; [now rewrite Hf1 | now rewrite Hv1]. }
    intros j txin Hj Hin Hun. destruct (decide (j = a)) as [->|Hne].
    + destruct (Hu1 txin Hin Hun) as [_ ->]. now apply Hc.
    + apply (Hcu j txin); [lia | now rewrite Hf1 | now rewrite Hv1].
Qed.

Lemma sign_range_returns (ks : KeyStore) (ht : Z)
    (variants : list CMutableTransaction) (k : nat) :
  forall a tx c v,
  (a + k = length (vin tx))%nat ->
  (forall j txin, (a <= j)%nat -> vin tx !! j = Some txin ->
     is_Some (prevPubKey_of v txin) ->
     Forall (fun txv => (j < length (vin txv))%nat) variants) ->
  is_Ok (sign_range ks ht variants a k (tx, c, v)).
Proof.
  unfold sign_range. induction k as [|k IH]; intros a tx c v Hlen Hin;
    cbn [seq foreach].
  - eexists; reflexivity.
  - destruct (lookup_lt_is_Some_2 (vin tx) a) as [txin Ha]; [lia|].
    assert (Hstep : is_Ok (sign_input ks ht variants (tx, c, v) a)).
    { destruct (prevPubKey_of v txin) as [pk|] eqn:Hres.
      - rewrite (sign_input_resolved ks ht variants tx c v a txin pk Ha Hres).
        pose proof (sign_fresh_touches ks ht pk tx a) as (_ & Hl & _).
        destruct (merge_ok pk a variants (sign_fresh ks ht pk tx a))
          as (merged & -> & (_ & Hl' & _)); [lia | |].
        { apply (Hin a txin); [lia | assumption | now rewrite Hres]. }
        run_bind.
        destruct (proj1 (scriptSig_at_is_Some merged a)) as [sig ->]; [lia|].
        eexists; reflexivity.
      - rewrite (sign_input_unresolved ks ht variants tx c v a txin Ha Hres).
        eexists; reflexivity. }
    destruct Hstep as [[[tx1 c1] v1] Hstep]. rewrite Hstep.
    run_bind.
    apply sign_input_frame in Hstep as ((Ho1 & Hl1 & Hf1 & Hp1) & Hv1 & _).
    apply IH; [lia|].
    intros j txin' Hj Hlook Hres. apply (Hin j txin'); [lia | |].
    + rewrite <- Hf1 by lia. assumption.
    + now rewrite <- Hv1.
Qed.

Lemma sign_range_short (ks : KeyStore) (ht : Z)
    (variants : list CMutableTransaction) (k : nat) :
  forall a tx c v j txin,
  (a <= j < a + k)%nat -> vin tx !! j = Some txin ->
  is_Some (prevPubKey_of v txin) ->
  Exists (fun txv => (length (vin txv) <= j)%nat) variants ->
  sign_range ks ht variants a k (tx, c, v) = Undef.
Proof.
  unfold sign_range. induction k as [|k IH];
    intros a tx c v j txin Hj Hlook [pk Hres] Hshort; [lia|].
  cbn [seq foreach].
  destruct (decide (j = a)) as [->|Hne].
  - rewrite (sign_input_resolved ks ht variants tx c v a txin pk Hlook Hres).
    rewrite merge_short; [reflexivity | | assumption].
    pose proof (sign_fresh_touches ks ht pk tx a) as (_ & Hl & _).
    rewrite Hl. apply lookup_lt_is_Some_1. now rewrite Hlook.
  - destruct (sign_input ks ht variants (tx, c, v) a) as [[[tx1 c1] v1]| |] eqn:Hs;
      run_bind; [| |reflexivity].
    + apply sign_input_frame in Hs as ((Ho1 & Hl1 & Hf1 & Hp1) & Hv1 & _).
      apply (IH (S a) tx1 c1 v1 j txin); [lia | | |assumption].
      * now rewrite Hf1.
      * rewrite Hv1. now exists pk.
    + now apply sign_input_no_throw in Hs.
Qed.

(** Where the loop stands when it reaches input [i], and what it does
    from there. *)
Lemma sign_loop_at (ks : KeyStore) (ht : Z) (variants : list CMutableTransaction)
    (tx0 tx' : CMutableTransaction) (v0 v' : CCoinsViewCache) (c' : bool) (i : nat) :
  sign_loop ks ht variants tx0 v0 = Ok (tx', c', v') ->
  (i < length (vin tx0))%nat ->
  exists tx_i c_i v_i tx_j c_j v_j,
    sign_range ks ht variants 0 i (tx0, true, v0) = Ok (tx_i, c_i, v_i)
    /\ sign_input ks ht variants (tx_i, c_i, v_i) i = Ok (tx_j, c_j, v_j)
    /\ vin tx_i !! i = vin tx0 !! i
    /\ vout tx_i = vout tx0
    /\ (forall txin, prevPubKey_of v_i txin = prevPubKey_of v0 txin)
    /\ vin tx' !! i = vin tx_j !! i
    /\ (c_j = false -> c' = false).
Proof.
  intros Hrun Hi. unfold sign_loop in Hrun.
  replace (length (vin tx0)) with (i + S (length (vin tx0) - S i))%nat in Hrun by lia.
  rewrite seq_app, foreach_app in Hrun. cbn [seq foreach] in Hrun.
  destruct (foreach _ (seq 0 i) _) as [[[tx_i c_i] v_i]| |] eqn:Hpre;
    run_bind in Hrun; try discriminate.
  destruct (sign_input ks ht variants (tx_i, c_i, v_i) (0 + i)) as [[[tx_j c_j] v_j]| |]
    eqn:Hstep; run_bind in Hrun; try discriminate.
  cbn [Nat.add] in Hstep.
  exists tx_i, c_i, v_i, tx_j, c_j, v_j.
  pose proof (sign_range_frame ks ht variants i 0 _ _ _ _ _ _ Hpre)
    as (Ho & _ & _ & Hf & Hv & _).
  apply (sign_range_frame ks ht variants _ (S (0 + i))) in Hrun
    as (_ & _ & _ & Hf' & _ & Hc' & _).
  split; [exact Hpre|]. split; [assumption|].
  split; [apply Hf; lia|]. split; [assumption|]. split; [assumption|].
  split; [apply Hf'; lia | assumption].
Qed.

(** *** The RPC calls once the request is prepared *)

Definition run_signer (p : Prepared)
    : Outcome (CMutableTransaction * bool * CCoinsViewCache) :=
  sign_loop (keystore p) (nHashType p) (txVariants p) (first_variant p) (view p).

Definition signed_result (mergedTx : CMutableTransaction) (fComplete : bool) : Value :=
  Value_obj [("hex", Value_str (HexStr (Serialize mergedTx)));
             ("complete", Value_bool fComplete)].

(** Every decoded variant has at least as many inputs as the first. *)
Definition covers (p : Prepared) : Prop :=
  Forall (fun txv => (length (vin (first_variant p)) <= length (vin txv))%nat)
    (txVariants p).

(** Some variant has no input at an index where the first variant has
    one whose previous output resolves. *)
Definition short_variant (p : Prepared) : Prop :=
  exists (i : nat) (txin : CTxIn) (txv : CMutableTransaction),
    vin (first_variant p) !! i = Some txin
    /\ is_Some (prevPubKey_of (view p) txin)
    /\ txv ∈ txVariants p
    /\ (length (vin txv) <= i)%nat.

Lemma signrawtransaction_prepared (params : Array) (p : Prepared) :
  prepare params false = Ok p ->
  signrawtransaction params false
  = st ← run_signer p; Ok (signed_result st.1.1 st.1.2).
Proof.
  intros Hp. unfold signrawtransaction. rewrite Hp. run_bind.
  fold (run_signer p). destruct (run_signer p) as [[[m c] v]| |]; reflexivity.
Qed.

Lemma signrawtokentransaction_prepared (txDataHex : string) (p : Prepared) :
  prepare_token txDataHex = Ok p ->
  signrawtokentransaction txDataHex
  = st ← run_signer p; Ok (Value_str (HexStr (Serialize st.1.1))).
Proof.
  intros Hp. unfold signrawtokentransaction. rewrite Hp.
  run_bind.
  fold (run_signer p). destruct (run_signer p) as [[[m c] v]| |]; reflexivity.
Qed.

Lemma run_signer_returns (p : Prepared) : covers p -> is_Ok (run_signer p).
Proof.
  intros Hcov. apply sign_range_returns; [reflexivity|].
  intros j txin _ Hj _. eapply Forall_impl; [exact Hcov|].
  intros txv Hle. cbn in Hle. apply lookup_lt_Some in Hj. lia.
Qed.

Lemma run_signer_short (p : Prepared) : short_variant p -> run_signer p = Undef.
Proof.
  intros (i & txin & txv & Hi & Hres & Hin & Hle).
  apply (sign_range_short _ _ _ _ 0 _ _ _ i txin); [|assumption..|].
  - apply lookup_lt_Some in Hi. lia.
  - apply Exists_exists. exists txv. now split.
Qed.

Lemma fHashSingle_selector (name : string) (ht : Z) :
  map_find mapSigHashValues name = Some ht ->
  (fHashSingle ht = true <-> name = "SINGLE" \/ name = "SINGLE|ANYONECANPAY").
Proof.
  unfold mapSigHashValues. cbn [map_find]. intros Hfind.
  repeat case_decide; simplify_eq; cbn;
    (split; [intros Hs; try discriminate Hs; auto
            | intros [Hs|Hs]; try discriminate Hs; reflexivity]).
Qed.


(** C6: when the loop reaches an input whose previous output resolves,
    it empties that input's unlocking script and signs the transaction
    so cleared, except that a SINGLE selector (alone or with
    ANYONECANPAY) on an input without an output of the same index leaves
    the script empty; either way the variants are then merged in, the
    result is what the call returns for that input, and a merged script
    that fails verification makes the result incomplete. *)
Theorem resolved_input_is_cleared_then_signed
    (ks : KeyStore) (ht : Z) (variants : list CMutableTransaction)
    (tx0 tx' : CMutableTransaction) (v0 v' : CCoinsViewCache) (c' : bool)
    (i : nat) (txin : CTxIn) (pk : CScript) :
  sign_loop ks ht variants tx0 v0 = Ok (tx', c', v') ->
  vin tx0 !! i = Some txin ->
  prevPubKey_of v0 txin = Some pk ->
  exists tx_i c_i v_i merged,
    sign_range ks ht variants 0 i (tx0, true, v0) = Ok (tx_i, c_i, v_i)
    /\ let cleared := set_scriptSig_at tx_i i [] in
       let signs := negb (fHashSingle ht) || (i <? length (vout tx0))%nat in
       let fresh :=
         if signs
         then set_scriptSig_at cleared i (SignSignature ks pk cleared i ht)
         else cleared in
       scriptSig_at cleared i = Some []
       /\ scriptSig_at fresh i
          = Some (if signs then SignSignature ks pk cleared i ht else [])
       /\ foreach (combine_with pk i) variants fresh = Ok merged
       /\ vin tx' !! i = vin merged !! i
       /\ (verified true pk i merged = false -> c' = false)
       /\ (forall name, map_find mapSigHashValues name = Some ht ->
             (signs = false <->
              (name = "SINGLE" \/ name = "SINGLE|ANYONECANPAY")
              /\ (length (vout tx0) <= i)%nat)).
Proof.
  intros Hrun Hi Hres.
  assert (Hlt : (i < length (vin tx0))%nat) by (now apply lookup_lt_Some in Hi).
  destruct (sign_loop_at _ _ _ _ _ _ _ _ i Hrun Hlt)
    as (tx_i & c_i & v_i & tx_j & c_j & v_j
        & Hpre & Hstep & Hsame & Hout & Hview & Hfinal & Hmono).
  rewrite (sign_input_resolved _ _ _ tx_i c_i v_i i txin pk) in Hstep;
    [|congruence | now rewrite Hview].
  destruct (foreach _ variants _) as [merged| |] eqn:Hmerge;
    run_bind in Hstep; try discriminate.
  destruct (scriptSig_at merged i) as [sig|] eqn:Hsig; [|discriminate].
  injection Hstep as <- <- <-.
  exists tx_i, c_i, v_i, merged. split; [assumption|].
  assert (Hlen : (i < length (vin tx_i))%nat).
  { apply lookup_lt_is_Some_1. rewrite Hsame, Hi. eauto. }
  assert (Hlen' : (i < length (vin (set_scriptSig_at tx_i i [])))%nat).
  { pose proof (set_scriptSig_at_touches tx_i i []) as (_ & Hl & _). lia. }
  cbn zeta. unfold sign_fresh in Hmerge. cbn [set_scriptSig_at vout set_vin] in Hmerge.
  rewrite Hout in Hmerge.
  split; [now apply scriptSig_at_set|].
  split.
  { destruct (negb (fHashSingle ht) || _); now apply scriptSig_at_set. }
  split; [exact Hmerge|]. split; [assumption|].
  split.
  { intros Hver. apply Hmono. unfold verified in *. rewrite Hsig in *.
    destruct (VerifyScript _ _ _ _ _ _); [discriminate | reflexivity]. }
  intros name Hname. rewrite orb_false_iff, negb_false_iff, Nat.ltb_ge.
  now rewrite (fHashSingle_selector name ht Hname).
Qed.

(** C8: in the transaction a call returns, an input whose previous
    output does not resolve (no coins for its transaction, or the output
    not available) is the input of the first decoded variant, unlocking
    script included: the loop neither clears, signs nor merges it. *)
Theorem unresolved_input_is_returned_unchanged
    (params : Array) (p : Prepared) (result : Value) :
  prepare params false = Ok p ->
  signrawtransaction params false = Ok result ->
  exists mergedTx fComplete,
    result = signed_result mergedTx fComplete
    /\ forall i txin,
         vin (first_variant p) !! i = Some txin ->
         prevPubKey_of (view p) txin = None ->
         vin mergedTx !! i = Some txin
         /\ scriptSig_at mergedTx i = scriptSig_at (first_variant p) i.
Proof.
  intros Hp. rewrite (signrawtransaction_prepared params p Hp).
  destruct (run_signer p) as [[[m c] v]| |] eqn:Hrun;
    cbn [mbind outcome_bind bind fst snd]; try discriminate.
  intros [= <-]. exists m, c. split; [reflexivity|].
  intros i txin Hi Hun.
  pose proof (sign_range_frame _ _ _ _ _ _ _ _ _ _ _ Hrun)
    as (_ & _ & _ & _ & _ & _ & Hkeep & _).
  specialize (Hkeep i txin Hi Hun). split; [assumption|].
  unfold scriptSig_at. now rewrite Hkeep, Hi.
Qed.

(** Every input of the first variant has a previous output that
    resolves, so that the loop merges at every index. *)
Definition all_resolved (p : Prepared) : Prop :=
  Forall (fun txin => is_Some (prevPubKey_of (view p) txin)) (vin (first_variant p)).

Lemma uncovered_is_short (p : Prepared) :
  all_resolved p -> ~ covers p -> short_variant p.
Proof.
  intros Hall Hnot. unfold covers in Hnot.
  apply not_Forall_Exists in Hnot; [|intros txv; apply _].
  apply Exists_exists in Hnot as (txv & Hin & Hshort). cbn in Hshort.
  destruct (lookup_lt_is_Some_2 (vin (first_variant p)) (length (vin txv)))
    as [txin Hi]; [lia|].
  exists (length (vin txv)), txin, txv. split; [assumption|].
  split; [|split; [assumption | lia]].
  eapply Forall_lookup_1 in Hall; [exact Hall | exact Hi].
Qed.

(** C9: the merge step reads input [i] of every variant without a
    bounds check.  In both copies of the signer the read stays in range
    when every variant has at least as many inputs as the first, and it
    leaves the variant's input vector as soon as some variant is too
    short for an input of the first variant whose previous output
    resolves; when all of them resolve, the call returns only if no
    variant is shorter than the first. *)
Theorem variant_inputs_are_read_unchecked (p : Prepared) :
  (forall params,
     prepare params false = Ok p ->
     (covers p -> is_Ok (signrawtransaction params false))
     /\ (short_variant p -> signrawtransaction params false = Undef)
     /\ (all_resolved p -> is_Ok (signrawtransaction params false) -> covers p))
  /\ (forall txDataHex,
       prepare_token txDataHex = Ok p ->
       (covers p -> is_Ok (signrawtokentransaction txDataHex))
       /\ (short_variant p -> signrawtokentransaction txDataHex = Undef)
       /\ (all_resolved p -> is_Ok (signrawtokentransaction txDataHex) -> covers p)).
Proof.
  assert (Hdec : forall q : Prepared, covers q \/ ~ covers q).
  { intros q. unfold covers. destruct (decide (Forall
      (fun txv => (length (vin (first_variant q)) <= length (vin txv))%nat)
      (txVariants q))); auto. }
  split.
  - intros params Hp. rewrite (signrawtransaction_prepared params p Hp).
    split; [|split].
    + intros Hcov. destruct (run_signer_returns p Hcov) as [st ->].
      eexists; reflexivity.
    + intros Hshort. now rewrite (run_signer_short p Hshort).
    + intros Hall [val Hok]. destruct (Hdec p) as [Hcov|Hnot]; [assumption|].
      rewrite (run_signer_short p (uncovered_is_short p Hall Hnot)) in Hok.
      discriminate.
  - intros hex Hp. rewrite (signrawtokentransaction_prepared hex p Hp).
    split; [|split].
    + intros Hcov. destruct (run_signer_returns p Hcov) as [st ->].
      eexists; reflexivity.
    + intros Hshort. now rewrite (run_signer_short p Hshort).
    + intros Hall [val Hok]. destruct (Hdec p) as [Hcov|Hnot]; [assumption|].
      rewrite (run_signer_short p (uncovered_is_short p Hall Hnot)) in Hok.
      discriminate.
Qed.

End SigningEngine.
End SigningEngine.

(** ** sendrawtransaction *)

Record CValidationState := {
  IsInvalid : bool;
  GetRejectCode : Z;
  GetRejectReason : string
}.

(** The node state the gateway reads and writes: the identifiers in the
    memory pool, the coin database, the relay queue and the
    notifications sent to the wallets. *)
Record Node := {
  mempool : gset Z;
  pcoinsTip : CCoinsViewCache;
  relayed : list (CMutableTransaction * Z);
  synced : list (Z * CMutableTransaction)
}.

(** main.h: admission to the memory pool.  The arguments are the
    transaction, [fLimitFree] and [fRejectInsaneFee]; the result tells
    whether the transaction was accepted. *)
Class Chain := {
  AcceptToMemoryPool :
    Node -> CMutableTransaction -> bool -> bool -> bool * Node * CValidationState
}.

Module Gateway.
Section Gateway.
Context `{NodeCore} `{Chain}.

Definition help : Exception := runtime_error "sendrawtransaction: usage".

Definition set_pcoinsTip (node : Node) (view : CCoinsViewCache) : Node :=
  {| mempool := mempool node; pcoinsTip := view;
     relayed := relayed node; synced := synced node |}.

Definition SyncWithWallets (node : Node) (hashTx : Z) (tx : CMutableTransaction) : Node :=
  {| mempool := mempool node; pcoinsTip := pcoinsTip node;
     relayed := relayed node; synced := synced node ++ [(hashTx, tx)] |}.

Definition RelayTransaction (node : Node) (tx : CMutableTransaction) (hashTx : Z) : Node :=
  {| mempool := mempool node; pcoinsTip := pcoinsTip node;
     relayed := relayed node ++ [(tx, hashTx)]; synced := synced node |}.

Definition already_in_chain : Exception :=
  JSONRPCError RPC_TRANSACTION_ALREADY_IN_CHAIN "transaction already in block chain".

(** The part of the handler that follows the decoding of [tx]. *)
Definition submit (node : Node) (tx : CMutableTransaction) (fOverrideFees : bool)
    : Outcome Value * Node :=
  let hashTx := GetHash tx in
  let '(found, view) := GetCoins (pcoinsTip node) hashTx in
  let node := set_pcoinsTip node view in
  let fHaveMempool := bool_decide (hashTx ∈ mempool node) in
  let fHaveChain :=
    match found with
    | Some existingCoins => nHeight existingCoins <? 1000000000
    | None => false
    end in
  if negb fHaveMempool && negb fHaveChain then
    let '(accepted, node, state) :=
      AcceptToMemoryPool node tx false (negb fOverrideFees) in
    if (accepted : bool) then
      let node := SyncWithWallets node hashTx tx in
      (Ok (Value_str (GetHex hashTx)), RelayTransaction node tx hashTx)
    else if IsInvalid state then
      (Throw (JSONRPCError RPC_TRANSACTION_REJECTED
                (Text.decimal (GetRejectCode state) +:+ ": " +:+ GetRejectReason state)),
       node)
    else
      (Throw (JSONRPCError RPC_TRANSACTION_ERROR (GetRejectReason state)), node)
  else if fHaveChain then (Throw already_in_chain, node)
  else (Ok (Value_str (GetHex hashTx)), RelayTransaction node tx hashTx).

Definition sendrawtransaction (node : Node) (params : Array) (fHelp : bool)
    : Outcome Value * Node :=
  if fHelp || (length params <? 1)%nat || (2 <? length params)%nat
  then (Throw help, node)
  else
    match ParseHexV (nth 0 params Value_null) "parameter" with
    | Ok txData =>
        match (if (1 <? length params)%nat
               then Json.get_bool (nth 1 params Value_null) else Ok false) with
        | Ok fOverrideFees =>
            match Unserialize txData with
            | Some (tx, _) => submit node tx fOverrideFees
            | None =>
                (Throw (JSONRPCError RPC_DESERIALIZATION_ERROR "TX decode failed"), node)
            end
        | Throw e => (Throw e, node)
        | Undef => (Undef, node)
        end
    | Throw e => (Throw e, node)
    | Undef => (Undef, node)
    end.

(** [fHaveChain] for the identifier [hashTx]. *)
Definition have_chain (node : Node) (hashTx : Z) : bool :=
  match SigningEngine.view_lookup (pcoinsTip node) hashTx with
  | Some existingCoins => nHeight existingCoins <? 1000000000
  | None => false
  end.

(** The request carries the encoding of [tx]. *)
Definition request_decodes (params : Array) (tx : CMutableTransaction)
    (fOverrideFees : bool) : Prop :=
  (1 <= length params <= 2)%nat
  /\ (if (1 <? length params)%nat
      then Json.get_bool (nth 1 params Value_null) else Ok false) = Ok fOverrideFees
  /\ exists txData rest,
       ParseHexV (nth 0 params Value_null) "parameter" = Ok txData
       /\ Unserialize txData = Some (tx, rest).

Lemma sendrawtransaction_decoded (node : Node) (params : Array)
    (tx : CMutableTransaction) (fOverrideFees : bool) :
  request_decodes params tx fOverrideFees ->
  sendrawtransaction node params false = submit node tx fOverrideFees.
Proof.
  intros (Hlen & Hflag & txData & rest & Hhex & Hdec). unfold sendrawtransaction.
  replace (length params <? 1)%nat with false by (symmetry; apply Nat.ltb_ge; lia).
  replace (2 <? length params)%nat with false by (symmetry; apply Nat.ltb_ge; lia).
  cbn [orb]. now rewrite Hhex, Hflag, Hdec.
Qed.

Lemma submit_have_chain (node : Node) (tx : CMutableTransaction) (fOverrideFees : bool) :
  have_chain node (GetHash tx) = true ->
  let out := submit node tx fOverrideFees in
  out.1 = Throw already_in_chain
  /\ mempool out.2 = mempool node
  /\ relayed out.2 = relayed node
  /\ synced out.2 = synced node.
Proof.
  cbn zeta. unfold submit, have_chain.
  rewrite <- (SigningEngine.GetCoins_fst (pcoinsTip node) (GetHash tx)).
  destruct (GetCoins (pcoinsTip node) (GetHash tx)) as [found view'].
  cbn [fst set_pcoinsTip mempool]. intros ->.
  rewrite andb_false_r. repeat split.
Qed.

Lemma submit_have_mempool (node : Node) (tx : CMutableTransaction) (fOverrideFees : bool) :
  have_chain node (GetHash tx) = false -> GetHash tx ∈ mempool node ->
  let out := submit node tx fOverrideFees in
  out.1 = Ok (Value_str (GetHex (GetHash tx)))
  /\ mempool out.2 = mempool node
  /\ relayed out.2 = (relayed node ++ [(tx, GetHash tx)])%list
  /\ synced out.2 = synced node.
Proof.
  cbn zeta. unfold submit, have_chain.
  rewrite <- (SigningEngine.GetCoins_fst (pcoinsTip node) (GetHash tx)).
  destruct (GetCoins (pcoinsTip node) (GetHash tx)) as [found view'].
  cbn [fst set_pcoinsTip mempool]. intros -> Hin.
  rewrite (bool_decide_eq_true_2 _ Hin). cbn. repeat split.
Qed.

(** C2: a transaction found confirmed below the height bound is refused
    with the already-in-chain error, and neither the memory pool nor the
    relay queue changes; a transaction that is only in the memory pool is
    not admitted again, but the call succeeds with its identifier and
    the transaction is relayed once more. *)
Theorem resubmission_is_refused_only_when_confirmed
    (node : Node) (params : Array) (tx : CMutableTransaction) (fOverrideFees : bool) :
  request_decodes params tx fOverrideFees ->
  let hashTx := GetHash tx in
  let out := sendrawtransaction node params false in
  (have_chain node hashTx = true ->
     out.1 = Throw already_in_chain
     /\ mempool out.2 = mempool node
     /\ relayed out.2 = relayed node
     /\ synced out.2 = synced node)
  /\ (have_chain node hashTx = false -> hashTx ∈ mempool node ->
     out.1 = Ok (Value_str (GetHex hashTx))
     /\ mempool out.2 = mempool node
     /\ relayed out.2 = (relayed node ++ [(tx, hashTx)])%list
     /\ synced out.2 = synced node).
Proof.
  intros Hreq. cbn zeta.
  rewrite (sendrawtransaction_decoded node params tx fOverrideFees Hreq).
  split; [apply submit_have_chain | apply submit_have_mempool].
Qed.

End Gateway.
End Gateway.

(** ** The token commands: createtoken, CreateToken, inittoken *)

(** hash.h and key.h. *)
Class TokenCrypto `{Signer} := {
  (** [CHashWriter(nType, nVersion)] after the given bytes were written:
      the value of [GetHash()]. *)
  CHashWriter_GetHash : Z -> Z -> bytes -> uint256;
  CPubKey : Type;
  GetPubKey : CKey -> CPubKey;
  CPubKey_GetHash : CPubKey -> uint256;
  (** [key.Sign(hash, signature)] *)
  Sign : CKey -> uint256 -> bytes;
  (** [CBitcoinSecret(key).ToString()] *)
  CBitcoinSecret_ToString : CKey -> string;
}.

Module Token.
Section Token.
Context `{NodeCore} `{ScriptEngine} `{TokenCrypto}.

(** Signedness of [char] on the platform. *)
Variable char_signed : bool.

(** [std::string filestring(buffer)], the constructor from a character
    pointer: the characters before the first zero byte.  The buffer holds the file and nothing else, so a file without
    a zero byte makes the constructor read past the array. *)
Fixpoint c_string (buffer : bytes) : Outcome bytes :=
  match buffer with
  | [] => Undef
  | b :: buffer' =>
      if decide (b = x00) then Ok []
      else s ← c_string buffer'; Ok (b :: s)
  end.

(** The [len] bytes starting at [&s[0]]: the characters of [s], then
    its terminating zero; anything further is outside the string. *)
Definition read_from (s : bytes) (len : nat) : Outcome bytes :=
  if (len <=? length s)%nat then Ok (take len s)
  else if (len =? S (length s))%nat then Ok (s ++ [x00])%list
  else Undef.

(** Lines 1097-1117 of [CreateToken] (and 1052-1071 of [createtoken]):
    the digest that gets signed. *)
Definition token_hash (file : bytes) (previousTxId : string) : Outcome uint256 :=
  filestring ← c_string file;
  let filestring := (filestring ++ Text.bytes_of_string previousTxId)%list in
  written ← read_from filestring 64;
  Ok (CHashWriter_GetHash 1 1 written).

(** [key] is the key [MakeNewKey(false)] draws for this call. *)
Definition CreateToken (key : CKey) (file : bytes) (previousTxId : string)
    : Outcome Value :=
  hash ← token_hash file previousTxId;
  let pubKey := GetPubKey key in
  let signature := Sign key hash in
  let pubKeyString := GetHex (CPubKey_GetHash pubKey) in
  let signatureHexString := Hex.GetHexStringFromBytes char_signed signature in
  let privateKeyHex := CBitcoinSecret_ToString key in
  Ok (Value_obj [("Token ID", Value_str signatureHexString);
                 ("Token public key", Value_str pubKeyString);
                 ("Token private key", Value_str privateKeyHex)]).

(** [files] gives the content of the file at a path. *)
Definition createtoken (files : string -> bytes) (key : CKey)
    (params : Array) (fhelp : bool) : Outcome Value :=
  if fhelp || (length params <? 2)%nat || (2 <? length params)%nat
  then Throw (runtime_error "createtoken: usage")
  else
    path ← Json.get_str (nth 0 params Value_null);
    previousTxId ← Json.get_str (nth 1 params Value_null);
    CreateToken key (files path) previousTxId.

(** The scan of [inittoken] for the funding output; [nOutput] is an
    [int]. *)
Fixpoint find_output (outs : list CTxOut) (checkAmount : Z) (nOutput : Z) : Z :=
  match outs with
  | [] => nOutput
  | inputTransactionOut :: outs' =>
      if nValue inputTransactionOut =? checkAmount then nOutput
      else find_output outs' checkAmount (to_int (nOutput + 1))
  end.

Definition funding_index (inputTransaction : CMutableTransaction) : Z :=
  find_output (vout inputTransaction) (int64_mul 1001 COIN) 0.

(** Lines 1215-1253 of [inittoken]: the transaction that carries the
    token, built from the funding transaction and the token object. *)
Definition token_transaction (inputtxid : uint256)
    (inputTransaction : CMutableTransaction) (token : Value) (smlyaddress : string)
    : Outcome CMutableTransaction :=
  let nOutput := funding_index inputTransaction in
  let rawTx := Builder.empty_tx in
  let in_ := CTxIn_of {| hash := inputtxid; n := to_unsigned nOutput |} in
  let rawTx := push_vin rawTx in_ in
  match CBitcoinAddress smlyaddress with
  | None => Throw (JSONRPCError RPC_INVALID_ADDRESS_OR_KEY "Invalid smly address")
  | Some address =>
      let out := {| nValue := int64_mul 1000 COIN;
                    scriptPubKey := SetDestination address |} in
      let rawTx := push_vout rawTx out in
      o ← Json.get_obj token;
      data ← ParseHexO o "Token ID";
      let out2 := {| nValue := 0;
                     scriptPubKey := push_data (push_opcode [] OP_RETURN) data |} in
      Ok (push_vout rawTx out2)
  end.

(** *** The digest *)

Lemma c_string_prefix (file s : bytes) :
  c_string file = Ok s -> exists rest, file = (s ++ x00 :: rest)%list.
Proof.
  revert s; induction file as [|b file IH]; intros s; cbn [c_string];
    [discriminate|].
  destruct (decide (b = x00)) as [->|Hb].
  - intros [= <-]. now exists file.
  - destruct (c_string file) as [s'| |]; run_bind;
      try discriminate.
    intros [= <-]. destruct (IH s' eq_refl) as [rest ->]. now exists rest.
Qed.

Lemma c_string_no_zero (file : bytes) :
  x00 ∉ file -> c_string file = Undef.
Proof.
  induction file as [|b file IH]; intros Hno; cbn [c_string]; [reflexivity|].
  destruct (decide (b = x00)) as [->|Hb]; [exfalso; apply Hno; left|].
  rewrite IH; [reflexivity|]. intros Hin. apply Hno. now right.
Qed.

(** A file whose first zero byte comes after 64 or more bytes: the 64
    bytes hashed are the first 64 bytes of the file. *)
Lemma token_hash_long_file (file s : bytes) (previousTxId : string) :
  c_string file = Ok s -> (64 <= length s)%nat ->
  token_hash file previousTxId
  = Ok (CHashWriter_GetHash 1 1
          (take 64 (file ++ Text.bytes_of_string previousTxId))).
Proof.
  intros Hs Hlen. unfold token_hash, read_from. rewrite Hs.
  run_bind.
  destruct (c_string_prefix file s Hs) as [rest ->].
  rewrite length_app.
  replace (64 <=? length s + _)%nat with true by (symmetry; apply Nat.leb_le; lia).
  run_bind.
  rewrite <- app_assoc. now rewrite !take_app_le by lia.
Qed.

(** A file without a zero byte: the read leaves the buffer. *)
Lemma token_hash_text_file (file : bytes) (previousTxId : string) :
  x00 ∉ file -> token_hash file previousTxId = Undef.
Proof. intros Hno. unfold token_hash. now rewrite c_string_no_zero. Qed.

(** The token identifier is the signature of the digest, whatever key
    the call drew; the digest itself does not depend on the key. *)
Lemma CreateToken_signs_token_hash (key : CKey) (file : bytes)
    (previousTxId : string) (token : Value) :
  CreateToken key file previousTxId = Ok token ->
  exists hash,
    token_hash file previousTxId = Ok hash
    /\ Json.find_value (default [] (match token with Value_obj o => Some o | _ => None end))
         "Token ID"
       = Value_str (Hex.GetHexStringFromBytes char_signed (Sign key hash)).
Proof.
  unfold CreateToken.
  destruct (token_hash file previousTxId) as [hash| |];
    run_bind; try discriminate.
  intros [= <-]. exists hash. split; reflexivity.
Qed.

Definition zero_txid : string :=
  "0000000000000000000000000000000000000000000000000000000000000000".

(** C1 at the file with the three bytes 61 00 62 and the all-zero anchor
    identifier: the loop of the string constructor stops at the zero
    byte, so the 64 bytes hashed are 61 followed by 63 characters of the
    identifier, which are not the first 64 bytes of the file followed by
    the identifier. *)
Theorem token_hash_stops_at_zero_byte :
  let file := [x61; x00; x62] in
  let written := (x61 :: take 63 (Text.bytes_of_string zero_txid))%list in
  token_hash file zero_txid = Ok (CHashWriter_GetHash 1 1 written)
  /\ written <> take 64 (file ++ Text.bytes_of_string zero_txid).
Proof. split; [reflexivity | discriminate]. Qed.

(** *** The funding output *)

Lemma find_output_first (amt : Z) (outs : list CTxOut) :
  forall (n0 : Z) (i : nat) (o : CTxOut),
  0 <= n0 -> n0 + Z.of_nat (length outs) < 2 ^ 31 ->
  outs !! i = Some o -> nValue o = amt ->
  (forall j o', (j < i)%nat -> outs !! j = Some o' -> nValue o' <> amt) ->
  find_output outs amt n0 = n0 + Z.of_nat i.
Proof.
  induction outs as [|o0 outs IH]; intros n0 i o Hn0 Hfit Hi Hamt Hfirst;
    [discriminate|].
  cbn [find_output]. destruct i as [|i].
  - injection Hi as ->. rewrite (proj2 (Z.eqb_eq _ _) Hamt). lia.
  - rewrite (proj2 (Z.eqb_neq _ _) (Hfirst 0%nat o0 ltac:(lia) eq_refl)).
    cbn [length] in Hfit. unfold to_int.
    rewrite wrap_signed_id by (change (2 ^ (32 - 1)) with (2 ^ 31); lia).
    rewrite (IH (n0 + 1) i o); [lia.. | assumption | assumption |].
    intros j o' Hj Hlook. apply (Hfirst (S j) o'); [lia | assumption].
Qed.

Lemma find_output_none (amt : Z) (outs : list CTxOut) :
  forall (n0 : Z),
  0 <= n0 -> n0 + Z.of_nat (length outs) < 2 ^ 31 ->
  Forall (fun o => nValue o <> amt) outs ->
  find_output outs amt n0 = n0 + Z.of_nat (length outs).
Proof.
  induction outs as [|o0 outs IH]; intros n0 Hn0 Hfit Hall; cbn [find_output length].
  - lia.
  - apply Forall_cons in Hall as [Ho Hall].
    rewrite (proj2 (Z.eqb_neq _ _) Ho). cbn [length] in Hfit. unfold to_int.
    rewrite wrap_signed_id by (change (2 ^ (32 - 1)) with (2 ^ 31); lia).
    rewrite IH; [lia.. | assumption].
Qed.

(** C3: the input of the token transaction spends the funding
    transaction at the index of the first output worth [1001 * COIN]; when
    no output has that value the index is the number of outputs, one past
    the last of them. *)
Theorem funding_index_is_first_match_or_past_the_end
    (inputTransaction : CMutableTransaction) :
  Z.of_nat (length (vout inputTransaction)) < 2 ^ 31 ->
  let checkAmount := int64_mul 1001 COIN in
  (forall (i : nat) (o : CTxOut),
     vout inputTransaction !! i = Some o -> nValue o = checkAmount ->
     (forall j o', (j < i)%nat -> vout inputTransaction !! j = Some o' ->
                   nValue o' <> checkAmount) ->
     funding_index inputTransaction = Z.of_nat i)
  /\ (Forall (fun o => nValue o <> checkAmount) (vout inputTransaction) ->
     funding_index inputTransaction = Z.of_nat (length (vout inputTransaction))).
Proof.
  intros Hfit checkAmount. unfold funding_index. fold checkAmount. split.
  - intros i o Hi Hamt Hfirst.
    rewrite (find_output_first checkAmount (vout inputTransaction) 0 i o);
      [lia | lia | lia | assumption..].
  - intros Hnone.
    rewrite (find_output_none checkAmount (vout inputTransaction) 0);
      [lia | lia | lia | assumption].
Qed.

Lemma token_transaction_input (inputtxid : uint256)
    (inputTransaction : CMutableTransaction) (token : Value) (smlyaddress : string)
    (rawTx : CMutableTransaction) :
  token_transaction inputtxid inputTransaction token smlyaddress = Ok rawTx ->
  vin rawTx
  = [CTxIn_of {| hash := inputtxid;
                 n := to_unsigned (funding_index inputTransaction) |}].
Proof.
  unfold token_transaction.
  destruct (CBitcoinAddress smlyaddress) as [address|]; [|discriminate].
  destruct (Json.get_obj token) as [o| |]; run_bind;
    try discriminate.
  destruct (ParseHexO o "Token ID") as [data| |]; run_bind;
    try discriminate.
  intros [= <-]. reflexivity.
Qed.

End Token.
End Token.

(** ** A small node to run the embedded code on

    The interfaces above are instantiated with a toy node: real
    hexadecimal parsing and script pushes, a compact transaction codec,
    and stand-ins for the cryptography.  The examples below run the
    embedded handlers on it. *)

Module Reference.

Definition byte_of_Z (z : Z) : Byte.byte :=
  default x00 (Byte.of_N (Z.to_N (z mod 256))).

Definition hex_value (c : ascii) : option Z :=
  let k := Z.of_nat (nat_of_ascii c) in
  if (48 <=? k) && (k <=? 57) then Some (k - 48)
  else if (97 <=? k) && (k <=? 102) then Some (k - 87)
  else if (65 <=? k) && (k <=? 70) then Some (k - 55)
  else None.

Fixpoint all_hex (s : string) : bool :=
  match s with
  | EmptyString => true
  | String c s' => bool_decide (is_Some (hex_value c)) && all_hex s'
  end.

Definition IsHex (s : string) : bool :=
  all_hex s && (0 <? String.length s)%nat && Nat.even (String.length s).

Fixpoint ParseHex (s : string) : bytes :=
  match s with
  | String a (String b s') =>
      byte_of_Z (16 * default 0 (hex_value a) + default 0 (hex_value b)) :: ParseHex s'
  | _ => []
  end.

Definition ref_ParseHexV (v : Value) (strName : string) : Outcome bytes :=
  let strHex := match v with Value_str s => s | _ => "" end in
  if IsHex strHex then Ok (ParseHex strHex)
  else Throw (JSONRPCError RPC_INVALID_PARAMETER
                (strName +:+ " must be hexadecimal string")).

Definition bytes_to_Z (b : bytes) : Z :=
  fold_left (fun acc x => 256 * acc + byte_to_Z x) b 0.

Definition ref_ParseHashV (v : Value) (strName : string) : Outcome Z :=
  let strHex := match v with Value_str s => s | _ => "" end in
  if (String.length strHex =? 64)%nat && IsHex strHex
  then Ok (bytes_to_Z (ParseHex strHex))
  else Throw (JSONRPCError RPC_INVALID_PARAMETER
                (strName +:+ " must be hexadecimal string of length 64")).

Definition ref_COIN : Z := 100000000.

Definition ref_AmountFromValue (v : Value) : Outcome Z :=
  match v with
  | Value_int i =>
      if (0 <? i) && (i <=? 84000000000) then Ok (i * ref_COIN)
      else Throw (JSONRPCError RPC_TYPE_ERROR "Invalid amount")
  | _ => Throw (JSONRPCError RPC_TYPE_ERROR "Invalid amount")
  end.

(** The codec: one byte per count and per small field, eight
    little-endian bytes per amount. *)
Fixpoint le_bytes (k : nat) (z : Z) : bytes :=
  match k with
  | O => []
  | S k' => byte_of_Z z :: le_bytes k' (z / 256)
  end.

Fixpoint le_value (b : bytes) : Z :=
  match b with
  | [] => 0
  | x :: b' => byte_to_Z x + 256 * le_value b'
  end.

Definition ser_in (i : CTxIn) : bytes :=
  [byte_of_Z (hash (prevout i)); byte_of_Z (n (prevout i));
   byte_of_Z (Z.of_nat (length (scriptSig i)))]
  ++ scriptSig i ++ [byte_of_Z (nSequence i)].

Definition ser_out (o : CTxOut) : bytes :=
  le_bytes 8 (nValue o)
  ++ [byte_of_Z (Z.of_nat (length (scriptPubKey o)))] ++ scriptPubKey o.

Definition ref_Serialize (tx : CMutableTransaction) : bytes :=
  [byte_of_Z (nVersion tx); byte_of_Z (Z.of_nat (length (vin tx)))]
  ++ concat (map ser_in (vin tx))
  ++ [byte_of_Z (Z.of_nat (length (vout tx)))]
  ++ concat (map ser_out (vout tx))
  ++ [byte_of_Z (nLockTime tx)].

Definition chop (k : nat) (data : bytes) : option (bytes * bytes) :=
  if (k <=? length data)%nat then Some (take k data, drop k data) else None.

Definition read_in (data : bytes) : option (CTxIn * bytes) :=
  match data with
  | h :: ix :: len :: data1 =>
      '(sig, data2) ← chop (Z.to_nat (byte_to_Z len)) data1;
      match data2 with
      | sq :: data3 =>
          Some ({| prevout := {| hash := byte_to_Z h; n := byte_to_Z ix |};
                   scriptSig := sig;
                   nSequence := if byte_to_Z sq =? 255 then UINT32_MAX
                                else byte_to_Z sq |}, data3)
      | [] => None
      end
  | _ => None
  end.

Definition read_out (data : bytes) : option (CTxOut * bytes) :=
  '(amount, data1) ← chop 8 data;
  match data1 with
  | len :: data2 =>
      '(script, data3) ← chop (Z.to_nat (byte_to_Z len)) data2;
      Some ({| nValue := wrap_signed 64 (le_value amount); scriptPubKey := script |},
            data3)
  | [] => None
  end.

Fixpoint read_many {A} (read : bytes -> option (A * bytes)) (count : nat)
    (data : bytes) : option (list A * bytes) :=
  match count with
  | O => Some ([], data)
  | S count' =>
      '(x, data1) ← read data;
      '(xs, data2) ← read_many read count' data1;
      Some (x :: xs, data2)
  end.

Definition read_tx (data : bytes) : option (CMutableTransaction * bytes) :=
  match data with
  | ver :: nin :: data1 =>
      '(ins, data2) ← read_many read_in (Z.to_nat (byte_to_Z nin)) data1;
      match data2 with
      | nout :: data3 =>
          '(outs, data4) ← read_many read_out (Z.to_nat (byte_to_Z nout)) data3;
          match data4 with
          | lock :: data5 =>
              Some ({| nVersion := byte_to_Z ver; vin := ins; vout := outs;
                       nLockTime := byte_to_Z lock |}, data5)
          | [] => None
          end
      | [] => None
      end
  | _ => None
  end.

Definition ref_Unserialize (data : bytes) : option (CMutableTransaction * bytes) :=
  match read_tx data with
  | Some (tx, rest) =>
      if (length rest <? length data)%nat then Some (tx, rest) else None
  | None => None
  end.

Lemma ref_Unserialize_consumes (data : bytes) (tx : CMutableTransaction) (rest : bytes) :
  ref_Unserialize data = Some (tx, rest) -> (length rest < length data)%nat.
Proof.
  unfold ref_Unserialize. destruct (read_tx data) as [[tx' rest']|]; [|discriminate].
  destruct (length rest' <? length data)%nat eqn:Hlt; [|discriminate].
  intros [= _ <-]. now apply Nat.ltb_lt.
Qed.

Definition ref_GetHash (tx : CMutableTransaction) : Z :=
  bytes_to_Z (x01 :: ref_Serialize tx).

Definition ref_GetHex (h : Z) : string := HexStr (rev (le_bytes 32 h)).

#[export] Instance core : NodeCore := {|
  COIN := ref_COIN;
  CURRENT_VERSION := 1;
  ParseHashV := ref_ParseHashV;
  ParseHexV := ref_ParseHexV;
  AmountFromValue := ref_AmountFromValue;
  Serialize := ref_Serialize;
  Unserialize := ref_Unserialize;
  Unserialize_consumes := ref_Unserialize_consumes;
  GetHash := ref_GetHash;
  GetHex := ref_GetHex
|}.

(** Addresses are the texts that start with the letter B. *)
Definition ref_CBitcoinAddress (text : string) : option string :=
  match text with
  | String "B" _ => Some text
  | _ => None
  end.

Definition ref_push_data (script data : bytes) : bytes :=
  let len := Z.of_nat (length data) in
  (if len <? 76 then script ++ [byte_of_Z len] ++ data
   else if len <=? 255 then script ++ [x4c; byte_of_Z len] ++ data
   else if len <=? 65535 then script ++ [x4d] ++ le_bytes 2 len ++ data
   else script ++ [x4e] ++ le_bytes 4 len ++ data)%list.

Definition ref_IsPayToScriptHash (script : bytes) : bool :=
  (length script =? 23)%nat
  && bool_decide (script !! 0%nat = Some xa9)
  && bool_decide (script !! 1%nat = Some x14)
  && bool_decide (script !! 22%nat = Some x87).

#[export] Instance scripts : ScriptEngine := {|
  Address := string;
  CBitcoinAddress := ref_CBitcoinAddress;
  SetDestination := fun a => ([x76; xa9] ++ Text.bytes_of_string a ++ [x88; xac])%list;
  OP_RETURN := x6a;
  push_opcode := fun script op => (script ++ [op])%list;
  push_data := ref_push_data;
  IsPayToScriptHash := ref_IsPayToScriptHash;
  ToString := HexStr
|}.

(** Keys are numbers; a key text is the letter K followed by anything.
    Signing pushes the first key of the store, merging keeps the longer
    script, and a script verifies when it is not empty. *)
Definition ref_CBitcoinSecret (text : string) : option Z :=
  match text with
  | String "K" rest => Some (Z.of_nat (String.length rest))
  | _ => None
  end.

Definition ref_SignSignature (ks : list Z * list bytes) (prevPubKey : bytes)
    (tx : CMutableTransaction) (i : nat) (nHashType : Z) : bytes :=
  match ks.1 with
  | key :: _ => [byte_of_Z key; byte_of_Z nHashType]
  | [] => []
  end.

Definition ref_CombineSignatures (prevPubKey : bytes) (tx : CMutableTransaction)
    (i : nat) (sig1 sig2 : bytes) : bytes :=
  if (length sig1 <? length sig2)%nat then sig2 else sig1.

#[export] Instance signer : Signer := {|
  CKey := Z;
  KeyStore := list Z * list bytes;
  CBasicKeyStore := ([], []);
  AddKey := fun ks key => ((ks.1 ++ [key])%list, ks.2);
  AddCScript := fun ks script => (ks.1, (ks.2 ++ [script])%list);
  CBitcoinSecret := ref_CBitcoinSecret;
  SignSignature := ref_SignSignature;
  CombineSignatures := ref_CombineSignatures;
  VerifyScript := fun sig _ _ _ _ _ => (0 <? length sig)%nat
|}.

(** A node without a wallet whose coin views know no transaction. *)
Definition env : SignerEnv := {|
  viewMempool := viewDummy;
  pwalletMain := None;
  EnsureWalletIsUnlocked := Ok tt
|}.

(** Admission always succeeds and records the identifier. *)
#[export] Instance chain : Chain := {|
  AcceptToMemoryPool := fun node tx _ _ =>
    (true,
     {| mempool := {[ref_GetHash tx]} ∪ mempool node; pcoinsTip := pcoinsTip node;
        relayed := relayed node; synced := synced node |},
     {| IsInvalid := false; GetRejectCode := 0; GetRejectReason := "" |})
|}.

#[export] Instance crypto : TokenCrypto := {|
  CHashWriter_GetHash := fun _ _ written => bytes_to_Z (x01 :: written);
  CPubKey := Z;
  GetPubKey := fun key => key + 1;
  CPubKey_GetHash := fun pub => pub;
  Sign := fun key hash => le_bytes 4 (key + hash);
  CBitcoinSecret_ToString := fun key => "K" +:+ Text.decimal key
|}.

(** *** Building *)

Definition txid_A : string :=
  "00000000000000000000000000000000000000000000000000000000000000a1".

Definition input_A : Value :=
  Value_obj [("txid", Value_str txid_A); ("vout", Value_int 0)].

(** Outputs [{"data":"00010203:5"}]: one output of 5 coins whose script
    is OP_RETURN and the push of the four bytes. *)
Example build_data_output :
  Builder.build [Value_array [input_A]; Value_obj [("data", Value_str "00010203:5")]] false
  = Ok {| nVersion := 1;
          vin := [CTxIn_of {| hash := 161; n := 0 |}];
          vout := [{| nValue := 500000000;
                      scriptPubKey := [x6a; x04; x00; x01; x02; x03] |}];
          nLockTime := 0 |}.
Proof. vm_compute. reflexivity. Qed.

Example build_duplicate_address :
  Builder.createrawtransaction
    [Value_array [input_A];
     Value_obj [("Bob", Value_int 1); ("data", Value_str "00"); ("Bob", Value_int 2)]]
    false
  = Throw (Builder.DuplicateAddress "Bob").
Proof. vm_compute. reflexivity. Qed.

Example build_invalid_address :
  Builder.createrawtransaction
    [Value_array [input_A]; Value_obj [("Bob", Value_int 1); ("alice", Value_int 2)]]
    false
  = Throw (Builder.InvalidAddress "alice").
Proof. vm_compute. reflexivity. Qed.

Lemma data_entry_example :
  0 < COIN
  /\ Text.colon_free "00010203" = true
  /\ ParseHexV (Value_str "00010203") "Data" = Ok [x00; x01; x02; x03]
  /\ Z.max 0 5 * COIN <= INT64_MAX
  /\ exists rawTx',
       Builder.add_output (Builder.empty_tx, ∅) ("data", Value_str "00010203:5")
       = Ok (rawTx', ∅)
       /\ vout rawTx' = [{| nValue := 5 * COIN;
                            scriptPubKey := [x6a; x04; x00; x01; x02; x03] |}]
       /\ vin rawTx' = []
       /\ nVersion rawTx' = 1 /\ nLockTime rawTx' = 0.
Proof.
  assert (H1 : 0 < COIN) by reflexivity.
  assert (H2 : Text.colon_free "00010203" = true) by reflexivity.
  assert (H3 : ParseHexV (Value_str "00010203") "Data" = Ok [x00; x01; x02; x03])
    by reflexivity.
  assert (H4 : Z.max 0 (default 0 (Some 5)) * COIN <= INT64_MAX)
    by (vm_compute; discriminate).
  repeat (split; [assumption|]).
  exact (Builder.data_entry_appends_commitment_output
           Builder.empty_tx ∅ "00010203" [x00; x01; x02; x03] (Some 5) H1 H2 H3 H4).
Defined.

(** An amount whose product with [COIN] leaves the 64-bit range: the
    output does not carry [max(0, amount) * COIN]. *)
Lemma data_amount_overflows :
  exists rawTx',
    Builder.add_output (Builder.empty_tx, ∅) ("data", Value_str "00:92233720369")
    = Ok (rawTx', ∅)
    /\ nValue <$> vout rawTx' = [-9223372036809551616]
    /\ -9223372036809551616 <> Z.max 0 92233720369 * COIN.
Proof.
  eexists. split; [vm_compute; reflexivity|]. split; [reflexivity | discriminate].
Qed.

Definition sendTo_twice : Object :=
  [("Bob", Value_int 1); ("data", Value_str "00"); ("Bob", Value_int 2)].

Definition sendTo_invalid : Object :=
  [("Bob", Value_int 1); ("alice", Value_int 2)].

Lemma bad_address_example :
  (~ is_Ok (Builder.createrawtransaction
              [Value_array [input_A]; Value_obj sendTo_twice] false)
   /\ Builder.createrawtransaction
        [Value_array [input_A]; Value_obj sendTo_twice] false
      = Throw (Builder.DuplicateAddress "Bob"))
  /\ (~ is_Ok (Builder.createrawtransaction
                 [Value_array [input_A]; Value_obj sendTo_invalid] false)
      /\ Builder.createrawtransaction
           [Value_array [input_A]; Value_obj sendTo_invalid] false
         = Throw (Builder.InvalidAddress "alice")).
Proof.
  split.
  - destruct (Builder.bad_address_key_is_hard_error [input_A] sendTo_twice)
      as [Hhard Hfirst].
    split.
    + apply Hhard. exists "Bob". split; [discriminate|]. left.
      exists 0%nat, 2%nat, (Value_int 1), (Value_int 2).
      split; [lia|]. split; reflexivity.
    + edestruct (Hfirst [("Bob", Value_int 1); ("data", Value_str "00")] []
                   "Bob" (Value_int 2)) as [_ Hdup];
        [reflexivity | discriminate | vm_compute; reflexivity
        | vm_compute; reflexivity |].
      apply Hdup. left.
  - destruct (Builder.bad_address_key_is_hard_error [input_A] sendTo_invalid)
      as [Hhard Hfirst].
    split.
    + apply Hhard. exists "alice". split; [discriminate|]. right.
      split; [right; left | reflexivity].
    + edestruct (Hfirst [("Bob", Value_int 1)] [] "alice" (Value_int 2))
        as [Hinv _];
        [reflexivity | discriminate | vm_compute; reflexivity
        | vm_compute; reflexivity |].
      apply Hinv. reflexivity.
Defined.

(** *** Submitting *)

Definition in0 : CTxIn :=
  {| prevout := {| hash := 1; n := 0 |}; scriptSig := [xaa]; nSequence := UINT32_MAX |}.

Definition in1 : CTxIn :=
  {| prevout := {| hash := 2; n := 0 |}; scriptSig := []; nSequence := UINT32_MAX |}.

Definition out0 : CTxOut := {| nValue := 7; scriptPubKey := [x51] |}.

Definition variant_A : CMutableTransaction :=
  {| nVersion := 1; vin := [in0; in1]; vout := [out0]; nLockTime := 0 |}.

Definition variant_B : CMutableTransaction :=
  {| nVersion := 1; vin := [in0]; vout := [out0]; nLockTime := 0 |}.

Definition request_B : Array := [Value_str (HexStr (Serialize variant_B))].

(** [variant_B] is in the memory pool and not in the chain. *)
Definition node_pending : Node :=
  {| mempool := {[GetHash variant_B]}; pcoinsTip := SigningEngine.empty_view;
     relayed := []; synced := [] |}.

(** [variant_B] is confirmed at height 120. *)
Definition node_confirmed : Node :=
  {| mempool := ∅;
     pcoinsTip := {| base := viewDummy;
                     cacheCoins := {[GetHash variant_B :=
                                       {| coins_vout := [out0]; nHeight := 120 |}]} |};
     relayed := []; synced := [] |}.

Lemma request_B_decodes : Gateway.request_decodes request_B variant_B false.
Proof.
  split; [cbn; lia|]. split; [reflexivity|].
  exists (Serialize variant_B), []. split; vm_compute; reflexivity.
Defined.

(** A transaction that is only in the memory pool: the call returns its
    identifier and relays it again. *)
Lemma pending_transaction_is_relayed_again :
  let out := Gateway.sendrawtransaction node_pending request_B false in
  GetHash variant_B ∈ mempool node_pending
  /\ out.1 = Ok (Value_str (GetHex (GetHash variant_B)))
  /\ relayed node_pending = []
  /\ relayed out.2 = [(variant_B, GetHash variant_B)].
Proof.
  cbn zeta.
  split; [change (GetHash variant_B ∈ ({[GetHash variant_B]} : gset Z));
          apply elem_of_singleton_2; reflexivity|].
  split; [vm_compute; reflexivity|]. split; [reflexivity | vm_compute; reflexivity].
Qed.

Lemma resubmission_example :
  Gateway.request_decodes request_B variant_B false
  /\ Gateway.have_chain node_confirmed (GetHash variant_B) = true
  /\ (Gateway.sendrawtransaction node_confirmed request_B false).1
     = Throw Gateway.already_in_chain
  /\ relayed (Gateway.sendrawtransaction node_confirmed request_B false).2 = []
  /\ Gateway.have_chain node_pending (GetHash variant_B) = false
  /\ GetHash variant_B ∈ mempool node_pending
  /\ (Gateway.sendrawtransaction node_pending request_B false).1
     = Ok (Value_str (GetHex (GetHash variant_B)))
  /\ mempool (Gateway.sendrawtransaction node_pending request_B false).2
     = mempool node_pending.
Proof.
  assert (Hc : Gateway.have_chain node_confirmed (GetHash variant_B) = true)
    by (vm_compute; reflexivity).
  assert (Hn : Gateway.have_chain node_pending (GetHash variant_B) = false)
    by (vm_compute; reflexivity).
  assert (Hm : GetHash variant_B ∈ mempool node_pending).
  { change (GetHash variant_B ∈ ({[GetHash variant_B]} : gset Z)).
    apply elem_of_singleton_2; reflexivity. }
  destruct (Gateway.resubmission_is_refused_only_when_confirmed
              node_confirmed request_B variant_B false request_B_decodes)
    as [Hchain _].
  destruct (Gateway.resubmission_is_refused_only_when_confirmed
              node_pending request_B variant_B false request_B_decodes)
    as [_ Hpool].
  destruct (Hchain Hc) as (Hthrow & _ & Hrel & _).
  destruct (Hpool Hn Hm) as (Hok & Hmem & _).
  split; [exact request_B_decodes|]. split; [exact Hc|].
  split; [exact Hthrow|]. split; [exact Hrel|]. split; [exact Hn|].
  split; [exact Hm|]. split; [exact Hok | exact Hmem].
Defined.

(** *** Tokens *)

Definition funding_without_match : CMutableTransaction :=
  {| nVersion := 1; vin := []; vout := [{| nValue := 5; scriptPubKey := [x51] |}];
     nLockTime := 0 |}.

Definition funding_with_match : CMutableTransaction :=
  {| nVersion := 1; vin := [];
     vout := [{| nValue := 5; scriptPubKey := [x51] |};
              {| nValue := 1001 * COIN; scriptPubKey := [x51] |};
              {| nValue := 1001 * COIN; scriptPubKey := [x52] |}];
     nLockTime := 0 |}.

(** No output is worth [1001 * COIN], and the index chosen is 1, not 0. *)
Lemma funding_index_without_match :
  Forall (fun o => nValue o <> 1001 * COIN) (vout funding_without_match)
  /\ Token.funding_index funding_without_match = 1
  /\ Token.funding_index funding_without_match <> 0.
Proof.
  split; [repeat constructor; discriminate|]. split; [reflexivity | discriminate].
Qed.

Lemma funding_index_example :
  Z.of_nat (length (vout funding_with_match)) < 2 ^ 31
  /\ Token.funding_index funding_with_match = 1
  /\ Z.of_nat (length (vout funding_without_match)) < 2 ^ 31
  /\ Token.funding_index funding_without_match = 1.
Proof.
  assert (H1 : Z.of_nat (length (vout funding_with_match)) < 2 ^ 31) by reflexivity.
  assert (H2 : Z.of_nat (length (vout funding_without_match)) < 2 ^ 31) by reflexivity.
  split; [exact H1|]. split.
  - destruct (Token.funding_index_is_first_match_or_past_the_end
                funding_with_match H1) as [Hfirst _].
    apply (Hfirst 1%nat {| nValue := 1001 * COIN; scriptPubKey := [x51] |});
      [reflexivity | reflexivity |].
    intros j o' Hj Hlook. destruct j as [|j]; [|lia].
    injection Hlook as <-. discriminate.
  - split; [exact H2|].
    destruct (Token.funding_index_is_first_match_or_past_the_end
                funding_without_match H2) as [_ Hnone].
    apply Hnone. repeat constructor. discriminate.
Defined.

(** *** Signing *)

Definition txid_2 : string :=
  "0000000000000000000000000000000000000000000000000000000000000002".

(** The caller vouches for output 0 of transaction 2, with script 51. *)
Definition prev_2 : Value :=
  Value_obj [("txid", Value_str txid_2); ("vout", Value_int 0);
             ("scriptPubKey", Value_str "51")].

Definition coins_2 : CCoins :=
  {| coins_vout := [{| nValue := 0; scriptPubKey := [x51] |}]; nHeight := 0 |}.

(** One variant; its first input carries a script and does not resolve,
    its second input resolves through [prev_2]. *)
Definition params_A : Array :=
  [Value_str (HexStr (Serialize variant_A)); Value_array [prev_2];
   Value_array [Value_str "Kabc"]].

Definition prepared_A : SigningEngine.Prepared :=
  {| SigningEngine.txVariants := [variant_A];
     SigningEngine.view := {| base := viewDummy; cacheCoins := {[2 := coins_2]} |};
     SigningEngine.keystore := ([3], []);
     SigningEngine.nHashType := SIGHASH_ALL |}.

(** Two variants, the second one input shorter than the first. *)
Definition params_AB : Array :=
  [Value_str (HexStr (Serialize variant_A ++ Serialize variant_B));
   Value_array [prev_2]; Value_array [Value_str "Kabc"]].

Definition prepared_AB : SigningEngine.Prepared :=
  {| SigningEngine.txVariants := [variant_A; variant_B];
     SigningEngine.view := {| base := viewDummy; cacheCoins := {[2 := coins_2]} |};
     SigningEngine.keystore := ([3], []);
     SigningEngine.nHashType := SIGHASH_ALL |}.

Lemma prepare_A : SigningEngine.prepare env params_A false = Ok prepared_A.
Proof. vm_compute. reflexivity. Defined.

Lemma prepare_AB : SigningEngine.prepare env params_AB false = Ok prepared_AB.
Proof. vm_compute. reflexivity. Defined.

Lemma covers_A : SigningEngine.covers prepared_A.
Proof. repeat constructor. Defined.

Lemma in0_unresolved :
  SigningEngine.prevPubKey_of (SigningEngine.view prepared_A) in0 = None.
Proof. vm_compute. reflexivity. Defined.

Lemma in1_resolved :
  SigningEngine.prevPubKey_of (SigningEngine.view prepared_A) in1 = Some [x51].
Proof. vm_compute. reflexivity. Defined.

Example sign_A :
  SigningEngine.signrawtransaction env params_A false
  = Ok (SigningEngine.signed_result
          {| nVersion := 1;
             vin := [in0; set_scriptSig in1 [x03; x01]];
             vout := [out0]; nLockTime := 0 |}
          false).
Proof. vm_compute. reflexivity. Qed.










Lemma unresolved_input_example :
  SigningEngine.prepare env params_A false = Ok prepared_A
  /\ exists result mergedTx fComplete,
       SigningEngine.signrawtransaction env params_A false = Ok result
       /\ result = SigningEngine.signed_result mergedTx fComplete
       /\ SigningEngine.scriptSig_at mergedTx 0 = Some [xaa].
Proof.
  split; [exact prepare_A|].
  eexists.
  assert (Hcall : SigningEngine.signrawtransaction env params_A false
                  = Ok (SigningEngine.signed_result
                          {| nVersion := 1;
                             vin := [in0; set_scriptSig in1 [x03; x01]];
                             vout := [out0]; nLockTime := 0 |} false))
    by (vm_compute; reflexivity).
  destruct (SigningEngine.unresolved_input_is_returned_unchanged
              env params_A prepared_A _ prepare_A Hcall)
    as (mergedTx & fComplete & Hres & Hkeep).
  exists mergedTx, fComplete. split; [exact Hcall|]. split; [exact Hres|].
  destruct (Hkeep 0%nat in0 eq_refl in0_unresolved) as [_ Hsig].
  rewrite Hsig. reflexivity.
Defined.

Lemma cleared_then_signed_example :
  exists tx' c' v' tx_i c_i v_i merged,
    SigningEngine.sign_loop (SigningEngine.keystore prepared_A) SIGHASH_ALL [variant_A] variant_A
      (SigningEngine.view prepared_A) = Ok (tx', c', v')
    /\ vin variant_A !! 1%nat = Some in1
    /\ SigningEngine.prevPubKey_of (SigningEngine.view prepared_A) in1 = Some [x51]
    /\ SigningEngine.sign_range (SigningEngine.keystore prepared_A) SIGHASH_ALL [variant_A] 0 1
         (variant_A, true, SigningEngine.view prepared_A) = Ok (tx_i, c_i, v_i)
    /\ SigningEngine.scriptSig_at (SigningEngine.set_scriptSig_at tx_i 1 []) 1 = Some []
    /\ vin tx' !! 1%nat = vin merged !! 1%nat.
Proof.
  destruct (SigningEngine.sign_loop (SigningEngine.keystore prepared_A) SIGHASH_ALL [variant_A] variant_A
              (SigningEngine.view prepared_A)) as [[[tx' c'] v']| |] eqn:Hrun;
    [| vm_compute in Hrun; discriminate Hrun ..].
  destruct (SigningEngine.resolved_input_is_cleared_then_signed
              (SigningEngine.keystore prepared_A) SIGHASH_ALL [variant_A] variant_A tx'
              (SigningEngine.view prepared_A) v' c' 1 in1 [x51]
              Hrun eq_refl in1_resolved)
    as (tx_i & c_i & v_i & merged & Hpre & Hclear & _ & _ & Hfinal & _).
  exists tx', c', v', tx_i, c_i, v_i, merged.
  split; [reflexivity|]. split; [reflexivity|]. split; [exact in1_resolved|].
  split; [exact Hpre|]. split; [exact Hclear | exact Hfinal].
Defined.

(** A node whose memory-pool view knows transaction 2. *)
Definition env_known : SignerEnv := {|
  viewMempool := fun txid => if txid =? 2 then Some coins_2 else None;
  pwalletMain := None;
  EnsureWalletIsUnlocked := Ok tt
|}.

Definition hex_AB : string := HexStr (Serialize variant_A ++ Serialize variant_B).

Definition prepared_token_AB : SigningEngine.Prepared :=
  {| SigningEngine.txVariants := [variant_A; variant_B];
     SigningEngine.view := {| base := viewDummy; cacheCoins := {[2 := coins_2]} |};
     SigningEngine.keystore := ([], []);
     SigningEngine.nHashType := SIGHASH_ALL |}.

Lemma prepare_token_AB :
  SigningEngine.prepare_token env_known hex_AB = Ok prepared_token_AB.
Proof. vm_compute. reflexivity. Defined.

Lemma short_AB : SigningEngine.short_variant prepared_AB.
Proof.
  exists 1%nat, in1, variant_B. split; [reflexivity|].
  split; [exists [x51]; vm_compute; reflexivity|].
  split; [right; left | cbn; lia].
Defined.

Lemma short_token_AB : SigningEngine.short_variant prepared_token_AB.
Proof.
  exists 1%nat, in1, variant_B. split; [reflexivity|].
  split; [exists [x51]; vm_compute; reflexivity|].
  split; [right; left | cbn; lia].
Defined.

Lemma short_variant_example :
  (SigningEngine.prepare env params_AB false = Ok prepared_AB
   /\ SigningEngine.short_variant prepared_AB
   /\ SigningEngine.signrawtransaction env params_AB false = Undef)
  /\ (SigningEngine.prepare_token env_known hex_AB = Ok prepared_token_AB
      /\ SigningEngine.short_variant prepared_token_AB
      /\ SigningEngine.signrawtokentransaction env_known hex_AB = Undef)
  /\ (SigningEngine.prepare env params_A false = Ok prepared_A
      /\ SigningEngine.covers prepared_A
      /\ is_Ok (SigningEngine.signrawtransaction env params_A false)).
Proof.
  split; [|split].
  - destruct (SigningEngine.variant_inputs_are_read_unchecked env prepared_AB)
      as [Hraw _].
    destruct (Hraw params_AB prepare_AB) as (_ & Hshort & _).
    split; [exact prepare_AB|]. split; [exact short_AB | exact (Hshort short_AB)].
  - destruct (SigningEngine.variant_inputs_are_read_unchecked env_known
                prepared_token_AB) as [_ Htoken].
    destruct (Htoken hex_AB prepare_token_AB) as (_ & Hshort & _).
    split; [exact prepare_token_AB|].
    split; [exact short_token_AB | exact (Hshort short_token_AB)].
  - destruct (SigningEngine.variant_inputs_are_read_unchecked env prepared_A)
      as [Hraw _].
    destruct (Hraw params_A prepare_A) as (Hcov & _ & _).
    split; [exact prepare_A|]. split; [exact covers_A | exact (Hcov covers_A)].
Defined.

(** With a hash that tells its inputs apart, the digest of the file
    61 00 62 is not the digest of the first 64 bytes of the file followed
    by the identifier. *)
Example token_digest_differs :
  let file := [x61; x00; x62] in
  Token.token_hash file Token.zero_txid
  <> Ok (CHashWriter_GetHash 1 1
           (take 64 (file ++ Text.bytes_of_string Token.zero_txid))).
Proof. vm_compute. discriminate. Qed.

(** A file without a zero byte: the string constructor runs off the
    buffer. *)
Example token_text_file : Token.token_hash [x61; x62; x63] Token.zero_txid = Undef.
Proof. reflexivity. Qed.

End Reference.

(** * Further properties of the embedded code *)

(** ** The token identifier encoding *)

Module HexFacts.

(** Reading two hexadecimal digits back into a byte. *)
Definition digit_of (c : ascii) : Z :=
  let k := Z.of_nat (nat_of_ascii c) in
  if k <? 58 then k - 48 else k - 87.

Fixpoint unhex (s : string) : bytes :=
  match s with
  | String a (String b s') =>
      default x00 (Byte.of_N (Z.to_N (16 * digit_of a + digit_of b))) :: unhex s'
  | _ => []
  end.

Definition is_hex_digit (c : ascii) : bool :=
  bool_decide (c ∈ Hex.hexmap).

Fixpoint all_chars (P : ascii -> bool) (s : string) : bool :=
  match s with
  | EmptyString => true
  | String c s' => P c && all_chars P s'
  end.

Lemma encoder_standard (char_signed : bool) (v : bytes) :
  Hex.GetHexStringFromBytes char_signed v = Hex.HexStr_standard v.
Proof. unfold Hex.GetHexStringFromBytes. now rewrite Hex.fold_spec. Qed.

Lemma unhex_standard (v : bytes) : unhex (Hex.HexStr_standard v) = v.
Proof.
  induction v as [|b v IH]; [reflexivity|].
  cbn [Hex.HexStr_standard unhex]. rewrite IH. f_equal.
  destruct b; reflexivity.
Qed.

Lemma standard_length (v : bytes) :
  String.length (Hex.HexStr_standard v) = (2 * length v)%nat.
Proof. induction v as [|b v IH]; cbn [Hex.HexStr_standard String.length length]; lia. Qed.

Lemma standard_alphabet (v : bytes) :
  all_chars is_hex_digit (Hex.HexStr_standard v) = true.
Proof.
  induction v as [|b v IH]; [reflexivity|].
  cbn [Hex.HexStr_standard all_chars]. rewrite IH.
  destruct b; reflexivity.
Qed.

Lemma standard_app (u v : bytes) :
  Hex.HexStr_standard (u ++ v) = Hex.HexStr_standard u +:+ Hex.HexStr_standard v.
Proof.
  induction u as [|b u IH]; [reflexivity|].
  cbn [app Hex.HexStr_standard]. rewrite IH. reflexivity.
Qed.

(** X1: The encoder of token identifiers loses nothing: the text has two
    characters of [0-9a-f] per byte, the bytes can be read back from it,
    and so two byte vectors with the same text are equal. *)
Theorem GetHexStringFromBytes_injective (char_signed : bool) (u v : bytes) :
  String.length (Hex.GetHexStringFromBytes char_signed v) = (2 * length v)%nat
  /\ all_chars is_hex_digit (Hex.GetHexStringFromBytes char_signed v) = true
  /\ unhex (Hex.GetHexStringFromBytes char_signed v) = v
  /\ (Hex.GetHexStringFromBytes char_signed u = Hex.GetHexStringFromBytes char_signed v
      -> u = v).
Proof.
  rewrite !encoder_standard.
  split; [apply standard_length|]. split; [apply standard_alphabet|].
  split; [apply unhex_standard|].
  intros Heq. rewrite <- (unhex_standard u), <- (unhex_standard v). now rewrite Heq.
Qed.

(** X2: Encoding a concatenation is concatenating the encodings. *)
Theorem GetHexStringFromBytes_app (char_signed : bool) (u v : bytes) :
  Hex.GetHexStringFromBytes char_signed (u ++ v)
  = Hex.GetHexStringFromBytes char_signed u +:+ Hex.GetHexStringFromBytes char_signed v.
Proof. rewrite !encoder_standard. apply standard_app. Qed.

End HexFacts.

(** ** Building: what a built transaction looks like *)

Module BuilderFacts.
Section BuilderFacts.
Context `{NodeCore} `{ScriptEngine}.

Lemma wrap_signed_range (w x : Z) :
  0 < w -> - 2 ^ (w - 1) <= wrap_signed w x < 2 ^ (w - 1).
Proof.
  intros Hw. unfold wrap_signed.
  assert (E : 2 ^ w = 2 * 2 ^ (w - 1)).
  { replace w with (Z.succ (w - 1)) at 1 by lia. apply Z.pow_succ_r. lia. }
  assert (Hp : 0 < 2 ^ (w - 1)) by (apply Z.pow_pos_nonneg; lia).
  pose proof (Z.mod_pos_bound (x + 2 ^ (w - 1)) (2 ^ w) ltac:(lia)). lia.
Qed.

Lemma wrap_signed_period (w x : Z) :
  0 <= w -> wrap_signed w (x + 2 ^ w) = wrap_signed w x.
Proof.
  intros Hw. unfold wrap_signed.
  replace (x + 2 ^ w + 2 ^ (w - 1)) with (x + 2 ^ (w - 1) + 1 * 2 ^ w) by ring.
  now rewrite Z.mod_add by (apply Z.pow_nonzero; lia).
Qed.

Lemma to_unsigned_to_int (x : Z) : 0 <= to_int x -> to_unsigned (to_int x) = to_int x.
Proof.
  intros Hx. unfold to_unsigned.
  pose proof (wrap_signed_range 32 x ltac:(lia)) as Hr. fold (to_int x) in Hr.
  change (2 ^ (32 - 1)) with 2147483648 in Hr.
  apply Z.mod_small. change (2 ^ 32) with 4294967296. lia.
Qed.

(** What an input of a built transaction can be. *)
Definition unsigned_input (txin : CTxIn) : Prop :=
  scriptSig txin = []
  /\ 0 <= n (prevout txin) < 2 ^ 31
  /\ 0 <= nSequence txin <= UINT32_MAX.

Lemma add_input_shape (rawTx rawTx' : CMutableTransaction) (input : Value) :
  Builder.add_input rawTx input = Ok rawTx' ->
  exists txin, rawTx' = push_vin rawTx txin /\ unsigned_input txin.
Proof.
  unfold Builder.add_input.
  destruct (Json.get_obj input) as [o| |]; run_bind; try discriminate.
  destruct (ParseHashO o "txid") as [txid| |]; run_bind; try discriminate.
  destruct (negb _); [discriminate|].
  destruct (Json.get_int (Json.find_value o "vout")) as [nOutput| |] eqn:Hv;
    run_bind; try discriminate.
  destruct (nOutput <? 0) eqn:Hneg; [discriminate|]. apply Z.ltb_ge in Hneg.
  assert (Hn : 0 <= to_unsigned nOutput < 2 ^ 31).
  { destruct (Json.find_value o "vout"); try discriminate Hv.
    injection Hv as <-. rewrite to_unsigned_to_int by assumption.
    pose proof (wrap_signed_range 32 i ltac:(lia)) as Hr. fold (to_int i) in Hr.
    change (2 ^ (32 - 1)) with (2 ^ 31) in Hr. lia. }
  destruct (bool_decide _).
  - destruct (Json.get_int (Json.find_value o "sequence")) as [nSequence| |] eqn:Hs;
      run_bind; try discriminate.
    destruct (nSequence <? 0) eqn:Hsneg; [discriminate|]. apply Z.ltb_ge in Hsneg.
    run_bind. intros [= <-]. eexists. split; [reflexivity|].
    split; [reflexivity|]. split; [assumption|]. cbn.
    destruct (Json.find_value o "sequence"); try discriminate Hs.
    injection Hs as <-. rewrite to_unsigned_to_int by assumption.
    pose proof (wrap_signed_range 32 i ltac:(lia)) as Hr. fold (to_int i) in Hr.
    change (2 ^ (32 - 1)) with 2147483648 in Hr. unfold UINT32_MAX.
    change (2 ^ 32) with 4294967296. lia.
  - run_bind. intros [= <-]. eexists. split; [reflexivity|].
    split; [reflexivity|]. split; [assumption|]. cbn. unfold UINT32_MAX.
    change (2 ^ 32) with 4294967296. lia.
Qed.

Lemma add_inputs_shape (inputs : Array) :
  forall rawTx rawTx',
  foreach Builder.add_input inputs rawTx = Ok rawTx' ->
  exists ins,
    vin rawTx' = (vin rawTx ++ ins)%list
    /\ length ins = length inputs
    /\ Forall unsigned_input ins
    /\ vout rawTx' = vout rawTx
    /\ nVersion rawTx' = nVersion rawTx /\ nLockTime rawTx' = nLockTime rawTx.
Proof.
  induction inputs as [|input inputs IH]; intros rawTx rawTx' Hrun; cbn [foreach] in Hrun.
  - injection Hrun as <-. exists []. rewrite app_nil_r. repeat split. constructor.
  - destruct (Builder.add_input rawTx input) as [rawTx1| |] eqn:Hstep;
      run_bind in Hrun; try discriminate.
    apply add_input_shape in Hstep as (txin & -> & Hun).
    apply IH in Hrun as (ins & Hvin & Hlen & Hall & Hout & Hver & Hlock).
    exists (txin :: ins). cbn in Hvin. rewrite <- app_assoc in Hvin.
    split; [assumption|]. split; [cbn; lia|]. split; [now constructor|].
    repeat split; assumption.
Qed.

(** The output a pair of the output object stands for. *)
Definition output_for (s : string * Value) (out : CTxOut) : Prop :=
  if decide (s.1 = "data") then
    exists hexdata data,
      s.2 = Value_str hexdata
      /\ ParseHexV (Value_str (nth 0 (Text.split_colon hexdata) "")) "Data" = Ok data
      /\ scriptPubKey out = push_data (push_opcode [] OP_RETURN) data
      /\ exists amount, nValue out = int64_mul (Z.max 0 amount) COIN
  else
    exists address,
      CBitcoinAddress s.1 = Some address
      /\ scriptPubKey out = SetDestination address
      /\ AmountFromValue s.2 = Ok (nValue out).

Lemma add_output_shape (rawTx rawTx' : CMutableTransaction) (S0 S1 : gset Address)
    (s : string * Value) :
  Builder.add_output (rawTx, S0) s = Ok (rawTx', S1) ->
  exists out, rawTx' = push_vout rawTx out /\ output_for s out.
Proof.
  destruct s as [k v]. unfold Builder.add_output, output_for. cbn [fst snd].
  destruct (decide (k = "data")) as [->|Hk].
  - destruct v; cbn [Json.get_str]; try discriminate. run_bind.
    destruct (ParseHexV _ _) as [data| |] eqn:Hd; run_bind; try discriminate.
    intros [= <- _]. eexists. split; [reflexivity|].
    exists s, data. cbn. repeat split; try assumption. eexists; reflexivity.
  - destruct (CBitcoinAddress k) as [a|]; [|discriminate].
    destruct (decide (a ∈ S0)); [discriminate|].
    destruct (AmountFromValue v) as [nAmount| |] eqn:Ha; run_bind; try discriminate.
    intros [= <- _]. eexists. split; [reflexivity|].
    exists a. cbn. repeat split; assumption.
Qed.

Lemma add_outputs_shape (sendTo : Object) :
  forall rawTx rawTx' S0 S1,
  foreach Builder.add_output sendTo (rawTx, S0) = Ok (rawTx', S1) ->
  exists outs,
    vout rawTx' = (vout rawTx ++ outs)%list
    /\ Forall2 output_for sendTo outs
    /\ vin rawTx' = vin rawTx
    /\ nVersion rawTx' = nVersion rawTx /\ nLockTime rawTx' = nLockTime rawTx.
Proof.
  induction sendTo as [|s sendTo IH]; intros rawTx rawTx' S0 S1 Hrun;
    cbn [foreach] in Hrun.
  - injection Hrun as <- _. exists []. rewrite app_nil_r. repeat split. constructor.
  - destruct (Builder.add_output (rawTx, S0) s) as [[rawTx1 Smid]| |] eqn:Hstep;
      run_bind in Hrun; try discriminate.
    apply add_output_shape in Hstep as (out & -> & Hfor).
    apply IH in Hrun as (outs & Hvout & Hall & Hvin & Hver & Hlock).
    exists (out :: outs). cbn in Hvout. rewrite <- app_assoc in Hvout.
    split; [assumption|]. split; [now constructor|]. repeat split; assumption.
Qed.

Lemma build_inv (params : Array) (tx : CMutableTransaction) :
  Builder.build params false = Ok tx ->
  exists inputs sendTo rawTx0 S1,
    params = [Value_array inputs; Value_obj sendTo]
    /\ foreach Builder.add_input inputs Builder.empty_tx = Ok rawTx0
    /\ foreach Builder.add_output sendTo (rawTx0, ∅) = Ok (tx, S1).
Proof.
  unfold Builder.build. cbn [orb].
  destruct params as [|p0 [|p1 [|p2 params]]]; cbn [length Nat.eqb negb];
    try discriminate.
  cbn [Json.RPCTypeCheck nth].
  destruct (Json.type_ok false array_type p0) eqn:H0'; [|discriminate].
  destruct (Json.type_ok false obj_type p1) eqn:H1'; [|discriminate].
  run_bind.
  destruct p0; cbn [Json.get_array]; try discriminate. run_bind.
  destruct p1; cbn [Json.get_obj]; try discriminate. run_bind.
  destruct (foreach Builder.add_input a Builder.empty_tx) as [rawTx0| |] eqn:Hin;
    run_bind; try discriminate.
  destruct (foreach Builder.add_output o (rawTx0, ∅)) as [[rawTx1 S1]| |] eqn:Hout;
    run_bind; try discriminate.
  intros [= <-]. exists a, o, rawTx0, S1. repeat split; assumption.
Qed.

(** X3: A built transaction has one input per input entry and one output per
    pair of the output object, in their order; no input carries an
    unlocking script, output indices and sequence numbers are in range,
    every output is the one its pair stands for, and version and lock
    time are the defaults. *)
Theorem built_transaction_is_unsigned (params : Array) (tx : CMutableTransaction) :
  Builder.build params false = Ok tx ->
  exists inputs sendTo,
    params = [Value_array inputs; Value_obj sendTo]
    /\ length (vin tx) = length inputs
    /\ Forall unsigned_input (vin tx)
    /\ Forall2 output_for sendTo (vout tx)
    /\ nVersion tx = CURRENT_VERSION /\ nLockTime tx = 0.
Proof.
  intros Hb. apply build_inv in Hb as (inputs & sendTo & rawTx0 & S1 & -> & Hin & Hout).
  apply add_inputs_shape in Hin as (ins & Hvin & Hlen & Hall & Hvout0 & Hver0 & Hlock0).
  apply add_outputs_shape in Hout as (outs & Hvout & Hfor & Hvin' & Hver & Hlock).
  cbn in Hvin, Hvout0. rewrite Hvout0 in Hvout. cbn in Hvout.
  exists inputs, sendTo. split; [reflexivity|].
  rewrite Hvin', Hvin, Hvout, Hver, Hver0, Hlock, Hlock0.
  repeat split; assumption.
Qed.

Lemma find_value_app_here (before after : Object) (key : string) (x : Value) :
  key ∉ before.*1 ->
  Json.find_value (before ++ (key, x) :: after) key = x.
Proof.
  induction before as [|[k y] before IH]; cbn; intros Hno.
  - now destruct (decide (key = key)).
  - destruct (decide (k = key)) as [->|Hne]; [exfalso; apply Hno; left|].
    apply IH. intros Hin. apply Hno. now right.
Qed.

Lemma find_value_app_other (before after : Object) (key key' : string) (x : Value) :
  key <> key' ->
  Json.find_value (before ++ (key, x) :: after) key'
  = Json.find_value (before ++ after) key'.
Proof.
  intros Hne. induction before as [|[k y] before IH]; cbn.
  - destruct (decide (key = key')); [contradiction | reflexivity].
  - destruct (decide (k = key')); [reflexivity | exact IH].
Qed.

(** X4: The output number of an input entry is read as a 32-bit [int]: an
    entry whose [vout] is larger by 2^32 builds the same input, so that
    4294967296 is taken for output 0 instead of being refused. *)
Theorem vout_is_read_modulo_2_32 (rawTx : CMutableTransaction)
    (before after : Object) (v : Z) :
  "vout" ∉ before.*1 ->
  Builder.add_input rawTx
    (Value_obj (before ++ ("vout", Value_int (v + 2 ^ 32)) :: after))
  = Builder.add_input rawTx (Value_obj (before ++ ("vout", Value_int v) :: after)).
Proof.
  intros Hb.
  unfold Builder.add_input, ParseHashO. cbn [Json.get_obj]. run_bind.
  rewrite !(find_value_app_here before after "vout") by assumption.
  rewrite !(find_value_app_other before after "vout" "txid") by discriminate.
  rewrite !(find_value_app_other before after "vout" "sequence") by discriminate.
  cbn [Json.type Json.get_int]. unfold to_int.
  now rewrite wrap_signed_period by lia.
Qed.

Lemma split_colon_length (s : string) : (1 <= length (Text.split_colon s))%nat.
Proof.
  induction s as [|c s IH]; cbn [Text.split_colon]; [cbn; lia|].
  destruct (Ascii.eqb c ":"); [cbn; lia|].
  destruct (Text.split_colon s); cbn in *; lia.
Qed.

(** X5: A [data] value with more than one colon: the amount is not read at
    all and the output carries 0, whatever follows the first colon. *)
Theorem data_amount_needs_exactly_one_colon
    (rawTx : CMutableTransaction) (setAddress : gset Address)
    (h a rest : string) (data : bytes) :
  Text.colon_free h = true -> Text.colon_free a = true ->
  ParseHexV (Value_str h) "Data" = Ok data ->
  Builder.add_output (rawTx, setAddress)
    ("data", Value_str (h +:+ String ":" (a +:+ String ":" rest)))
  = Ok (push_vout rawTx
          {| nValue := 0; scriptPubKey := push_data (push_opcode [] OP_RETURN) data |},
        setAddress).
Proof.
  intros Hh Ha Hd. unfold Builder.add_output.
  destruct (decide ("data" = "data")) as [_|]; [|congruence].
  cbn [Json.get_str]. run_bind.
  rewrite (Text.split_colon_cons h _ Hh), (Text.split_colon_cons a rest Ha).
  cbn [nth length]. rewrite Hd. run_bind.
  pose proof (split_colon_length rest) as Hlen.
  destruct (length (Text.split_colon rest)) as [|k]; [lia|]. reflexivity.
Qed.

(** X6: Addresses are compared, not their texts: a key that decodes to the
    address of an earlier key is refused as a duplicate even when the
    two texts differ. *)
Theorem same_address_under_two_keys_is_duplicate
    (inputs : Array) (pre post : Object) (k1 k2 : string) (v : Value)
    (address : Address) (rawTx0 : CMutableTransaction)
    (st : CMutableTransaction * gset Address) :
  k1 <> "data" -> k2 <> "data" -> k1 ∈ pre.*1 ->
  CBitcoinAddress k1 = Some address -> CBitcoinAddress k2 = Some address ->
  foreach Builder.add_input inputs Builder.empty_tx = Ok rawTx0 ->
  foreach Builder.add_output pre (rawTx0, ∅) = Ok st ->
  Builder.createrawtransaction
    [Value_array inputs; Value_obj (pre ++ (k2, v) :: post)] false
  = Throw (Builder.DuplicateAddress k2).
Proof.
  intros Hk1 Hk2 Hin1 Ha1 Ha2 Hin Hpre. destruct st as [rawTx1 S1].
  unfold Builder.createrawtransaction. rewrite Builder.build_unfold, Hin. run_bind.
  rewrite foreach_app, Hpre. run_bind. cbn [foreach].
  apply Builder.foreach_add_output_ok in Hpre as (_ & _ & Hall).
  destruct (Hall k1) as (a & Ha & _ & Hmem).
  { unfold Builder.address_keys. apply list_elem_of_filter. now split. }
  assert (a = address) as -> by congruence.
  now rewrite (Builder.add_output_duplicate rawTx1 S1 k2 v address Hk2 Ha2 Hmem).
Qed.

End BuilderFacts.
End BuilderFacts.

(** ** Signing: what the signer keeps and what it looks up *)

Module SignerFacts.
Section SignerFacts.
Context `{NodeCore} `{ScriptEngine} `{Signer}.
Variable env : SignerEnv.

(** Everything of a transaction but the unlocking scripts. *)
Definition body (tx : CMutableTransaction)
    : Z * list (COutPoint * Z) * list CTxOut * Z :=
  (nVersion tx, map (fun txin => (prevout txin, nSequence txin)) (vin tx),
   vout tx, nLockTime tx).

Lemma body_set_scriptSig_at (tx : CMutableTransaction) (i : nat) (s : CScript) :
  body (SigningEngine.set_scriptSig_at tx i s) = body tx.
Proof.
  unfold body, SigningEngine.set_scriptSig_at. cbn. f_equal. f_equal. f_equal.
  generalize (vin tx) as l. intros l. revert i.
  induction l as [|x l IH]; intros [|i]; cbn; try reflexivity.
  now rewrite IH.
Qed.

Lemma body_sign_fresh (ks : KeyStore) (ht : Z) (pk : CScript)
    (tx : CMutableTransaction) (i : nat) :
  body (SigningEngine.sign_fresh ks ht pk tx i) = body tx.
Proof.
  unfold SigningEngine.sign_fresh.
  destruct (negb _ || _); now rewrite ?body_set_scriptSig_at.
Qed.

Lemma body_merge (pk : CScript) (i : nat) (variants : list CMutableTransaction) :
  forall tx tx',
  foreach (SigningEngine.combine_with pk i) variants tx = Ok tx' -> body tx' = body tx.
Proof.
  induction variants as [|txv variants IH]; intros tx tx' Hrun; cbn [foreach] in Hrun.
  - now injection Hrun as <-.
  - destruct (SigningEngine.combine_with pk i tx txv) as [tx1| |] eqn:Hc;
      run_bind in Hrun; try discriminate.
    rewrite (IH _ _ Hrun). unfold SigningEngine.combine_with in Hc.
    destruct (SigningEngine.scriptSig_at tx i), (SigningEngine.scriptSig_at txv i);
      try discriminate.
    injection Hc as <-. apply body_set_scriptSig_at.
Qed.

Lemma body_sign_input (ks : KeyStore) (ht : Z) (variants : list CMutableTransaction)
    (tx tx' : CMutableTransaction) (c c' : bool) (v v' : CCoinsViewCache) (i : nat) :
  SigningEngine.sign_input ks ht variants (tx, c, v) i = Ok (tx', c', v') ->
  body tx' = body tx.
Proof.
  unfold SigningEngine.sign_input.
  destruct (vin tx !! i) as [txin|]; [|discriminate].
  destruct (SigningEngine.resolve v txin) as [[pk|] v1]; [|now intros [= <- _ _]].
  destruct (foreach _ variants _) as [merged| |] eqn:Hm; run_bind; try discriminate.
  apply body_merge in Hm. rewrite body_sign_fresh in Hm.
  destruct (SigningEngine.scriptSig_at merged i); [|discriminate].
  destruct (negb _); intros [= <- _ _]; assumption.
Qed.

Lemma body_sign_range (ks : KeyStore) (ht : Z) (variants : list CMutableTransaction)
    (k : nat) :
  forall a tx c v tx' c' v',
  SigningEngine.sign_range ks ht variants a k (tx, c, v) = Ok (tx', c', v') ->
  body tx' = body tx.
Proof.
  unfold SigningEngine.sign_range.
  induction k as [|k IH]; intros a tx c v tx' c' v' Hrun; cbn [seq foreach] in Hrun.
  - now injection Hrun as <- _ _.
  - destruct (SigningEngine.sign_input ks ht variants (tx, c, v) a)
      as [[[tx1 c1] v1]| |] eqn:Hs; run_bind in Hrun; try discriminate.
    rewrite (IH _ _ _ _ _ _ _ Hrun). eapply body_sign_input; eassumption.
Qed.

(** X7: Signing changes unlocking scripts and nothing else: the transaction
    either signer returns has the version, lock time, outputs, previous
    outputs and sequence numbers of the first decoded variant. *)
Theorem signing_keeps_the_transaction_body (p : SigningEngine.Prepared) :
  (forall params result,
     SigningEngine.prepare env params false = Ok p ->
     SigningEngine.signrawtransaction env params false = Ok result ->
     exists mergedTx fComplete,
       result = SigningEngine.signed_result mergedTx fComplete
       /\ body mergedTx = body (SigningEngine.first_variant p))
  /\ (forall txDataHex result,
       SigningEngine.prepare_token env txDataHex = Ok p ->
       SigningEngine.signrawtokentransaction env txDataHex = Ok result ->
       exists mergedTx,
         result = Value_str (HexStr (Serialize mergedTx))
         /\ body mergedTx = body (SigningEngine.first_variant p)).
Proof.
  split.
  - intros params result Hp.
    rewrite (SigningEngine.signrawtransaction_prepared env params p Hp).
    destruct (SigningEngine.run_signer p) as [[[m c] v]| |] eqn:Hrun;
      cbn [mbind outcome_bind bind fst snd]; try discriminate.
    intros [= <-]. exists m, c. split; [reflexivity|].
    eapply body_sign_range. exact Hrun.
  - intros hex result Hp.
    rewrite (SigningEngine.signrawtokentransaction_prepared env hex p Hp).
    destruct (SigningEngine.run_signer p) as [[[m c] v]| |] eqn:Hrun;
      cbn [mbind outcome_bind bind fst snd]; try discriminate.
    intros [= <-]. exists m. split; [reflexivity|].
    eapply body_sign_range. exact Hrun.
Qed.

(** *** Warming the view *)

Lemma GetCoins_base (view : CCoinsViewCache) (txid : uint256) :
  base (GetCoins view txid).2 = base view.
Proof.
  unfold GetCoins. destruct (cacheCoins view !! txid); [reflexivity|].
  destruct (base view txid); reflexivity.
Qed.

Lemma GetCoins_cache (view : CCoinsViewCache) (txid h : uint256) :
  cacheCoins (GetCoins view txid).2 !! h
  = match cacheCoins view !! h with
    | Some c => Some c
    | None => if decide (h = txid) then base view txid else None
    end.
Proof.
  unfold GetCoins. destruct (cacheCoins view !! txid) as [c|] eqn:Hc; cbn.
  - destruct (cacheCoins view !! h) eqn:Hh; [reflexivity|].
    destruct (decide (h = txid)) as [->|]; [congruence | reflexivity].
  - destruct (base view txid) as [c|] eqn:Hb; cbn.
    + destruct (decide (h = txid)) as [->|Hne].
      * now rewrite lookup_insert_eq, Hc.
      * rewrite lookup_insert_ne by congruence.
        now destruct (cacheCoins view !! h).
    + destruct (cacheCoins view !! h) eqn:Hh; [reflexivity|].
      destruct (decide (h = txid)); reflexivity.
Qed.

Lemma warm_cache (ins : list CTxIn) :
  forall (view : CCoinsViewCache) (h : uint256),
  let view' :=
    fold_left (fun view txin => (GetCoins view (hash (prevout txin))).2) ins view in
  base view' = base view
  /\ cacheCoins view' !! h
     = match cacheCoins view !! h with
       | Some c => Some c
       | None => if decide (h ∈ map (fun txin => hash (prevout txin)) ins)
                 then base view h else None
       end.
Proof.
  induction ins as [|txin ins IH]; intros view h; cbn [fold_left map].
  - split; [reflexivity|]. destruct (cacheCoins view !! h); [reflexivity|].
    destruct (decide (h ∈ [])) as [Hin|]; [now apply elem_of_nil in Hin | reflexivity].
  - destruct (IH (GetCoins view (hash (prevout txin))).2 h) as [Hb Hc].
    cbn zeta in Hb, Hc. rewrite Hb, Hc, GetCoins_base, GetCoins_cache.
    split; [reflexivity|].
    destruct (cacheCoins view !! h); [reflexivity|].
    destruct (decide (h = hash (prevout txin))) as [->|Hne].
    + destruct (base view (hash (prevout txin))) eqn:Hbase.
      * destruct (decide (_ ∈ _ :: _)) as [|Hno]; [reflexivity|].
        exfalso. apply Hno. left.
      * destruct (decide (_ ∈ map _ ins)), (decide (_ ∈ _ :: _));
          rewrite ?Hbase; reflexivity.
    + destruct (decide (h ∈ map _ ins)) as [Hin|Hno];
        destruct (decide (h ∈ _ :: _)) as [Hin'|Hno']; try reflexivity.
      * exfalso. apply Hno'. now right.
      * apply elem_of_cons in Hin' as [?|?]; contradiction.
Qed.

(** X8: After the pass under the memory-pool lock, the view answers from its
    overlay alone: it knows exactly the transactions named by the inputs
    of the merge target that the memory-pool view knew, and no other. *)
Theorem warmed_view_knows_the_inputs_only
    (mergedTx : CMutableTransaction) (h : uint256) :
  let view := SigningEngine.fetch_inputs env SigningEngine.empty_view mergedTx in
  base view = viewDummy
  /\ SigningEngine.view_lookup view h
     = if decide (h ∈ map (fun txin => hash (prevout txin)) (vin mergedTx))
       then viewMempool env h else None.
Proof.
  cbn zeta. unfold SigningEngine.fetch_inputs, SigningEngine.view_lookup.
  cbn [SetBackend base cacheCoins]. split; [reflexivity|].
  destruct (warm_cache (vin mergedTx)
              (SetBackend SigningEngine.empty_view (viewMempool env)) h) as [_ Hc].
  cbn zeta in Hc. rewrite Hc. cbn [SetBackend SigningEngine.empty_view cacheCoins base].
  rewrite lookup_empty.
  destruct (decide _); [|reflexivity]. now destruct (viewMempool env h).
Qed.

(** *** Previous outputs given by the caller *)

(** The entry [prevOut] names output [nOut] of [txid] with locking
    script [script]. *)
Definition names_output (prevOut : Object) (txid : uint256) (nOut : Z)
    (script : CScript) : Prop :=
  exists t i h,
    Json.find_value prevOut "txid" = Value_str t
    /\ Json.find_value prevOut "vout" = Value_int i
    /\ Json.find_value prevOut "scriptPubKey" = Value_str h
    /\ ParseHashV (Value_str t) "txid" = Ok txid
    /\ nOut = to_int i
    /\ 0 <= nOut
    /\ ParseHexV (Value_str h) "scriptPubKey" = Ok script.

(** The view after the entry was installed. *)
Definition injected (view : CCoinsViewCache) (txid : uint256) (nOut : Z)
    (script : CScript) : CCoinsViewCache :=
  let coins := default CCoins_empty (GetCoins view txid).1 in
  let vout1 :=
    if (length (coins_vout coins) <=? Z.to_nat nOut)%nat
    then SigningEngine.resize_vout (coins_vout coins) (Z.to_nat nOut + 1)
    else coins_vout coins in
  SetCoins (GetCoins view txid).2 txid
    {| coins_vout := <[Z.to_nat nOut := {| nValue := 0; scriptPubKey := script |}]> vout1;
       nHeight := nHeight coins |}.

(** The view knows an available output at that place with another
    locking script. *)
Definition conflicts (view : CCoinsViewCache) (txid : uint256) (nOut : Z)
    (script : CScript) : bool :=
  match SigningEngine.view_lookup view txid with
  | Some c =>
      IsAvailable c nOut
      && negb (bool_decide (scriptPubKey <$> coins_vout c !! Z.to_nat nOut = Some script))
  | None => false
  end.

(** What is left of the loop body once the entry has been read. *)
Lemma add_prevout_named (fGivenKeys : bool) (view : CCoinsViewCache)
    (ks : KeyStore) (prevOut : Object) (txid : uint256) (nOut : Z) (script : CScript) :
  names_output prevOut txid nOut script ->
  (conflicts view txid nOut script = true ->
   exists message,
     SigningEngine.add_prevout fGivenKeys (view, ks) (Value_obj prevOut)
     = Throw (JSONRPCError RPC_DESERIALIZATION_ERROR message))
  /\ (conflicts view txid nOut script = false ->
      SigningEngine.add_prevout fGivenKeys (view, ks) (Value_obj prevOut)
      = if (length (coins_vout (default CCoins_empty (GetCoins view txid).1))
            <=? Z.to_nat nOut)%nat
           && (nOut =? 2 ^ 31 - 1)
        then Undef
        else if fGivenKeys && IsPayToScriptHash script then
          _ ← Json.RPCTypeCheckObj prevOut
                [("redeemScript", str_type); ("scriptPubKey", str_type);
                 ("txid", str_type); ("vout", int_type)];
          match Json.find_value prevOut "redeemScript" with
          | Value_null => Ok (injected view txid nOut script, ks)
          | v => rsData ← ParseHexV v "redeemScript";
                 Ok (injected view txid nOut script, AddCScript ks rsData)
          end
        else Ok (injected view txid nOut script, ks)).
Proof.
  intros (t & i & h & Htx & Hv & Hpk & Hhash & -> & Hpos & Hhex).
  unfold SigningEngine.add_prevout, conflicts, injected, ParseHashO, ParseHexO.
  cbn [Json.type Json.get_obj Json.RPCTypeCheckObj].
  change (bool_decide (obj_type = obj_type)) with true. cbn [negb]. run_bind.
  rewrite Htx, Hv, Hpk. cbn [Json.type Json.get_int].
  change (bool_decide (str_type = null_type)) with false.
  change (bool_decide (int_type = null_type)) with false.
  change (bool_decide (str_type = str_type)) with true.
  change (bool_decide (int_type = int_type)) with true.
  run_bind. rewrite Hhash, Hhex. run_bind.
  rewrite (proj2 (Z.ltb_ge _ _) Hpos).
  rewrite <- (SigningEngine.GetCoins_fst view txid).
  destruct (GetCoins view txid) as [found view1]. cbn [fst snd].
  split.
  - intros Hconf. destruct found as [c|]; [|discriminate].
    cbn [default from_option]. rewrite Hconf. run_bind. eexists; reflexivity.
  - intros Hconf.
    assert (Hcheck :
              match found return Outcome unit with
              | Some c =>
                  if IsAvailable c (to_int i)
                     && negb (bool_decide
                                (scriptPubKey <$> coins_vout c !! Z.to_nat (to_int i)
                                 = Some script))
                  then
                    Throw (JSONRPCError RPC_DESERIALIZATION_ERROR
                             ("Previous output scriptPubKey mismatch:"
                              +:+ SigningEngine.newline
                              +:+ ToString
                                    (default []
                                       (scriptPubKey
                                          <$> coins_vout c !! Z.to_nat (to_int i)))
                              +:+ SigningEngine.newline +:+ "vs:"
                              +:+ SigningEngine.newline +:+ ToString script))
                  else Ok tt
              | None => Ok tt
              end = Ok tt).
    { destruct found as [c|]; [now rewrite Hconf | reflexivity]. }
    rewrite Hcheck. run_bind.
    destruct (length (coins_vout (default CCoins_empty found)) <=? _)%nat;
      cbn [andb]; [destruct (to_int i =? 2 ^ 31 - 1); [reflexivity|]|]; run_bind;
      (destruct (fGivenKeys && IsPayToScriptHash script); [|reflexivity]);
      destruct (Json.find_value prevOut "redeemScript"); reflexivity.
Qed.

Lemma add_prevout_inv (fGivenKeys : bool) (view view' : CCoinsViewCache)
    (ks ks' : KeyStore) (prevOut : Object) (txid : uint256) (nOut : Z)
    (script : CScript) :
  names_output prevOut txid nOut script ->
  SigningEngine.add_prevout fGivenKeys (view, ks) (Value_obj prevOut) = Ok (view', ks') ->
  view' = injected view txid nOut script.
Proof.
  intros Hname Hrun.
  destruct (add_prevout_named fGivenKeys view ks prevOut txid nOut script Hname)
    as [Hbad Hgood].
  destruct (conflicts view txid nOut script).
  - destruct (Hbad eq_refl) as [message Hthrow]. congruence.
  - rewrite (Hgood eq_refl) in Hrun.
    destruct (_ && (nOut =? 2 ^ 31 - 1)); [discriminate|].
    destruct (fGivenKeys && IsPayToScriptHash script); [|congruence].
    destruct (Json.RPCTypeCheckObj prevOut _) as [[]| |]; run_bind in Hrun;
      try discriminate.
    destruct (Json.find_value prevOut "redeemScript");
      try (destruct (ParseHexV _ "redeemScript"); run_bind in Hrun; try discriminate);
      congruence.
Qed.

Lemma resize_vout_length (v : list CTxOut) (len : nat) :
  length (SigningEngine.resize_vout v len) = len.
Proof.
  unfold SigningEngine.resize_vout.
  rewrite length_app, length_take, length_replicate. lia.
Qed.

Lemma resize_vout_lookup (v : list CTxOut) (len j : nat) (o : CTxOut) :
  (length v <= len)%nat -> v !! j = Some o ->
  SigningEngine.resize_vout v len !! j = Some o.
Proof.
  intros Hlen Hj. unfold SigningEngine.resize_vout.
  rewrite take_ge by assumption. now apply lookup_app_l_Some.
Qed.

Lemma injected_coins (view : CCoinsViewCache) (txid : uint256) (nOut : Z)
    (script : CScript) :
  exists coins,
    SigningEngine.view_lookup (injected view txid nOut script) txid = Some coins
    /\ coins_vout coins !! Z.to_nat nOut = Some {| nValue := 0; scriptPubKey := script |}
    /\ (forall c j o, SigningEngine.view_lookup view txid = Some c ->
          j <> Z.to_nat nOut -> coins_vout c !! j = Some o ->
          coins_vout coins !! j = Some o).
Proof.
  unfold injected, SigningEngine.view_lookup at 1. cbn [SetCoins cacheCoins].
  rewrite lookup_insert_eq. eexists. split; [reflexivity|]. cbn [coins_vout].
  rewrite <- (SigningEngine.GetCoins_fst view txid).
  destruct (GetCoins view txid) as [found view1]. cbn [fst snd].
  split.
  - apply list_lookup_insert_eq.
    destruct (length _ <=? _)%nat eqn:Hle.
    + rewrite resize_vout_length. lia.
    + apply Nat.leb_gt in Hle. lia.
  - intros c j o -> Hj Ho. cbn [default from_option id].
    rewrite list_lookup_insert_ne by congruence.
    destruct (length _ <=? _)%nat eqn:Hle; [|assumption].
    apply Nat.leb_le in Hle. apply resize_vout_lookup; [lia | assumption].
Qed.

Lemma injected_other (view : CCoinsViewCache) (txid t : uint256) (nOut : Z)
    (script : CScript) :
  t <> txid ->
  SigningEngine.view_lookup (injected view txid nOut script) t
  = SigningEngine.view_lookup view t.
Proof.
  intros Hne. unfold injected, SigningEngine.view_lookup at 1.
  cbn [SetCoins cacheCoins base]. rewrite lookup_insert_ne by congruence.
  exact (SigningEngine.GetCoins_snd view txid t).
Qed.

(** X9: An accepted entry of [prevtxs] makes its output resolve: an input
    that spends it finds the given locking script, the other outputs of
    that transaction the view already had stay, and every other
    transaction is looked up as before. *)
Theorem accepted_prevout_hint_resolves (fGivenKeys : bool)
    (view view' : CCoinsViewCache) (ks ks' : KeyStore) (prevOut : Object)
    (txid : uint256) (nOut : Z) (script : CScript) :
  names_output prevOut txid nOut script ->
  SigningEngine.add_prevout fGivenKeys (view, ks) (Value_obj prevOut) = Ok (view', ks') ->
  (forall txin, prevout txin = {| hash := txid; n := nOut |} ->
     SigningEngine.prevPubKey_of view' txin = Some script)
  /\ (forall txin, hash (prevout txin) <> txid ->
       SigningEngine.prevPubKey_of view' txin = SigningEngine.prevPubKey_of view txin)
  /\ (forall txin pk, hash (prevout txin) = txid ->
       Z.to_nat (n (prevout txin)) <> Z.to_nat nOut ->
       SigningEngine.prevPubKey_of view txin = Some pk ->
       SigningEngine.prevPubKey_of view' txin = Some pk).
Proof.
  intros Hname Hrun.
  rewrite (add_prevout_inv _ _ _ _ _ _ _ _ _ Hname Hrun).
  destruct (injected_coins view txid nOut script) as (coins & Hlook & Hat & Hkeep).
  split; [|split].
  - intros txin Hprev. unfold SigningEngine.prevPubKey_of. rewrite Hprev. cbn [hash n].
    rewrite Hlook. unfold IsAvailable. rewrite Hat. reflexivity.
  - intros txin Hne. unfold SigningEngine.prevPubKey_of.
    now rewrite injected_other.
  - intros txin pk <- Hidx. unfold SigningEngine.prevPubKey_of. rewrite Hlook.
    destruct (SigningEngine.view_lookup view (hash (prevout txin))) as [c|] eqn:Hc;
      [|discriminate].
    unfold IsAvailable.
    destruct (coins_vout c !! Z.to_nat (n (prevout txin))) as [o|] eqn:Ho;
      [|discriminate].
    rewrite (Hkeep c _ o eq_refl Hidx Ho). trivial.
Qed.

(** X10: An entry of [prevtxs] that gives an output the view knows as
    available a different locking script is refused with a
    deserialization error. *)
Theorem conflicting_prevout_hint_is_refused (fGivenKeys : bool)
    (view : CCoinsViewCache) (ks : KeyStore) (prevOut : Object)
    (txid : uint256) (nOut : Z) (script : CScript) (c : CCoins) (o : CTxOut) :
  names_output prevOut txid nOut script ->
  SigningEngine.view_lookup view txid = Some c ->
  coins_vout c !! Z.to_nat nOut = Some o -> IsNull o = false ->
  scriptPubKey o <> script ->
  exists message,
    SigningEngine.add_prevout fGivenKeys (view, ks) (Value_obj prevOut)
    = Throw (JSONRPCError RPC_DESERIALIZATION_ERROR message).
Proof.
  intros Hname Hc Ho Hnull Hdiff.
  apply (add_prevout_named fGivenKeys view ks prevOut txid nOut script Hname).
  unfold conflicts, IsAvailable. rewrite Hc, Ho, Hnull. cbn.
  apply negb_true_iff, bool_decide_eq_false_2. congruence.
Qed.

(** *** What a prepared request looks like *)

Lemma add_prevout_base (fGivenKeys : bool) (view view' : CCoinsViewCache)
    (ks ks' : KeyStore) (p : Value) :
  SigningEngine.add_prevout fGivenKeys (view, ks) p = Ok (view', ks') ->
  base view' = base view.
Proof.
  unfold SigningEngine.add_prevout.
  destruct (negb (bool_decide (Json.type p = obj_type))); [discriminate|].
  destruct (Json.get_obj p) as [prevOut| |]; run_bind; try discriminate.
  destruct (Json.RPCTypeCheckObj prevOut
              [("scriptPubKey", str_type); ("txid", str_type); ("vout", int_type)])
    as [[]| |]; run_bind; try discriminate.
  destruct (ParseHashO prevOut "txid") as [txid| |]; run_bind; try discriminate.
  destruct (Json.get_int (Json.find_value prevOut "vout")) as [nOut| |]; run_bind;
    try discriminate.
  destruct (nOut <? 0); [discriminate|].
  destruct (ParseHexO prevOut "scriptPubKey") as [script| |]; run_bind;
    try discriminate.
  pose proof (GetCoins_base view txid) as Hb.
  destruct (GetCoins view txid) as [found view1]. cbn [snd] in Hb.
  match goal with
  | |- (?check ≫= _) = _ -> _ => destruct check as [[]| |]
  end; run_bind; try discriminate.
  match goal with
  | |- (?resized ≫= _) = _ -> _ => destruct resized as [vout1| |]
  end; run_bind; try discriminate.
  destruct (fGivenKeys && IsPayToScriptHash script).
  - destruct (Json.RPCTypeCheckObj prevOut _) as [[]| |]; run_bind; try discriminate.
    destruct (Json.find_value prevOut "redeemScript");
      try (destruct (ParseHexV _ "redeemScript"); run_bind; try discriminate);
      intros [= <- _]; exact Hb.
  - intros [= <- _]; exact Hb.
Qed.

Lemma add_prevouts_base (params : Array) (fGivenKeys : bool)
    (view view' : CCoinsViewCache) (ks ks' : KeyStore) :
  SigningEngine.add_prevouts params fGivenKeys view ks = Ok (view', ks') ->
  base view' = base view.
Proof.
  unfold SigningEngine.add_prevouts. destruct (SigningEngine.given params 1).
  - destruct (Json.get_array _) as [prevTxs| |]; run_bind; try discriminate.
    revert view ks. induction prevTxs as [|p prevTxs IH]; intros view ks;
      cbn [foreach].
    + now intros [= <- _].
    + destruct (SigningEngine.add_prevout fGivenKeys (view, ks) p)
        as [[view1 ks1]| |] eqn:Hp; run_bind; try discriminate.
      intros Hrun. rewrite (IH _ _ Hrun). eapply add_prevout_base, Hp.
  - now intros [= <- _].
Qed.

Lemma sighash_param_values (params : Array) (v : Z) :
  SigningEngine.sighash_param params = Ok v -> v ∈ [1; 129; 2; 130; 3; 131].
Proof.
  unfold SigningEngine.sighash_param. destruct (SigningEngine.given params 3).
  - destruct (Json.get_str _) as [name| |]; run_bind; try discriminate.
    unfold SigningEngine.mapSigHashValues. cbn [SigningEngine.map_find].
    repeat (destruct (decide (_ = name));
            [intros [= <-]; vm_compute; set_solver|]).
    discriminate.
  - intros [= <-]. set_solver.
Qed.

(** X11: What the signing loop starts from: at least one decoded variant, a
    selector that is ALL, NONE or SINGLE with or without ANYONECANPAY, and
    a view with no backend behind it, so that the loop resolves previous
    outputs from the overlay filled beforehand and never from the coin
    database. *)
Theorem prepared_request_is_closed (params : Array) (fHelp : bool)
    (p : SigningEngine.Prepared) :
  SigningEngine.prepare env params fHelp = Ok p ->
  fHelp = false
  /\ (1 <= length params <= 4)%nat
  /\ SigningEngine.txVariants p <> []
  /\ SigningEngine.nHashType p ∈ [1; 129; 2; 130; 3; 131]
  /\ base (SigningEngine.view p) = viewDummy
  /\ forall txin,
       SigningEngine.prevPubKey_of (SigningEngine.view p) txin
       = match cacheCoins (SigningEngine.view p) !! hash (prevout txin) with
         | Some coins =>
             if IsAvailable coins (n (prevout txin))
             then scriptPubKey <$> coins_vout coins !! Z.to_nat (n (prevout txin))
             else None
         | None => None
         end.
Proof.
  unfold SigningEngine.prepare.
  destruct fHelp; [discriminate|]. cbn [orb].
  destruct (length params <? 1)%nat eqn:Hlo; [discriminate|].
  destruct (4 <? length params)%nat eqn:Hhi; [discriminate|]. cbn [orb].
  apply Nat.ltb_ge in Hlo, Hhi.
  destruct (Json.RPCTypeCheck params _ true) as [[]| |]; run_bind; try discriminate.
  destruct (ParseHexV _ "argument 1") as [txData| |]; run_bind; try discriminate.
  destruct (SigningEngine.decode_variants _ txData []) as [[|mergedTx variants]| |];
    run_bind; try discriminate.
  destruct (SigningEngine.load_keys env params) as [[fGivenKeys ks]| |]; run_bind;
    try discriminate.
  destruct (SigningEngine.add_prevouts params fGivenKeys _ ks)
    as [[view1 ks1]| |] eqn:Hprev; run_bind; try discriminate.
  apply add_prevouts_base in Hprev.
  destruct (SigningEngine.sighash_param params) as [ht| |] eqn:Hht; run_bind;
    try discriminate.
  apply sighash_param_values in Hht.
  intros [= <-]. cbn [SigningEngine.txVariants SigningEngine.nHashType SigningEngine.view].
  assert (Hbase : base view1 = viewDummy) by (rewrite Hprev; reflexivity).
  repeat split; [lia | lia | discriminate | assumption | assumption |].
  intros txin. unfold SigningEngine.prevPubKey_of, SigningEngine.view_lookup.
  rewrite Hbase. destruct (cacheCoins view1 !! hash (prevout txin)); reflexivity.
Qed.

(** *** Keys given with the request *)



(** *** The signer of [inittoken] *)

(** X26: [signrawtokentransaction] is [signrawtransaction] called with
    the transaction alone: both set up the same variants, view, keys and
    selector, fail in the same way, and the text the token signer returns
    is the [hex] pair of the plain signer's answer, whose [complete] pair
    it drops. *)
Theorem token_signer_is_the_plain_signer_on_one_parameter (txDataHex : string) :
  SigningEngine.prepare env [Value_str txDataHex] false
  = SigningEngine.prepare_token env txDataHex
  /\ SigningEngine.signrawtokentransaction env txDataHex
     = (result ← SigningEngine.signrawtransaction env [Value_str txDataHex] false;
        o ← Json.get_obj result;
        Ok (Json.find_value o "hex")).
Proof.
  assert (Hprep : SigningEngine.prepare env [Value_str txDataHex] false
                  = SigningEngine.prepare_token env txDataHex).
  { unfold SigningEngine.prepare, SigningEngine.prepare_token.
    cbn [length Nat.ltb Nat.leb orb nth Json.RPCTypeCheck].
    change (Json.type_ok true str_type (Value_str txDataHex)) with true. run_bind.
    destruct (ParseHexV (Value_str txDataHex) "argument 1") as [txData| |]; run_bind;
      try reflexivity.
    destruct (SigningEngine.decode_variants _ txData []) as [[|mergedTx variants]| |];
      run_bind; try reflexivity.
    unfold SigningEngine.load_keys, SigningEngine.add_prevouts,
      SigningEngine.sighash_param.
    change (SigningEngine.given [Value_str txDataHex] 1) with false.
    change (SigningEngine.given [Value_str txDataHex] 2) with false.
    change (SigningEngine.given [Value_str txDataHex] 3) with false.
    destruct (EnsureWalletIsUnlocked env) as [[]| |]; run_bind; reflexivity. }
  split; [exact Hprep|].
  unfold SigningEngine.signrawtokentransaction, SigningEngine.signrawtransaction.
  rewrite Hprep.
  destruct (SigningEngine.prepare_token env txDataHex) as [p| |]; run_bind;
    try reflexivity.
  destruct (SigningEngine.sign_loop _ _ _ _ _) as [[[mergedTx fComplete] view]| |];
    run_bind; reflexivity.
Qed.

End SignerFacts.
End SignerFacts.

(** ** Submission: what reaches the memory pool *)

Module GatewayFacts.
Section GatewayFacts.
Context `{NodeCore} `{Chain}.

(** [node'] has the memory pool and the wallet notifications of [node],
    and its coin database answers every lookup as that of [node] does. *)
Definition undisturbed (node node' : Node) : Prop :=
  mempool node' = mempool node
  /\ synced node' = synced node
  /\ forall h, SigningEngine.view_lookup (pcoinsTip node') h
               = SigningEngine.view_lookup (pcoinsTip node) h.

Lemma undisturbed_refl (node : Node) : undisturbed node node.
Proof. repeat split. Qed.

(** The node as the lookup of [hashTx] leaves it. *)
Definition looked_up (node : Node) (hashTx : Z) : Node :=
  Gateway.set_pcoinsTip node (GetCoins (pcoinsTip node) hashTx).2.

Lemma looked_up_undisturbed (node : Node) (hashTx : Z) :
  undisturbed node (looked_up node hashTx)
  /\ relayed (looked_up node hashTx) = relayed node.
Proof.
  repeat split. intros h. cbn. apply SigningEngine.GetCoins_snd.
Qed.

Lemma submit_cases (node : Node) (tx : CMutableTransaction) (fOverrideFees : bool) :
  let hashTx := GetHash tx in
  let node0 := looked_up node hashTx in
  Gateway.submit node tx fOverrideFees
  = if negb (bool_decide (hashTx ∈ mempool node)) && negb (Gateway.have_chain node hashTx)
    then
      let '(accepted, node1, state) :=
        AcceptToMemoryPool node0 tx false (negb fOverrideFees) in
      if (accepted : bool) then
        (Ok (Value_str (GetHex hashTx)),
         Gateway.RelayTransaction (Gateway.SyncWithWallets node1 hashTx tx) tx hashTx)
      else if IsInvalid state then
        (Throw (JSONRPCError RPC_TRANSACTION_REJECTED
                  (Text.decimal (GetRejectCode state) +:+ ": " +:+ GetRejectReason state)),
         node1)
      else (Throw (JSONRPCError RPC_TRANSACTION_ERROR (GetRejectReason state)), node1)
    else if Gateway.have_chain node hashTx then (Throw Gateway.already_in_chain, node0)
    else (Ok (Value_str (GetHex hashTx)), Gateway.RelayTransaction node0 tx hashTx).
Proof.
  cbn zeta. unfold Gateway.submit, Gateway.have_chain, looked_up.
  rewrite <- (SigningEngine.GetCoins_fst (pcoinsTip node) (GetHash tx)).
  destruct (GetCoins (pcoinsTip node) (GetHash tx)) as [found view']. reflexivity.
Qed.

(** X13: A transaction that is neither confirmed nor in the memory pool is
    offered to the memory pool, on a node that differs from the given one
    only by the lookup just made, never rate-limited as a free
    transaction, and with the fee sanity check on unless the caller set
    [allowhighfees].  If it is accepted the wallets are notified, the
    transaction is relayed and its identifier is returned; if not, nothing
    is notified or relayed and the error is the rejection
    ([code: reason]) when the validation state is invalid and a plain
    transaction error otherwise. *)
Theorem fresh_transaction_is_offered_once
    (node : Node) (params : Array) (tx : CMutableTransaction) (fOverrideFees : bool) :
  Gateway.request_decodes params tx fOverrideFees ->
  Gateway.have_chain node (GetHash tx) = false ->
  GetHash tx ∉ mempool node ->
  let hashTx := GetHash tx in
  let out := Gateway.sendrawtransaction node params false in
  exists node0,
    undisturbed node node0 /\ relayed node0 = relayed node
    /\ let offer := AcceptToMemoryPool node0 tx false (negb fOverrideFees) in
       let node1 := offer.1.2 in
       let state := offer.2 in
       (offer.1.1 = true ->
          out.1 = Ok (Value_str (GetHex hashTx))
          /\ mempool out.2 = mempool node1
          /\ pcoinsTip out.2 = pcoinsTip node1
          /\ synced out.2 = (synced node1 ++ [(hashTx, tx)])%list
          /\ relayed out.2 = (relayed node1 ++ [(tx, hashTx)])%list)
       /\ (offer.1.1 = false ->
          out.2 = node1
          /\ out.1 = Throw (if IsInvalid state
                            then JSONRPCError RPC_TRANSACTION_REJECTED
                                   (Text.decimal (GetRejectCode state) +:+ ": "
                                    +:+ GetRejectReason state)
                            else JSONRPCError RPC_TRANSACTION_ERROR
                                   (GetRejectReason state))).
Proof.
  intros Hreq Hchain Hpool. cbn zeta.
  rewrite (Gateway.sendrawtransaction_decoded node params tx fOverrideFees Hreq).
  pose proof (submit_cases node tx fOverrideFees) as Hs. cbn zeta in Hs.
  rewrite Hs, Hchain, (bool_decide_eq_false_2 _ Hpool). cbn [negb andb].
  exists (looked_up node (GetHash tx)).
  destruct (looked_up_undisturbed node (GetHash tx)) as [Hu Hr].
  split; [exact Hu|]. split; [exact Hr|].
  destruct (AcceptToMemoryPool _ tx false (negb fOverrideFees))
    as [[accepted node1] state]. cbn [fst snd].
  split; intros ->.
  - repeat split.
  - destruct (IsInvalid state); split; reflexivity.
Qed.

(** X14: Whatever the request, the memory pool, the wallet notifications and
    the answers of the coin database stay as they were unless the request
    carries a well-formed transaction that is neither confirmed nor in the
    memory pool; and the relay queue then grows only by a transaction the
    memory pool already holds. *)
Theorem only_a_fresh_transaction_reaches_the_pool
    (node : Node) (params : Array) (fHelp : bool) :
  let out := Gateway.sendrawtransaction node params fHelp in
  (exists tx fOverrideFees,
     fHelp = false
     /\ Gateway.request_decodes params tx fOverrideFees
     /\ Gateway.have_chain node (GetHash tx) = false
     /\ GetHash tx ∉ mempool node)
  \/ (undisturbed node out.2
      /\ (relayed out.2 = relayed node
          \/ exists tx,
               out.1 = Ok (Value_str (GetHex (GetHash tx)))
               /\ GetHash tx ∈ mempool node
               /\ relayed out.2 = (relayed node ++ [(tx, GetHash tx)])%list)).
Proof.
  cbn zeta.
  assert (Hkeep : forall r : Outcome Value,
            undisturbed node (r, node).2
            /\ (relayed (r, node).2 = relayed node
                \/ exists tx,
                     (r, node).1 = Ok (Value_str (GetHex (GetHash tx)))
                     /\ GetHash tx ∈ mempool node
                     /\ relayed (r, node).2 = (relayed node ++ [(tx, GetHash tx)])%list)).
  { intros r. split; [apply undisturbed_refl | now left]. }
  unfold Gateway.sendrawtransaction.
  destruct fHelp; [right; apply Hkeep|]. cbn [orb].
  destruct (length params <? 1)%nat eqn:Hlo; [right; apply Hkeep|].
  destruct (2 <? length params)%nat eqn:Hhi; [right; apply Hkeep|]. cbn [orb].
  apply Nat.ltb_ge in Hlo, Hhi.
  destruct (ParseHexV (nth 0 params Value_null) "parameter") as [txData| |] eqn:Hhex;
    try (right; apply Hkeep).
  destruct (if (1 <? length params)%nat then _ else _) as [fOverrideFees| |] eqn:Hflag;
    try (right; apply Hkeep).
  destruct (Unserialize txData) as [[tx rest]|] eqn:Hdec; [|right; apply Hkeep].
  assert (Hreq : Gateway.request_decodes params tx fOverrideFees).
  { split; [lia|]. split; [exact Hflag|]. now exists txData, rest. }
  pose proof (submit_cases node tx fOverrideFees) as Hs. cbn zeta in Hs. rewrite Hs.
  destruct (looked_up_undisturbed node (GetHash tx)) as [Hu Hr].
  destruct (Gateway.have_chain node (GetHash tx)) eqn:Hchain.
  - rewrite andb_false_r. right. split; [exact Hu | left; exact Hr].
  - destruct (decide (GetHash tx ∈ mempool node)) as [Hin|Hout].
    + rewrite (bool_decide_eq_true_2 _ Hin). cbn [negb andb]. right.
      split; [exact Hu|]. right. exists tx. cbn [fst snd].
      split; [reflexivity|]. split; [exact Hin|].
      cbn. now rewrite <- Hr.
    + left. exists tx, fOverrideFees.
      split; [reflexivity|]. split; [exact Hreq|]. split; [exact Hchain | exact Hout].
Qed.

End GatewayFacts.
End GatewayFacts.

(** ** The token digest and the commitment *)

Module TokenFacts.
Section TokenFacts.
Context `{NodeCore} `{ScriptEngine} `{TokenCrypto}.
Variable char_signed : bool.

Lemma c_string_stops (s rest : bytes) :
  x00 ∉ s -> Token.c_string (s ++ x00 :: rest) = Ok s.
Proof.
  induction s as [|b s IH]; intros Hno; cbn [app Token.c_string].
  - destruct (decide (x00 = x00)); [reflexivity | congruence].
  - destruct (decide (b = x00)) as [->|Hb]; [exfalso; apply Hno; left|].
    rewrite IH; [reflexivity|]. intros Hin. apply Hno. now right.
Qed.

Lemma bytes_of_string_length (s : string) :
  length (Text.bytes_of_string s) = String.length s.
Proof. induction s as [|c s IH]; [reflexivity|]. cbn. now rewrite IH. Qed.

Lemma read_from_64 (s : bytes) :
  Token.read_from s 64
  = if (63 <=? length s)%nat then Ok (take 64 (s ++ [x00])) else Undef.
Proof.
  unfold Token.read_from.
  destruct (64 <=? length s)%nat eqn:H64.
  - apply Nat.leb_le in H64.
    replace (63 <=? length s)%nat with true by (symmetry; apply Nat.leb_le; lia).
    now rewrite take_app_le by lia.
  - apply Nat.leb_gt in H64.
    destruct (64 =? S (length s))%nat eqn:H63.
    + apply Nat.eqb_eq in H63.
      replace (63 <=? length s)%nat with true by (symmetry; apply Nat.leb_le; lia).
      rewrite take_ge; [reflexivity|]. rewrite length_app. cbn. lia.
    + apply Nat.eqb_neq in H63.
      replace (63 <=? length s)%nat with false by (symmetry; apply Nat.leb_gt; lia).
      reflexivity.
Qed.

(** X15: The digest of a token sees the file only up to its first zero byte:
    with [s] the bytes before it, the 64 bytes hashed are the first 64 of
    [s], the anchor identifier and one terminating zero, provided [s] and
    the identifier have 63 characters or more between them; otherwise the
    read leaves the string.  Whatever follows the zero byte in the file
    has no influence, so files that agree up to there get the same
    digest. *)
Theorem token_hash_sees_the_file_up_to_its_first_zero
    (s rest : bytes) (previousTxId : string) :
  x00 ∉ s ->
  Token.token_hash (s ++ x00 :: rest) previousTxId
  = if (63 <=? length s + String.length previousTxId)%nat
    then Ok (CHashWriter_GetHash 1 1
               (take 64 (s ++ Text.bytes_of_string previousTxId ++ [x00])))
    else Undef.
Proof.
  intros Hno. unfold Token.token_hash. rewrite (c_string_stops s rest Hno).
  run_bind. rewrite read_from_64, length_app, bytes_of_string_length.
  destruct (63 <=? _)%nat; [|reflexivity]. run_bind. now rewrite <- app_assoc.
Qed.

(** X16: From the token to the transaction that carries it: the identifier
    [CreateToken] returns is the hexadecimal text of the signature over
    the digest, and when that text parses back to the signature the
    transaction [inittoken] builds spends the funding output, pays
    [1000 * COIN] to the destination and commits to the signature bytes in
    a second output of value zero behind [OP_RETURN]. *)
Theorem token_transaction_commits_to_the_signature
    (key : CKey) (file : bytes) (previousTxId : string) (hash : uint256)
    (inputtxid : uint256) (inputTransaction : CMutableTransaction)
    (smlyaddress : string) (address : Address) :
  Token.token_hash file previousTxId = Ok hash ->
  CBitcoinAddress smlyaddress = Some address ->
  ParseHexV (Value_str (HexStr (Sign key hash))) "Token ID" = Ok (Sign key hash) ->
  (token ← Token.CreateToken char_signed key file previousTxId;
   Token.token_transaction inputtxid inputTransaction token smlyaddress)
  = Ok {| nVersion := CURRENT_VERSION;
          vin := [CTxIn_of {| hash := inputtxid;
                              n := to_unsigned (Token.funding_index inputTransaction) |}];
          vout := [ {| nValue := int64_mul 1000 COIN;
                       scriptPubKey := SetDestination address |};
                    {| nValue := 0;
                       scriptPubKey :=
                         push_data (push_opcode [] OP_RETURN) (Sign key hash) |} ];
          nLockTime := 0 |}.
Proof.
  intros Hhash Haddr Hhex. unfold Token.CreateToken. rewrite Hhash. run_bind.
  unfold Token.token_transaction. rewrite Haddr. cbn [Json.get_obj]. run_bind.
  unfold ParseHexO. cbn [Json.find_value].
  destruct (decide ("Token ID" = "Token ID")); [|congruence].
  unfold Hex.GetHexStringFromBytes. rewrite Hex.fold_spec.
  change ("" +:+ Hex.HexStr_standard (Sign key hash)) with (HexStr (Sign key hash)).
  rewrite Hhex. reflexivity.
Qed.

End TokenFacts.
End TokenFacts.

(** ** Decoding: TxToJSON, getrawtransaction, decoderawtransaction and
    decodescript *)

(** An entry of the block index (main.h). *)
Record CBlockIndex := { block_nHeight : Z; nTime : Z }.

(** script.h, base58.h, rpcserver.h and core.h: the functions the JSON
    views of scripts and transactions are built from. *)
Class Explorer `{ScriptEngine} := {
  txnouttype : Type;
  GetTxnOutputType : txnouttype -> string;
  (** [ExtractDestinations(script, type, addresses, nRequired)]: the
      result and the three values it leaves in its out-parameters. *)
  ExtractDestinations : CScript -> bool * txnouttype * list Address * Z;
  (** [ExtractDestination(script, address)]: the destination when the
      call returns true. *)
  ExtractDestination : CScript -> option Address;
  (** [CBitcoinAddress(destination).ToString()] *)
  Address_ToString : Address -> string;
  (** [script.GetID()], as a destination. *)
  GetID : CScript -> Address;
  ValueFromAmount : Z -> Value;
  IsCoinBase : CMutableTransaction -> bool;
}.

(** main.h: what the handlers read of the block tree and of the
    transaction stores.  [GetTransaction] gives the transaction and the
    hash of its block, which is 0 when it is not in a block. *)
Record ChainState := {
  mapBlockIndex : uint256 -> option CBlockIndex;
  chainActive_Contains : CBlockIndex -> bool;
  chainActive_Height : Z;
  GetTransaction : uint256 -> bool -> option (CMutableTransaction * uint256)
}.

Module Decoder.
Section Decoder.
Context `{NodeCore} `{Explorer}.
Variable chain : ChainState.

(** [out] is passed by reference and grows at its end. *)
Definition ScriptPubKeyToJSON (script : CScript) (out : Object) (fIncludeHex : bool)
    : Object :=
  let out := (out ++ [("asm", Value_str (ToString script))])%list in
  let out :=
    if fIncludeHex then (out ++ [("hex", Value_str (HexStr script))])%list else out in
  let '(extracted, type, addresses, nRequired) := ExtractDestinations script in
  if negb extracted then
    (out ++ [("type", Value_str (GetTxnOutputType type))])%list
  else
    let out := (out ++ [("reqSigs", Value_int nRequired)])%list in
    let out := (out ++ [("type", Value_str (GetTxnOutputType type))])%list in
    let a := map (fun addr => Value_str (Address_ToString addr)) addresses in
    (out ++ [("addresses", Value_array a)])%list.

(** Body of the loop over [tx.vin]. *)
Definition vin_entry (tx : CTransaction) (txin : CTxIn) : Value :=
  let in_ :=
    if IsCoinBase tx then [("coinbase", Value_str (HexStr (scriptSig txin)))]
    else
      [("txid", Value_str (GetHex (hash (prevout txin))));
       ("vout", Value_int (n (prevout txin)));
       ("scriptSig", Value_obj [("asm", Value_str (ToString (scriptSig txin)));
                                ("hex", Value_str (HexStr (scriptSig txin)))])] in
  Value_obj (in_ ++ [("sequence", Value_int (nSequence txin))]).

(** Body of the loop over the indices of [tx.vout]. *)
Definition vout_entry (i : nat) (txout : CTxOut) : Value :=
  Value_obj [("value", ValueFromAmount (nValue txout));
             ("n", Value_int (Z.of_nat i));
             ("scriptPubKey",
              Value_obj (ScriptPubKeyToJSON (scriptPubKey txout) [] true))].

(** The pairs added when [hashBlock] is not 0. *)
Definition block_entries (hashBlock : uint256) : Object :=
  if hashBlock =? 0 then []
  else
    ("blockhash", Value_str (GetHex hashBlock)) ::
    match mapBlockIndex chain hashBlock with
    | Some pindex =>
        if chainActive_Contains chain pindex then
          [("confirmations",
            Value_int (to_int (to_int (1 + chainActive_Height chain)
                               - block_nHeight pindex)));
           ("time", Value_int (nTime pindex));
           ("blocktime", Value_int (nTime pindex))]
        else [("confirmations", Value_int 0)]
    | None => []
    end.

Definition TxToJSON (tx : CTransaction) (hashBlock : uint256) (entry : Object)
    : Object :=
  (entry
   ++ [("txid", Value_str (GetHex (GetHash tx)));
       ("version", Value_int (nVersion tx));
       ("locktime", Value_int (nLockTime tx));
       ("vin", Value_array (map (vin_entry tx) (vin tx)));
       ("vout", Value_array (imap vout_entry (vout tx)))]
   ++ block_entries hashBlock)%list.

Definition getrawtransaction_help : Exception :=
  runtime_error "getrawtransaction: usage".

Definition no_information : Exception :=
  JSONRPCError RPC_INVALID_ADDRESS_OR_KEY "No information available about transaction".

Definition getrawtransaction (params : Array) (fHelp : bool) : Outcome Value :=
  if fHelp || (length params <? 1)%nat || (2 <? length params)%nat
  then Throw getrawtransaction_help
  else
    hash ← ParseHashV (nth 0 params Value_null) "parameter 1";
    fVerbose ← (if (1 <? length params)%nat
                then i ← Json.get_int (nth 1 params Value_null); Ok (negb (i =? 0))
                else Ok false);
    match GetTransaction chain hash true with
    | None => Throw no_information
    | Some (tx, hashBlock) =>
        let strHex := HexStr (Serialize tx) in
        if negb fVerbose then Ok (Value_str strHex)
        else Ok (Value_obj (TxToJSON tx hashBlock [("hex", Value_str strHex)]))
    end.

Definition decoderawtransaction_help : Exception :=
  runtime_error "decoderawtransaction: usage".

Definition decoderawtransaction (params : Array) (fHelp : bool) : Outcome Value :=
  if fHelp || negb (length params =? 1)%nat then Throw decoderawtransaction_help
  else
    txData ← ParseHexV (nth 0 params Value_null) "argument";
    match Unserialize txData with
    | Some (tx, _) => Ok (Value_obj (TxToJSON tx 0 []))
    | None => Throw (JSONRPCError RPC_DESERIALIZATION_ERROR "TX decode failed")
    end.

Definition decodescript_help : Exception := runtime_error "decodescript: usage".

Definition decodescript (params : Array) (fHelp : bool) : Outcome Value :=
  if fHelp || negb (length params =? 1)%nat then Throw decodescript_help
  else
    _ ← Json.RPCTypeCheck params [str_type] false;
    text ← Json.get_str (nth 0 params Value_null);
    script ← (if (0 <? String.length text)%nat
              then ParseHexV (nth 0 params Value_null) "argument"
              else Ok []);
    let r := ScriptPubKeyToJSON script [] false in
    Ok (Value_obj (r ++ [("p2sh", Value_str (Address_ToString (GetID script)))])).

(** *** Names of the pairs *)

Lemma find_value_app (o1 o2 : Object) (key : string) :
  Json.find_value (o1 ++ o2) key
  = if bool_decide (key ∈ o1.*1) then Json.find_value o1 key
    else Json.find_value o2 key.
Proof.
  induction o1 as [|[k v] o1 IH]; cbn [app Json.find_value fmap list_fmap fst].
  - rewrite bool_decide_eq_false_2; [reflexivity | apply not_elem_of_nil].
  - destruct (decide (k = key)) as [->|Hne].
    + rewrite bool_decide_eq_true_2; [reflexivity | left].
    + rewrite IH. destruct (decide (key ∈ o1.*1)) as [Hin|Hout].
      * rewrite !bool_decide_eq_true_2; [reflexivity | now right | assumption].
      * rewrite !bool_decide_eq_false_2; [reflexivity | | assumption].
        intros Hin. apply elem_of_cons in Hin as [?|?]; [congruence | contradiction].
Qed.

Lemma ScriptPubKeyToJSON_names (script : CScript) (fIncludeHex : bool) :
  (ScriptPubKeyToJSON script [] fIncludeHex).*1
  = ("asm" :: (if fIncludeHex then ["hex"] else [])
     ++ (if (ExtractDestinations script).1.1.1
         then ["reqSigs"; "type"; "addresses"] else ["type"]))%list.
Proof.
  unfold ScriptPubKeyToJSON.
  destruct (ExtractDestinations script) as [[[extracted type] addresses] nRequired].
  cbn [fst]. destruct fIncludeHex, extracted; reflexivity.
Qed.

(** *** decoderawtransaction *)

(** X17: Whatever a successful [decoderawtransaction] was given, its answer
    has exactly the five pairs txid, version, locktime, vin and vout, in
    this order: no block hash, confirmations or time is ever reported,
    and bytes that follow the first transaction in the data are ignored
    without an error. *)
Theorem decoded_transaction_has_no_block_fields
    (params : Array) (fHelp : bool) (result : Value) :
  decoderawtransaction params fHelp = Ok result ->
  exists p0 txData tx rest decoded,
    fHelp = false /\ params = [p0]
    /\ ParseHexV p0 "argument" = Ok txData
    /\ Unserialize txData = Some (tx, rest)
    /\ result = Value_obj decoded
    /\ decoded.*1 = ["txid"; "version"; "locktime"; "vin"; "vout"]
    /\ Json.find_value decoded "txid" = Value_str (GetHex (GetHash tx))
    /\ Json.find_value decoded "blockhash" = Value_null
    /\ Json.find_value decoded "confirmations" = Value_null.
Proof.
  unfold decoderawtransaction. destruct fHelp; [discriminate|]. cbn [orb].
  destruct params as [|p0 [|p1 params]]; cbn [length Nat.eqb negb]; try discriminate.
  cbn [nth].
  destruct (ParseHexV p0 "argument") as [txData| |] eqn:Hhex; run_bind;
    try discriminate.
  destruct (Unserialize txData) as [[tx rest]|] eqn:Hdec; [|discriminate].
  intros [= <-]. exists p0, txData, tx, rest. eexists.
  repeat split; try eassumption; reflexivity.
Qed.

(** *** getrawtransaction *)

(** X18: The second parameter of [getrawtransaction] is read as a 32-bit
    [int] and compared with 0: when it narrows to 0 (as 0 and 4294967296
    do) the call is the plain one; otherwise an unknown identifier gives
    the same error as the plain call, and a known one gives an object
    that starts with the pair [hex], holding what the plain call returns,
    followed by the JSON view of the transaction. *)
Theorem verbose_answer_extends_the_plain_one (txid : Value) (v : Z) :
  let plain := getrawtransaction [txid] false in
  let verbose := getrawtransaction [txid; Value_int v] false in
  if to_int v =? 0 then verbose = plain
  else
    match plain with
    | Ok answer =>
        exists hash tx hashBlock,
          ParseHashV txid "parameter 1" = Ok hash
          /\ GetTransaction chain hash true = Some (tx, hashBlock)
          /\ answer = Value_str (HexStr (Serialize tx))
          /\ verbose = Ok (Value_obj (("hex", answer) :: TxToJSON tx hashBlock []))
    | failure => verbose = failure
    end.
Proof.
  cbn zeta. unfold getrawtransaction. cbn [orb length Nat.ltb Nat.leb nth Json.get_int].
  destruct (ParseHashV txid "parameter 1") as [hash| |]; run_bind;
    [|now destruct (to_int v =? 0)..].
  destruct (to_int v =? 0); cbn [negb]; [reflexivity|].
  destruct (GetTransaction chain hash true) as [[tx hashBlock]|] eqn:Hget;
    [|reflexivity].
  exists hash, tx, hashBlock. repeat split; solve [reflexivity | assumption].
Qed.

(** *** decodescript *)

(** X19: A successful [decodescript] was given one string; the empty string
    is taken as the empty script without being parsed.  The answer
    starts with the disassembly, ends with the pay-to-script-hash address
    of the script, and never has a pair named [hex]. *)
Theorem decoded_script_has_no_hex_field
    (params : Array) (fHelp : bool) (result : Value) :
  decodescript params fHelp = Ok result ->
  exists text script decoded,
    fHelp = false /\ params = [Value_str text]
    /\ (if decide (text = "") then script = []
        else ParseHexV (Value_str text) "argument" = Ok script)
    /\ result = Value_obj decoded
    /\ head decoded = Some ("asm", Value_str (ToString script))
    /\ last decoded = Some ("p2sh", Value_str (Address_ToString (GetID script)))
    /\ Json.find_value decoded "hex" = Value_null.
Proof.
  unfold decodescript. destruct fHelp; [discriminate|]. cbn [orb].
  destruct params as [|p0 [|p1 params]]; cbn [length Nat.eqb negb]; try discriminate.
  cbn [nth Json.RPCTypeCheck].
  destruct (Json.type_ok false str_type p0); run_bind; [|discriminate].
  destruct p0 as [|text| | | | |]; cbn [Json.get_str]; try discriminate. run_bind.
  intros Hrun. exists text.
  assert (Hscript : exists script,
            (if decide (text = "") then script = []
             else ParseHexV (Value_str text) "argument" = Ok script)
            /\ result
               = Value_obj (ScriptPubKeyToJSON script [] false
                            ++ [("p2sh", Value_str (Address_ToString (GetID script)))])).
  { destruct text as [|c text]; cbn [String.length Nat.ltb Nat.leb] in Hrun.
    - run_bind in Hrun. injection Hrun as <-. exists []. split; reflexivity.
    - destruct (ParseHexV _ "argument") as [script| |] eqn:Hhex; run_bind in Hrun;
        try discriminate.
      injection Hrun as <-. exists script. split; [|reflexivity].
      destruct (decide (String c text = "")); [discriminate | reflexivity]. }
  destruct Hscript as (script & Hparse & ->). exists script. eexists.
  split; [reflexivity|]. split; [reflexivity|]. split; [exact Hparse|].
  split; [reflexivity|].
  split; [|split].
  - unfold ScriptPubKeyToJSON.
    destruct (ExtractDestinations script) as [[[extracted type] addresses] nRequired].
    destruct extracted; reflexivity.
  - apply last_snoc.
  - rewrite find_value_app, ScriptPubKeyToJSON_names.
    destruct ((ExtractDestinations script).1.1.1); reflexivity.
Qed.

(** *** Decoding what was built *)

(** The input an entry of the input array asks for. *)
Definition requested_input (input : Value) (txin : CTxIn) : Prop :=
  exists o txid v,
    input = Value_obj o
    /\ ParseHashO o "txid" = Ok txid
    /\ Json.find_value o "vout" = Value_int v
    /\ 0 <= to_int v
    /\ prevout txin = {| hash := txid; n := to_int v |}
    /\ scriptSig txin = [].

Lemma add_input_requested (rawTx rawTx' : CMutableTransaction) (input : Value) :
  Builder.add_input rawTx input = Ok rawTx' ->
  exists txin, rawTx' = push_vin rawTx txin /\ requested_input input txin.
Proof.
  unfold Builder.add_input, requested_input.
  destruct input as [| | | | |o|]; cbn [Json.get_obj]; try discriminate. run_bind.
  destruct (ParseHashO o "txid") as [txid| |] eqn:Htxid; run_bind; try discriminate.
  destruct (Json.find_value o "vout") as [| |v| | | |] eqn:Hv;
    try (rewrite bool_decide_eq_false_2 by discriminate; discriminate).
  rewrite bool_decide_eq_true_2 by reflexivity. cbn [negb Json.get_int]. run_bind.
  destruct (to_int v <? 0) eqn:Hneg; [discriminate|]. apply Z.ltb_ge in Hneg.
  rewrite (BuilderFacts.to_unsigned_to_int v Hneg).
  destruct (bool_decide (Json.type (Json.find_value o "sequence") = int_type)).
  - destruct (Json.get_int (Json.find_value o "sequence")) as [nSequence| |];
      run_bind; try discriminate.
    destruct (nSequence <? 0); [discriminate|]. run_bind.
    intros [= <-]. eexists. split; [reflexivity|].
    exists o, txid, v. repeat split; assumption.
  - run_bind. intros [= <-]. eexists. split; [reflexivity|].
    exists o, txid, v. repeat split; assumption.
Qed.

Lemma add_inputs_requested (inputs : Array) :
  forall rawTx rawTx',
  foreach Builder.add_input inputs rawTx = Ok rawTx' ->
  exists ins, vin rawTx' = (vin rawTx ++ ins)%list /\ Forall2 requested_input inputs ins.
Proof.
  induction inputs as [|input inputs IH]; intros rawTx rawTx' Hrun; cbn [foreach] in Hrun.
  - injection Hrun as <-. exists []. rewrite app_nil_r. split; constructor.
  - destruct (Builder.add_input rawTx input) as [rawTx1| |] eqn:Hstep;
      run_bind in Hrun; try discriminate.
    apply add_input_requested in Hstep as (txin & -> & Hreq).
    apply IH in Hrun as (ins & Hvin & Hall).
    exists (txin :: ins). cbn in Hvin. rewrite <- app_assoc in Hvin.
    split; [assumption | now constructor].
Qed.

(** What [decoderawtransaction] shows of the [i]-th input entry. *)
Definition shown_input (input : Value) (shown : Value) : Prop :=
  exists o txid v e,
    input = Value_obj o
    /\ ParseHashO o "txid" = Ok txid
    /\ Json.find_value o "vout" = Value_int v
    /\ shown = Value_obj e
    /\ Json.find_value e "txid" = Value_str (GetHex txid)
    /\ Json.find_value e "vout" = Value_int (to_int v)
    /\ Json.find_value e "scriptSig"
       = Value_obj [("asm", Value_str (ToString [])); ("hex", Value_str "")].

(** What it shows of the [i]-th pair of the output object. *)
Definition shown_output (i : nat) (s : string * Value) (shown : Value) : Prop :=
  exists e txout script,
    BuilderFacts.output_for s txout
    /\ shown = Value_obj e
    /\ Json.find_value e "n" = Value_int (Z.of_nat i)
    /\ Json.find_value e "value" = ValueFromAmount (nValue txout)
    /\ Json.find_value e "scriptPubKey" = Value_obj script
    /\ Json.find_value script "hex" = Value_str (HexStr (scriptPubKey txout)).

(** X20: Decoding the text [createrawtransaction] returns shows the request
    back, provided the text parses to the bytes it encodes, these bytes
    read back as the transaction, and the transaction is not taken for a
    coinbase: the decoded object lists one input per input entry, with
    the identifier and the output number of that entry and an empty
    unlocking script, and one output per pair of the output object,
    numbered from 0 in the order of the pairs, with the value and the
    locking script that pair stands for. *)
Theorem decoding_shows_the_request_back
    (params : Array) (tx : CMutableTransaction) (rest : bytes) :
  Builder.build params false = Ok tx ->
  ParseHexV (Value_str (HexStr (Serialize tx))) "argument" = Ok (Serialize tx) ->
  Unserialize (Serialize tx) = Some (tx, rest) ->
  IsCoinBase tx = false ->
  exists inputs sendTo decoded ins outs,
    params = [Value_array inputs; Value_obj sendTo]
    /\ (hex ← Builder.createrawtransaction params false;
        decoderawtransaction [hex] false) = Ok (Value_obj decoded)
    /\ Json.find_value decoded "vin" = Value_array ins
    /\ Json.find_value decoded "vout" = Value_array outs
    /\ length ins = length inputs
    /\ length outs = length sendTo
    /\ (forall i input, inputs !! i = Some input ->
          exists shown, ins !! i = Some shown /\ shown_input input shown)
    /\ (forall i s, sendTo !! i = Some s ->
          exists shown, outs !! i = Some shown /\ shown_output i s shown).
Proof.
  intros Hbuild Hhex Hdec Hcb.
  pose proof Hbuild as Hb.
  apply BuilderFacts.build_inv in Hb as (inputs & sendTo & rawTx0 & S1 & -> & Hin & Hout).
  pose proof Hin as Hin'.
  apply add_inputs_requested in Hin as (txins & Hvin0 & Hreq).
  apply BuilderFacts.add_inputs_shape in Hin' as (_ & _ & _ & _ & Hvout0 & _).
  apply BuilderFacts.add_outputs_shape in Hout as (txouts & Hvout & Hfor & Hvin & _).
  cbn in Hvin0, Hvout0. rewrite Hvout0 in Hvout. cbn in Hvout. rewrite Hvin0 in Hvin.
  exists inputs, sendTo, (TxToJSON tx 0 []),
    (map (vin_entry tx) (vin tx)), (imap vout_entry (vout tx)).
  split; [reflexivity|]. split.
  { unfold Builder.createrawtransaction. rewrite Hbuild. run_bind.
    unfold decoderawtransaction. cbn [orb length Nat.eqb negb nth].
    rewrite Hhex. run_bind. now rewrite Hdec. }
  split; [reflexivity|]. split; [reflexivity|].
  rewrite length_map, length_imap, Hvin, Hvout.
  split; [symmetry; eapply Forall2_length, Hreq|].
  split; [symmetry; eapply Forall2_length, Hfor|].
  split.
  - intros i input Hi.
    destruct (Forall2_lookup_l _ _ _ _ _ Hreq Hi) as (txin & Htxin & Hr).
    exists (vin_entry tx txin). split.
    { rewrite list_lookup_fmap, Htxin. reflexivity. }
    destruct Hr as (o & txid & v & -> & Htxid & Hv & _ & Hprev & Hsig).
    unfold vin_entry. rewrite Hcb, Hprev, Hsig. cbn [hash n].
    exists o, txid, v. eexists. repeat split; try eassumption; reflexivity.
  - intros i s Hi.
    destruct (Forall2_lookup_l _ _ _ _ _ Hfor Hi) as (txout & Htxout & Ho).
    exists (vout_entry i txout). split.
    { rewrite list_lookup_imap, Htxout. reflexivity. }
    unfold vout_entry. eexists. exists txout. eexists.
    split; [exact Ho|]. split; [reflexivity|]. split; [reflexivity|].
    split; [reflexivity|]. split; [reflexivity|].
    unfold ScriptPubKeyToJSON.
    destruct (ExtractDestinations (scriptPubKey txout))
      as [[[extracted type] addresses] nRequired].
    destruct extracted; reflexivity.
Qed.

End Decoder.
End Decoder.

(** ** Listing: listunspent *)

(** wallet.h: an output the wallet can spend, with the number of
    confirmations of its transaction. *)
Record COutput := { out_tx : CMutableTransaction; out_i : Z; nDepth : Z }.

(** What [listunspent] reads of the wallet: the outputs
    [AvailableCoins(vecOutputs, false)] returns, the names of the address
    book and the redeem scripts the wallet knows. *)
Record WalletView `{ScriptEngine} := {
  AvailableCoins : list COutput;
  mapAddressBook : Address -> option string;
  GetCScript : Address -> option CScript
}.

Module Listing.
Section Listing.
Context `{NodeCore} `{Explorer}.
Variable wallet : WalletView.

Definition help : Exception := runtime_error "listunspent: usage".

(** Body of the loop over the address array. *)
Definition add_address (setAddress : gset Address) (input : Value)
    : Outcome (gset Address) :=
  text ← Json.get_str input;
  match CBitcoinAddress text with
  | None => Throw (Builder.InvalidAddress text)
  | Some address =>
      if decide (address ∈ setAddress) then Throw (Builder.DuplicateAddress text)
      else Ok ({[address]} ∪ setAddress)
  end.

(** [out.tx->vout[out.i]]: the index is not checked. *)
Definition vout_at (out : COutput) : Outcome CTxOut :=
  if out_i out <? 0 then Undef
  else match vout (out_tx out) !! Z.to_nat (out_i out) with
       | Some txout => Ok txout
       | None => Undef
       end.

(** The object pushed for an output that passed the filters.  For a
    pay-to-script-hash script the destination extracted is a script
    identifier, which is what the wallet is asked the redeem script
    of. *)
Definition unspent_entry (out : COutput) (txout : CTxOut) : Object :=
  let pk := scriptPubKey txout in
  ([("txid", Value_str (GetHex (GetHash (out_tx out))));
    ("vout", Value_int (out_i out))]
   ++ match ExtractDestination pk with
      | Some address =>
          ("address", Value_str (Address_ToString address)) ::
          match mapAddressBook wallet address with
          | Some name_ => [("account", Value_str name_)]
          | None => []
          end
      | None => []
      end
   ++ [("scriptPubKey", Value_str (HexStr pk))]
   ++ (if IsPayToScriptHash pk then
         match ExtractDestination pk with
         | Some address =>
             match GetCScript wallet address with
             | Some redeemScript => [("redeemScript", Value_str (HexStr redeemScript))]
             | None => []
             end
         | None => []
         end
       else [])
   ++ [("amount", ValueFromAmount (nValue txout));
       ("confirmations", Value_int (nDepth out))])%list.

(** Body of the loop over the outputs of the wallet; an output that is
    skipped leaves [results] as it is. *)
Definition list_output (nMinDepth nMaxDepth : Z) (setAddress : gset Address)
    (results : Array) (out : COutput) : Outcome Array :=
  if (nDepth out <? nMinDepth) || (nMaxDepth <? nDepth out) then Ok results
  else
    wanted ← (if negb (bool_decide (size setAddress = 0%nat)) then
                txout ← vout_at out;
                match ExtractDestination (scriptPubKey txout) with
                | None => Ok false
                | Some address => Ok (bool_decide (address ∈ setAddress))
                end
              else Ok true);
    if (wanted : bool) then
      txout ← vout_at out;
      Ok (results ++ [Value_obj (unspent_entry out txout)])%list
    else Ok results.

Definition listunspent (params : Array) (fHelp : bool) : Outcome Value :=
  if fHelp || (3 <? length params)%nat then Throw help
  else
    _ ← Json.RPCTypeCheck params [int_type; int_type; array_type] false;
    nMinDepth ← (if (0 <? length params)%nat
                 then Json.get_int (nth 0 params Value_null) else Ok 1);
    nMaxDepth ← (if (1 <? length params)%nat
                 then Json.get_int (nth 1 params Value_null) else Ok 9999999);
    setAddress ← (if (2 <? length params)%nat
                  then inputs ← Json.get_array (nth 2 params Value_null);
                       foreach add_address inputs ∅
                  else Ok ∅);
    results ← foreach (list_output nMinDepth nMaxDepth setAddress)
                (AvailableCoins wallet) [];
    Ok (Value_array results).

(** *** What is listed *)

(** The depth bounds a request asks for. *)
Definition min_depth (params : Array) : Z :=
  match params !! 0%nat with Some (Value_int a) => to_int a | _ => 1 end.

Definition max_depth (params : Array) : Z :=
  match params !! 1%nat with Some (Value_int b) => to_int b | _ => 9999999 end.

(** The entry of an output whose index is in range. *)
Definition entry_of (out : COutput) : Value :=
  match vout (out_tx out) !! Z.to_nat (out_i out) with
  | Some txout => Value_obj (unspent_entry out txout)
  | None => Value_null
  end.

Lemma vout_at_Ok (out : COutput) (txout : CTxOut) :
  vout_at out = Ok txout ->
  0 <= out_i out /\ vout (out_tx out) !! Z.to_nat (out_i out) = Some txout.
Proof.
  unfold vout_at. destruct (out_i out <? 0) eqn:Hneg; [discriminate|].
  apply Z.ltb_ge in Hneg.
  destruct (vout (out_tx out) !! Z.to_nat (out_i out)); [|discriminate].
  now intros [= ->].
Qed.

Lemma list_output_step (lo hi : Z) (setAddress : gset Address)
    (results results' : Array) (out : COutput) :
  list_output lo hi setAddress results out = Ok results' ->
  results' = results
  \/ (results' = (results ++ [entry_of out])%list
      /\ lo <= nDepth out <= hi
      /\ 0 <= out_i out
      /\ is_Some (vout (out_tx out) !! Z.to_nat (out_i out))).
Proof.
  unfold list_output.
  destruct (nDepth out <? lo) eqn:Hlo; [intros [= <-]; now left|].
  destruct (hi <? nDepth out) eqn:Hhi; [intros [= <-]; now left|].
  cbn [orb]. apply Z.ltb_ge in Hlo, Hhi.
  match goal with
  | |- (?filter ≫= _) = _ -> _ => destruct filter as [[]| |]
  end; run_bind; try discriminate; [|intros [= <-]; now left].
  destruct (vout_at out) as [txout| |] eqn:Hat; run_bind; try discriminate.
  apply vout_at_Ok in Hat as [Hpos Hat].
  intros [= <-]. right. unfold entry_of. rewrite Hat.
  split; [reflexivity|]. split; [lia|]. split; [assumption | now eexists].
Qed.

Lemma list_outputs_sublist (lo hi : Z) (setAddress : gset Address)
    (outs : list COutput) :
  forall results results',
  foreach (list_output lo hi setAddress) outs results = Ok results' ->
  exists kept,
    sublist kept outs
    /\ results' = (results ++ (entry_of <$> kept))%list
    /\ Forall (fun out => lo <= nDepth out <= hi
                          /\ 0 <= out_i out
                          /\ is_Some (vout (out_tx out) !! Z.to_nat (out_i out)))
         kept.
Proof.
  induction outs as [|out outs IH]; intros results results' Hrun; cbn [foreach] in Hrun.
  - injection Hrun as <-. exists []. rewrite app_nil_r.
    split; [constructor|]. split; [reflexivity | constructor].
  - destruct (list_output lo hi setAddress results out) as [results1| |] eqn:Hstep;
      run_bind in Hrun; try discriminate.
    apply IH in Hrun as (kept & Hsub & -> & Hall).
    apply list_output_step in Hstep as [->|(-> & Hin)].
    + exists kept. split; [now constructor|]. split; [reflexivity | assumption].
    + exists (out :: kept). split; [now constructor|].
      split; [now rewrite <- app_assoc | now constructor].
Qed.

(** X21: What [listunspent] returns is a selection of the spendable outputs
    of the wallet, in the wallet's order, one entry each: every output
    listed has a number of confirmations between the two bounds of the
    request (1 and 9999999 when they are not given), and its entry
    reports that number. *)
Theorem listed_outputs_respect_the_depth_bounds
    (params : Array) (fHelp : bool) (result : Value) :
  listunspent params fHelp = Ok result ->
  exists kept,
    sublist kept (AvailableCoins wallet)
    /\ result = Value_array (entry_of <$> kept)
    /\ Forall (fun out =>
                 min_depth params <= nDepth out <= max_depth params
                 /\ exists entry,
                      entry_of out = Value_obj entry
                      /\ last entry = Some ("confirmations", Value_int (nDepth out)))
         kept.
Proof.
  unfold listunspent. destruct (fHelp || _); [discriminate|].
  destruct (Json.RPCTypeCheck params _ false) as [[]| |]; run_bind; try discriminate.
  destruct (if (0 <? length params)%nat then _ else _) as [lo| |] eqn:Hlo;
    run_bind; try discriminate.
  destruct (if (1 <? length params)%nat then _ else _) as [hi| |] eqn:Hhi;
    run_bind; try discriminate.
  assert (lo = min_depth params) as ->.
  { revert Hlo. unfold min_depth.
    destruct params as [|p0 params]; cbn; [now intros [= <-]|].
    destruct p0; cbn; try discriminate. now intros [= <-]. }
  assert (hi = max_depth params) as ->.
  { revert Hhi. unfold max_depth.
    destruct params as [|p0 [|p1 params]]; cbn; try (now intros [= <-]).
    destruct p1; cbn; try discriminate. now intros [= <-]. }
  destruct (if (2 <? length params)%nat then _ else _) as [setAddress| |];
    run_bind; try discriminate.
  destruct (foreach _ (AvailableCoins wallet) []) as [results| |] eqn:Hrun;
    run_bind; try discriminate.
  intros [= <-]. apply list_outputs_sublist in Hrun as (kept & Hsub & -> & Hall).
  exists kept. split; [assumption|]. split; [reflexivity|].
  eapply Forall_impl; [exact Hall|]. cbn beta.
  intros out (Hdepth & _ & [txout Hat]). split; [assumption|].
  unfold entry_of. rewrite Hat. eexists. split; [reflexivity|].
  unfold unspent_entry. rewrite !app_assoc.
  change [("amount", ValueFromAmount (nValue txout));
          ("confirmations", Value_int (nDepth out))]
    with ([("amount", ValueFromAmount (nValue txout))]
          ++ [("confirmations", Value_int (nDepth out))])%list.
  rewrite app_assoc. apply last_snoc.
Qed.

(** X22: An empty address array does not filter: the request lists what the
    same request without the array lists, not nothing. *)
Theorem empty_address_array_is_no_filter (a b : Value) (fHelp : bool) :
  listunspent [a; b; Value_array []] fHelp = listunspent [a; b] fHelp.
Proof.
  unfold listunspent. cbn [length Nat.ltb Nat.leb orb nth Json.RPCTypeCheck].
  destruct fHelp; [reflexivity|]. cbn [orb].
  destruct (Json.type_ok false int_type a); [|reflexivity].
  destruct (Json.type_ok false int_type b); [|reflexivity].
  reflexivity.
Qed.

(** X23: Bounds in the wrong order are not an error: the answer is the empty
    array, and no output of the wallet is even looked at. *)
Theorem inverted_depth_bounds_list_nothing (a b : Z) :
  to_int b < to_int a ->
  listunspent [Value_int a; Value_int b] false = Ok (Value_array []).
Proof.
  intros Hinv. unfold listunspent.
  cbn [length Nat.ltb Nat.leb orb nth Json.RPCTypeCheck Json.get_int].
  change (Json.type_ok false int_type (Value_int a)) with true.
  change (Json.type_ok false int_type (Value_int b)) with true.
  run_bind.
  assert (Hnone : forall outs results,
            foreach (list_output (to_int a) (to_int b) ∅) outs results = Ok results).
  { induction outs as [|out outs IH]; intros results; cbn [foreach]; [reflexivity|].
    assert (Hskip : list_output (to_int a) (to_int b) ∅ results out = Ok results).
    { unfold list_output.
      replace ((nDepth out <? to_int a) || (to_int b <? nDepth out)) with true;
        [reflexivity|].
      symmetry. apply orb_true_iff.
      destruct (Z.ltb_spec (nDepth out) (to_int a)); [now left|].
      right. apply Z.ltb_lt. lia. }
    rewrite Hskip. run_bind. apply IH. }
  now rewrite Hnone.
Qed.

(** *** The address filter *)

Lemma add_addresses_named (inputs : Array) :
  forall setAddress setAddress',
  foreach add_address inputs setAddress = Ok setAddress' ->
  forall address,
    address ∈ setAddress' ->
    address ∈ setAddress
    \/ exists text, Value_str text ∈ inputs /\ CBitcoinAddress text = Some address.
Proof.
  induction inputs as [|input inputs IH]; intros S0 S1 Hrun address Hin;
    cbn [foreach] in Hrun.
  - injection Hrun as <-. now left.
  - destruct (add_address S0 input) as [Smid| |] eqn:Hstep; run_bind in Hrun;
      try discriminate.
    destruct (IH _ _ Hrun address Hin) as [Hmid|(text & Htext & Haddr)].
    + unfold add_address in Hstep.
      destruct input as [|text| | | | |]; cbn [Json.get_str] in Hstep;
        try discriminate.
      run_bind in Hstep.
      destruct (CBitcoinAddress text) as [a|] eqn:Ha; [|discriminate].
      destruct (decide (a ∈ S0)); [discriminate|]. injection Hstep as <-.
      apply elem_of_union in Hmid as [Hnew|Hold]; [|now left].
      apply elem_of_singleton in Hnew as ->. right. exists text.
      split; [left | assumption].
    + right. exists text. split; [now right | assumption].
Qed.

Lemma list_output_filtered (lo hi : Z) (setAddress : gset Address)
    (results results' : Array) (out : COutput) :
  size setAddress <> 0%nat ->
  list_output lo hi setAddress results out = Ok results' ->
  results' = results
  \/ (results' = (results ++ [entry_of out])%list
      /\ exists txout address,
           vout (out_tx out) !! Z.to_nat (out_i out) = Some txout
           /\ ExtractDestination (scriptPubKey txout) = Some address
           /\ address ∈ setAddress).
Proof.
  intros Hsize. unfold list_output.
  destruct ((nDepth out <? lo) || (hi <? nDepth out)); [intros [= <-]; now left|].
  rewrite (bool_decide_eq_false_2 _ Hsize). cbn [negb].
  destruct (vout_at out) as [txout| |] eqn:Hat; run_bind; try discriminate.
  apply vout_at_Ok in Hat as [_ Hat].
  destruct (ExtractDestination (scriptPubKey txout)) as [address|] eqn:Hdest;
    run_bind; [|intros [= <-]; now left].
  destruct (bool_decide (address ∈ setAddress)) eqn:Hin; [|intros [= <-]; now left].
  apply bool_decide_eq_true in Hin. intros [= <-]. right.
  unfold entry_of. rewrite Hat. split; [reflexivity|]. now exists txout, address.
Qed.

Lemma list_outputs_filtered (lo hi : Z) (setAddress : gset Address)
    (outs : list COutput) :
  size setAddress <> 0%nat ->
  forall results results',
  foreach (list_output lo hi setAddress) outs results = Ok results' ->
  exists kept,
    sublist kept outs
    /\ results' = (results ++ (entry_of <$> kept))%list
    /\ Forall (fun out =>
                 exists txout address,
                   vout (out_tx out) !! Z.to_nat (out_i out) = Some txout
                   /\ ExtractDestination (scriptPubKey txout) = Some address
                   /\ address ∈ setAddress) kept.
Proof.
  intros Hsize.
  induction outs as [|out outs IH]; intros results results' Hrun; cbn [foreach] in Hrun.
  - injection Hrun as <-. exists []. rewrite app_nil_r.
    split; [constructor|]. split; [reflexivity | constructor].
  - destruct (list_output lo hi setAddress results out) as [results1| |] eqn:Hstep;
      run_bind in Hrun; try discriminate.
    apply IH in Hrun as (kept & Hsub & -> & Hall).
    apply (list_output_filtered lo hi setAddress results results1 out Hsize) in Hstep
      as [->|(-> & Hin)].
    + exists kept. split; [now constructor|]. split; [reflexivity | assumption].
    + exists (out :: kept). split; [now constructor|].
      split; [now rewrite <- app_assoc | now constructor].
Qed.

(** X27: With a non-empty address array the listing is filtered by it:
    every output listed has a locking script whose destination is the
    address one of the texts of the array decodes to; outputs without a
    destination are never listed. *)
Theorem address_filter_lists_only_the_named_addresses
    (a b : Value) (first : Value) (more : Array) (result : Value) :
  listunspent [a; b; Value_array (first :: more)] false = Ok result ->
  exists kept,
    sublist kept (AvailableCoins wallet)
    /\ result = Value_array (entry_of <$> kept)
    /\ Forall (fun out =>
                 exists txout address text,
                   vout (out_tx out) !! Z.to_nat (out_i out) = Some txout
                   /\ ExtractDestination (scriptPubKey txout) = Some address
                   /\ Value_str text ∈ first :: more
                   /\ CBitcoinAddress text = Some address) kept.
Proof.
  unfold listunspent. cbn [length Nat.ltb Nat.leb orb nth Json.get_array].
  destruct (Json.RPCTypeCheck _ _ false) as [[]| |]; run_bind; try discriminate.
  destruct (Json.get_int a) as [lo| |]; run_bind; try discriminate.
  destruct (Json.get_int b) as [hi| |]; run_bind; try discriminate.
  destruct (foreach add_address (first :: more) ∅) as [setAddress| |] eqn:Hset;
    run_bind; try discriminate.
  destruct (foreach _ (AvailableCoins wallet) []) as [results| |] eqn:Hrun;
    run_bind; try discriminate.
  intros [= <-].
  assert (Hsize : size setAddress <> 0%nat).
  { cbn [foreach] in Hset.
    destruct (add_address ∅ first) as [Smid| |] eqn:Hstep; run_bind in Hset;
      try discriminate.
    unfold add_address in Hstep.
    destruct (Json.get_str first) as [text| |]; run_bind in Hstep; try discriminate.
    destruct (CBitcoinAddress text) as [address|]; [|discriminate].
    destruct (decide (address ∈ ∅)); [discriminate|]. injection Hstep as <-.
    assert (Hkeep : forall inputs S0 S1,
              foreach add_address inputs S0 = Ok S1 -> S0 ⊆ S1).
    { induction inputs as [|input inputs IH]; intros S0 S1 Hfold; cbn [foreach] in Hfold.
      - now injection Hfold as <-.
      - destruct (add_address S0 input) as [S'| |] eqn:Hadd; run_bind in Hfold;
          try discriminate.
        transitivity S'; [|eapply IH, Hfold].
        unfold add_address in Hadd.
        destruct (Json.get_str input) as [t| |]; run_bind in Hadd; try discriminate.
        destruct (CBitcoinAddress t) as [x|]; [|discriminate].
        destruct (decide (x ∈ S0)); [discriminate|]. injection Hadd as <-.
        apply union_subseteq_r. }
    apply Hkeep in Hset. intros Hzero. apply size_empty_inv in Hzero.
    assert (Hin : address ∈ setAddress).
    { apply Hset, elem_of_union_l, elem_of_singleton_2. reflexivity. }
    rewrite (leibniz_equiv _ _ Hzero) in Hin. exact (not_elem_of_empty _ Hin). }
  apply (list_outputs_filtered lo hi setAddress _ Hsize) in Hrun
    as (kept & Hsub & -> & Hall).
  exists kept. split; [assumption|]. split; [reflexivity|].
  eapply Forall_impl; [exact Hall|]. cbn beta.
  intros out (txout & address & Hat & Hdest & Hin).
  destruct (add_addresses_named _ _ _ Hset address Hin) as [Hempty|(text & Htext & Ha)].
  - exfalso. exact (not_elem_of_empty _ Hempty).
  - now exists txout, address, text.
Qed.

End Listing.
End Listing.

(** ** Minting: makeInputTransactionForToken and inittoken *)

(** wallet.h and main.h, as [inittoken] uses them.  The state is the
    node together with the wallet: a payment of the wallet changes both.
    [first_address] is [pwalletMain->mapAddressBook.begin()->first], which
    does not exist when the address book is empty;
    [SendMoneyToDestination2] gives the error text, empty on success, the
    hash of the wallet transaction and the state it leaves. *)
Class Mint `{ScriptEngine} `{Signer} := {
  World : Type;
  node_of : World -> Node;
  with_node : World -> Node -> World;
  chain_of : World -> ChainState;
  signer_of : World -> SignerEnv;
  first_address : World -> option Address;
  SendMoneyToDestination2 : World -> Address -> Z -> string * uint256 * World;
}.

Module Minting.
Section Minting.
Context `{NodeCore} `{ScriptEngine} `{TokenCrypto} `{!Chain} `{!Mint}.

(** Signedness of [char], the content of the file at a path, and the key
    [MakeNewKey(false)] draws. *)
Variable char_signed : bool.
Variable files : string -> bytes.
Variable key : CKey.

Definition makeInputTransactionForToken (w : World) (am : Z)
    : Outcome uint256 * World :=
  let amount := Value_int am in
  match first_address w with
  | None => (Undef, w)
  | Some walletAddress =>
      match AmountFromValue amount with
      | Ok nValue =>
          let '(strError, hashTx, w) := SendMoneyToDestination2 w walletAddress nValue in
          if negb (bool_decide (strError = ""))
          then (Throw (JSONRPCError RPC_WALLET_ERROR strError), w)
          else (Ok hashTx, w)
      | Throw e => (Throw e, w)
      | Undef => (Undef, w)
      end
  end.

Definition help : Exception := runtime_error "inittoken: usage".

(** [tokenObject[i].value_]: the index is not checked. *)
Definition value_at (o : Object) (i : nat) : Outcome Value :=
  match o !! i with
  | Some (_, v) => Ok v
  | None => Undef
  end.

(** Lines 1226 to 1273: from the funding transaction to the signed
    transaction that is submitted. *)
Definition token_and_transaction (w : World) (params : Array) (inputtxid : uint256)
    (inputTransaction : CMutableTransaction) : Outcome (Value * CMutableTransaction) :=
  path ← Json.get_str (nth 1 params Value_null);
  token ← Token.CreateToken char_signed key (files path) (GetHex inputtxid);
  smlyaddress ← Json.get_str (nth 0 params Value_null);
  rawTx ← Token.token_transaction inputtxid inputTransaction token smlyaddress;
  signedValue ←
    SigningEngine.signrawtokentransaction (signer_of w) (HexStr (Serialize rawTx));
  txData ← ParseHexV signedValue "parameter";
  match Unserialize txData with
  | Some (tx, _) => Ok (token, tx)
  | None => Throw (JSONRPCError RPC_DESERIALIZATION_ERROR "TX decode failed")
  end.

(** Lines 1297 to 1305: the answer. *)
Definition token_result (token : Value) (hashTx : uint256) : Outcome Value :=
  tokenObject ← Json.get_obj token;
  id ← (v ← value_at tokenObject 0; Json.get_str v);
  pub ← (v ← value_at tokenObject 1; Json.get_str v);
  priv ← (v ← value_at tokenObject 2; Json.get_str v);
  Ok (Value_obj [("Token ID", Value_str id);
                 ("Token public key", Value_str pub);
                 ("Token private key", Value_str priv);
                 ("transactionid", Value_str (GetHex hashTx))]).

(** Lines 1275 to 1295 are those of [sendrawtransaction] with
    [fOverrideFees] false. *)
Definition inittoken (w : World) (params : Array) (fhelp : bool)
    : Outcome Value * World :=
  if fhelp || (length params <? 2)%nat || (2 <? length params)%nat
  then (Throw help, w)
  else
    match makeInputTransactionForToken w 1001 with
    | (Ok inputtxid, w) =>
        match GetTransaction (chain_of w) inputtxid false with
        | None => (Throw (runtime_error "Error"), w)
        | Some (inputTransaction, _) =>
            match token_and_transaction w params inputtxid inputTransaction with
            | Ok (token, tx) =>
                match Gateway.submit (node_of w) tx false with
                | (Ok _, node) => (token_result token (GetHash tx), with_node w node)
                | (Throw e, node) => (Throw e, with_node w node)
                | (Undef, node) => (Undef, with_node w node)
                end
            | Throw e => (Throw e, w)
            | Undef => (Undef, w)
            end
        end
    | (Throw e, w) => (Throw e, w)
    | (Undef, w) => (Undef, w)
    end.

(** *** The order of the steps *)

(** X24: [inittoken] looks at the destination address only after the funding
    payment has been made and the token created: with a destination that
    is not a valid address the call fails with the address error, and the
    state it leaves is the one after the payment of 1001 coins, not the
    one it started from. *)
Theorem bad_destination_is_noticed_after_the_funding_payment
    (w w1 : World) (smlyaddress path : string) (walletAddress : Address)
    (nValue : Z) (inputtxid : uint256) (inputTransaction : CMutableTransaction)
    (hashBlock : uint256) :
  first_address w = Some walletAddress ->
  AmountFromValue (Value_int 1001) = Ok nValue ->
  SendMoneyToDestination2 w walletAddress nValue = ("", inputtxid, w1) ->
  GetTransaction (chain_of w1) inputtxid false = Some (inputTransaction, hashBlock) ->
  is_Ok (Token.token_hash (files path) (GetHex inputtxid)) ->
  CBitcoinAddress smlyaddress = None ->
  inittoken w [Value_str smlyaddress; Value_str path] false
  = (Throw (JSONRPCError RPC_INVALID_ADDRESS_OR_KEY "Invalid smly address"), w1).
Proof.
  intros Hfirst Hamount Hsend Hget [hash Hhash] Haddr.
  unfold inittoken, makeInputTransactionForToken.
  cbn [length Nat.ltb Nat.leb orb]. rewrite Hfirst, Hamount, Hsend.
  rewrite bool_decide_eq_true_2 by reflexivity. cbn [negb]. rewrite Hget.
  unfold token_and_transaction, Token.CreateToken. cbn [nth Json.get_str]. run_bind.
  rewrite Hhash. run_bind. unfold Token.token_transaction. rewrite Haddr. reflexivity.
Qed.

(** X25: A token that was minted is anchored at the funding payment: the
    identifier in the answer is the hexadecimal text of the signature
    over the digest of the file and of the identifier of the funding
    transaction, while [transactionid] names the transaction that was
    submitted, and the state left is the one the submission of that
    transaction leaves after the funding payment. *)
Theorem minted_token_is_anchored_at_the_funding_payment
    (w w' : World) (params : Array) (result : Value) :
  inittoken w params false = (Ok result, w') ->
  exists smlyaddress path walletAddress nValue inputtxid w1 hash tx,
    params = [Value_str smlyaddress; Value_str path]
    /\ first_address w = Some walletAddress
    /\ AmountFromValue (Value_int 1001) = Ok nValue
    /\ SendMoneyToDestination2 w walletAddress nValue = ("", inputtxid, w1)
    /\ Token.token_hash (files path) (GetHex inputtxid) = Ok hash
    /\ result
       = Value_obj
           [("Token ID", Value_str (HexStr (Sign key hash)));
            ("Token public key", Value_str (GetHex (CPubKey_GetHash (GetPubKey key))));
            ("Token private key", Value_str (CBitcoinSecret_ToString key));
            ("transactionid", Value_str (GetHex (GetHash tx)))]
    /\ is_Ok (Gateway.submit (node_of w1) tx false).1
    /\ w' = with_node w1 (Gateway.submit (node_of w1) tx false).2.
Proof.
  unfold inittoken.
  destruct params as [|p0 [|p1 [|p2 params]]]; cbn [length Nat.ltb Nat.leb orb];
    try discriminate.
  unfold makeInputTransactionForToken.
  destruct (first_address w) as [walletAddress|] eqn:Hfirst; [|discriminate].
  destruct (AmountFromValue (Value_int 1001)) as [nValue| |] eqn:Hamount;
    try discriminate.
  destruct (SendMoneyToDestination2 w walletAddress nValue)
    as [[strError inputtxid] w1] eqn:Hsend.
  destruct (bool_decide (strError = "")) eqn:Herr; cbn [negb]; [|discriminate].
  apply bool_decide_eq_true in Herr. subst strError.
  destruct (GetTransaction (chain_of w1) inputtxid false)
    as [[inputTransaction hashBlock]|]; [|discriminate].
  destruct (token_and_transaction w1 [p0; p1] inputtxid inputTransaction)
    as [[token tx]| |] eqn:Htoken; try discriminate.
  destruct (Gateway.submit (node_of w1) tx false) as [[submitted| |] node] eqn:Hsubmit;
    try discriminate.
  intros [= Hresult <-].
  revert Htoken. unfold token_and_transaction. cbn [nth].
  destruct p1 as [|path| | | | |]; cbn [Json.get_str]; try discriminate. run_bind.
  unfold Token.CreateToken.
  destruct (Token.token_hash (files path) (GetHex inputtxid)) as [hash| |] eqn:Hhash;
    run_bind; try discriminate.
  destruct p0 as [|smlyaddress| | | | |]; cbn [Json.get_str]; try discriminate.
  run_bind.
  match goal with
  | |- (?build ≫= _) = _ -> _ => destruct build as [rawTx| |]
  end; run_bind; try discriminate.
  destruct (SigningEngine.signrawtokentransaction _ _) as [signedValue| |]; run_bind;
    try discriminate.
  destruct (ParseHexV signedValue "parameter") as [txData| |]; run_bind;
    try discriminate.
  destruct (Unserialize txData) as [[tx' rest]|]; [|discriminate].
  intros [= <- <-].
  exists smlyaddress, path, walletAddress, nValue, inputtxid, w1, hash, tx'.
  rewrite Hsubmit. cbn [fst snd].
  split; [reflexivity|]. split; [reflexivity|]. split; [reflexivity|].
  split; [exact Hsend|]. split; [exact Hhash|].
  split; [|split; [now eexists | reflexivity]].
  revert Hresult. unfold token_result, value_at. cbn. intros [= <-].
  unfold Hex.GetHexStringFromBytes. rewrite Hex.fold_spec. reflexivity.
Qed.

End Minting.
End Minting.

(** ** The further properties on the small node *)

Module Walkthrough.
Import Reference.

(** *** The rest of the small node *)

(** Scripts that start with 76 pay to the address made of their
    hexadecimal text; no other script has a destination. *)
Definition ref_ExtractDestination (script : bytes) : option string :=
  match script with
  | x76 :: _ => Some ("B" +:+ HexStr script)
  | _ => None
  end.

Definition ref_IsCoinBase (tx : CMutableTransaction) : bool :=
  match vin tx with
  | [txin] => (hash (prevout txin) =? 0) && (n (prevout txin) =? UINT32_MAX)
  | _ => false
  end.

#[export] Instance explorer : Explorer := {|
  txnouttype := string;
  GetTxnOutputType := fun type => type;
  ExtractDestinations := fun script =>
    match ref_ExtractDestination script with
    | Some address => (true, "pubkeyhash", [address], 1)
    | None => (false, "nonstandard", [], 0)
    end;
  ExtractDestination := ref_ExtractDestination;
  Address_ToString := fun address => address;
  GetID := fun script => "B" +:+ HexStr script;
  ValueFromAmount := fun amount => Value_real amount 100000000;
  IsCoinBase := ref_IsCoinBase
|}.

(** A wallet with two spendable outputs, three and no confirmations
    deep. *)
Definition wallet : WalletView := {|
  AvailableCoins := [ {| out_tx := variant_A; out_i := 0; nDepth := 3 |};
                      {| out_tx := variant_B; out_i := 0; nDepth := 0 |} ];
  mapAddressBook := fun _ => None;
  GetCScript := fun _ => None
|}.

Definition node_empty : Node :=
  {| mempool := ∅; pcoinsTip := SigningEngine.empty_view; relayed := []; synced := [] |}.

(** The wallet pays by putting transaction 7 into the memory pool; that
    transaction is [funding_with_match]. *)
#[export] Instance mint : Mint := {|
  World := Node;
  node_of := fun w => w;
  with_node := fun _ node => node;
  chain_of := fun _ =>
    {| mapBlockIndex := fun _ => None;
       chainActive_Contains := fun _ => false;
       chainActive_Height := 0;
       GetTransaction := fun h _ =>
         if h =? 7 then Some (funding_with_match, 0) else None |};
  signer_of := fun _ => env;
  first_address := fun _ => Some "Bwallet";
  SendMoneyToDestination2 := fun w _ _ =>
    ("", 7, {| mempool := {[7]} ∪ mempool w; pcoinsTip := pcoinsTip w;
               relayed := relayed w; synced := synced w |})
|}.

Definition files (path : string) : bytes :=
  if String.eqb path "token.bin" then [x61; x00; x62] else [].

Definition key_5 : @CKey signer := 5.

(** Addresses told apart by their second letter only. *)
Definition scripts_folded : ScriptEngine := {|
  Address := string;
  CBitcoinAddress := fun text =>
    match text with
    | String "B" (String c _) => Some (String c "")
    | _ => None
    end;
  SetDestination := fun a => ([x76; xa9] ++ Text.bytes_of_string a ++ [x88; xac])%list;
  OP_RETURN := x6a;
  push_opcode := fun script op => (script ++ [op])%list;
  push_data := ref_push_data;
  IsPayToScriptHash := ref_IsPayToScriptHash;
  ToString := HexStr
|}.

(** *** The encoder *)

Lemma hex_text_reads_back_example :
  HexFacts.unhex (Hex.GetHexStringFromBytes true [xff; x0a]) = [xff; x0a]
  /\ [xff; x0a] = [xff; x0a].
Proof.
  destruct (HexFacts.GetHexStringFromBytes_injective true [xff; x0a] [xff; x0a])
    as (_ & _ & Hback & Hinj).
  split; [exact Hback | apply Hinj; reflexivity].
Defined.

(** *** Building *)

Definition params_data : Array :=
  [Value_array [input_A]; Value_obj [("data", Value_str "00010203:5")]].

Definition tx_data : CMutableTransaction :=
  {| nVersion := 1;
     vin := [CTxIn_of {| hash := 161; n := 0 |}];
     vout := [{| nValue := 500000000; scriptPubKey := [x6a; x04; x00; x01; x02; x03] |}];
     nLockTime := 0 |}.

Lemma build_data : Builder.build params_data false = Ok tx_data.
Proof. vm_compute. reflexivity. Defined.

Lemma built_transaction_example :
  Builder.build params_data false = Ok tx_data
  /\ length (vin tx_data) = 1%nat
  /\ Forall BuilderFacts.unsigned_input (vin tx_data)
  /\ nLockTime tx_data = 0.
Proof.
  destruct (BuilderFacts.built_transaction_is_unsigned params_data tx_data build_data)
    as (inputs & sendTo & Hparams & Hlen & Hins & _ & _ & Hlock).
  injection Hparams as <- <-.
  split; [exact build_data|]. split; [exact Hlen|]. split; [exact Hins | exact Hlock].
Defined.

Lemma no_vout_before : "vout" ∉ [("txid", Value_str txid_A)].*1.
Proof. apply (bool_decide_unpack _). vm_compute. exact I. Defined.

Lemma wide_vout_example :
  ("vout" ∉ [("txid", Value_str txid_A)].*1)
  /\ Builder.add_input Builder.empty_tx
       (Value_obj [("txid", Value_str txid_A); ("vout", Value_int (0 + 2 ^ 32))])
     = Ok (push_vin Builder.empty_tx (CTxIn_of {| hash := 161; n := 0 |})).
Proof.
  split; [exact no_vout_before|].
  pose proof (BuilderFacts.vout_is_read_modulo_2_32 Builder.empty_tx
                [("txid", Value_str txid_A)] [] 0 no_vout_before) as Hsame.
  cbn [app] in Hsame. rewrite Hsame. vm_compute. reflexivity.
Defined.

Lemma two_colons_example :
  Text.colon_free "00" = true
  /\ Text.colon_free "5" = true
  /\ ParseHexV (Value_str "00") "Data" = Ok [x00]
  /\ Builder.add_output (Builder.empty_tx, ∅) ("data", Value_str "00:5:7")
     = Ok (push_vout Builder.empty_tx
             {| nValue := 0; scriptPubKey := push_data (push_opcode [] OP_RETURN) [x00] |},
           ∅).
Proof.
  split; [reflexivity|]. split; [reflexivity|]. split; [reflexivity|].
  exact (BuilderFacts.data_amount_needs_exactly_one_colon
           Builder.empty_tx ∅ "00" "5" "7" [x00] eq_refl eq_refl eq_refl).
Defined.

Definition rawTx_A : CMutableTransaction :=
  push_vin Builder.empty_tx (CTxIn_of {| hash := 161; n := 0 |}).

Definition after_Bob : CMutableTransaction * gset string :=
  match @foreach _ _ (@Builder.add_output core scripts_folded)
          [("Bob", Value_int 1)] (rawTx_A, ∅) with
  | Ok st => st
  | _ => (rawTx_A, ∅)
  end.

Lemma inputs_A : foreach Builder.add_input [input_A] Builder.empty_tx = Ok rawTx_A.
Proof. vm_compute. reflexivity. Defined.

Lemma outputs_Bob :
  @foreach _ _ (@Builder.add_output core scripts_folded)
    [("Bob", Value_int 1)] (rawTx_A, ∅) = Ok after_Bob.
Proof. vm_compute. reflexivity. Defined.

Lemma Bob_is_a_key : "Bob" ∈ [("Bob", Value_int 1)].*1.
Proof. apply (bool_decide_unpack _). vm_compute. exact I. Defined.

Lemma same_address_example :
  @CBitcoinAddress scripts_folded "Bob" = Some "o"
  /\ @CBitcoinAddress scripts_folded "Bo2" = Some "o"
  /\ @Builder.createrawtransaction core scripts_folded
       [Value_array [input_A];
        Value_obj [("Bob", Value_int 1); ("Bo2", Value_int 2)]] false
     = Throw (Builder.DuplicateAddress "Bo2").
Proof.
  split; [reflexivity|]. split; [reflexivity|].
  apply (@BuilderFacts.same_address_under_two_keys_is_duplicate core scripts_folded
           [input_A] [("Bob", Value_int 1)] [] "Bob" "Bo2" (Value_int 2) "o"
           rawTx_A after_Bob).
  - discriminate.
  - discriminate.
  - exact Bob_is_a_key.
  - reflexivity.
  - reflexivity.
  - exact inputs_A.
  - exact outputs_Bob.
Defined.

(** *** Signing *)

Definition signed_A : CMutableTransaction :=
  {| nVersion := 1; vin := [in0; set_scriptSig in1 [x03; x01]];
     vout := [out0]; nLockTime := 0 |}.

Lemma sign_A_runs :
  SigningEngine.signrawtransaction env params_A false
  = Ok (SigningEngine.signed_result signed_A false).
Proof. vm_compute. reflexivity. Defined.

Lemma signing_body_example :
  SigningEngine.prepare env params_A false = Ok prepared_A
  /\ exists mergedTx fComplete,
       SigningEngine.signrawtransaction env params_A false
       = Ok (SigningEngine.signed_result mergedTx fComplete)
       /\ SignerFacts.body mergedTx = SignerFacts.body variant_A.
Proof.
  destruct (SignerFacts.signing_keeps_the_transaction_body env prepared_A) as [Hraw _].
  destruct (Hraw params_A _ prepare_A sign_A_runs) as (mergedTx & fComplete & Hres & Hbody).
  split; [exact prepare_A|]. exists mergedTx, fComplete.
  split; [rewrite sign_A_runs, Hres; reflexivity | exact Hbody].
Defined.

Definition prevOut_2 : Object :=
  [("txid", Value_str txid_2); ("vout", Value_int 0); ("scriptPubKey", Value_str "51")].

Definition view_2 : CCoinsViewCache :=
  {| base := viewDummy; cacheCoins := {[2 := coins_2]} |}.

Lemma prevOut_2_names : SignerFacts.names_output prevOut_2 2 0 [x51].
Proof.
  exists txid_2, 0, "51".
  split; [reflexivity|]. split; [reflexivity|]. split; [reflexivity|].
  split; [vm_compute; reflexivity|]. split; [reflexivity|].
  split; [lia | vm_compute; reflexivity].
Defined.

Lemma prevOut_2_accepted :
  SigningEngine.add_prevout false (SigningEngine.empty_view, CBasicKeyStore)
    (Value_obj prevOut_2)
  = Ok (view_2, CBasicKeyStore).
Proof. vm_compute. reflexivity. Defined.

Lemma accepted_hint_example :
  SignerFacts.names_output prevOut_2 2 0 [x51]
  /\ SigningEngine.prevPubKey_of SigningEngine.empty_view in1 = None
  /\ SigningEngine.prevPubKey_of view_2 in1 = Some [x51].
Proof.
  destruct (SignerFacts.accepted_prevout_hint_resolves false SigningEngine.empty_view
              view_2 CBasicKeyStore CBasicKeyStore prevOut_2 2 0 [x51]
              prevOut_2_names prevOut_2_accepted) as [Hnew _].
  split; [exact prevOut_2_names|]. split; [reflexivity|].
  apply Hnew. reflexivity.
Defined.

Definition prevOut_2_other : Object :=
  [("txid", Value_str txid_2); ("vout", Value_int 0); ("scriptPubKey", Value_str "52")].

Lemma prevOut_2_other_names : SignerFacts.names_output prevOut_2_other 2 0 [x52].
Proof.
  exists txid_2, 0, "52".
  split; [reflexivity|]. split; [reflexivity|]. split; [reflexivity|].
  split; [vm_compute; reflexivity|]. split; [reflexivity|].
  split; [lia | vm_compute; reflexivity].
Defined.

Lemma view_2_knows : SigningEngine.view_lookup view_2 2 = Some coins_2.
Proof. vm_compute. reflexivity. Defined.

Lemma conflicting_hint_example :
  SignerFacts.names_output prevOut_2_other 2 0 [x52]
  /\ SigningEngine.view_lookup view_2 2 = Some coins_2
  /\ exists message,
       SigningEngine.add_prevout false (view_2, CBasicKeyStore) (Value_obj prevOut_2_other)
       = Throw (JSONRPCError RPC_DESERIALIZATION_ERROR message).
Proof.
  split; [exact prevOut_2_other_names|]. split; [exact view_2_knows|].
  apply (SignerFacts.conflicting_prevout_hint_is_refused false view_2 CBasicKeyStore
           prevOut_2_other 2 0 [x52] coins_2 {| nValue := 0; scriptPubKey := [x51] |}
           prevOut_2_other_names view_2_knows eq_refl eq_refl).
  discriminate.
Defined.

Lemma prepared_request_example :
  SigningEngine.prepare env params_A false = Ok prepared_A
  /\ SigningEngine.nHashType prepared_A ∈ [1; 129; 2; 130; 3; 131]
  /\ base (SigningEngine.view prepared_A) = viewDummy.
Proof.
  destruct (SignerFacts.prepared_request_is_closed env params_A false prepared_A prepare_A)
    as (_ & _ & _ & Htype & Hbase & _).
  split; [exact prepare_A|]. split; [exact Htype | exact Hbase].
Defined.




(** *** Submitting *)

Lemma not_confirmed_B : Gateway.have_chain node_empty (GetHash variant_B) = false.
Proof. vm_compute. reflexivity. Defined.

Lemma not_pending_B : GetHash variant_B ∉ mempool node_empty.
Proof. apply not_elem_of_empty. Defined.

Lemma fresh_transaction_example :
  Gateway.request_decodes request_B variant_B false
  /\ Gateway.have_chain node_empty (GetHash variant_B) = false
  /\ (GetHash variant_B ∉ mempool node_empty)
  /\ (Gateway.sendrawtransaction node_empty request_B false).1
     = Ok (Value_str (GetHex (GetHash variant_B))).
Proof.
  destruct (GatewayFacts.fresh_transaction_is_offered_once node_empty request_B
              variant_B false request_B_decodes not_confirmed_B not_pending_B)
    as (node0 & _ & _ & Haccepted & _).
  split; [exact request_B_decodes|]. split; [exact not_confirmed_B|].
  split; [exact not_pending_B|].
  destruct (Haccepted eq_refl) as [Hanswer _]. exact Hanswer.
Defined.

(** *** Tokens *)

Lemma no_zero_in_a : x00 ∉ [x61].
Proof. apply (bool_decide_unpack _). vm_compute. exact I. Defined.

Lemma token_digest_example :
  (x00 ∉ [x61])
  /\ Token.token_hash [x61; x00; x62] Token.zero_txid
     = Ok (CHashWriter_GetHash 1 1
             (x61 :: take 63 (Text.bytes_of_string Token.zero_txid)))
  /\ Token.token_hash [x61; x00; x63; x64] Token.zero_txid
     = Token.token_hash [x61; x00; x62] Token.zero_txid.
Proof.
  pose proof (TokenFacts.token_hash_sees_the_file_up_to_its_first_zero
                [x61] [x62] Token.zero_txid no_zero_in_a) as Hone.
  pose proof (TokenFacts.token_hash_sees_the_file_up_to_its_first_zero
                [x61] [x63; x64] Token.zero_txid no_zero_in_a) as Htwo.
  split; [exact no_zero_in_a|]. split; [exact Hone|].
  exact (eq_trans Htwo (eq_sym Hone)).
Defined.

Definition digest_7 : Z :=
  match Token.token_hash (files "token.bin") (GetHex 7) with
  | Ok hash => hash
  | _ => 0
  end.

Lemma digest_7_defined : Token.token_hash (files "token.bin") (GetHex 7) = Ok digest_7.
Proof. vm_compute. reflexivity. Defined.

Lemma commitment_example :
  Token.token_hash (files "token.bin") (GetHex 7) = Ok digest_7
  /\ CBitcoinAddress "Bob" = Some "Bob"
  /\ exists rawTx,
       (token ← Token.CreateToken true key_5 (files "token.bin") (GetHex 7);
        Token.token_transaction 7 funding_with_match token "Bob") = Ok rawTx
       /\ scriptPubKey <$> vout rawTx !! 1%nat
          = Some (push_data (push_opcode [] OP_RETURN) (Sign key_5 digest_7)).
Proof.
  split; [exact digest_7_defined|]. split; [reflexivity|].
  eexists. split.
  - apply (TokenFacts.token_transaction_commits_to_the_signature true key_5
             (files "token.bin") (GetHex 7) digest_7 7 funding_with_match "Bob"
             ("Bob" : @Address scripts)
             digest_7_defined eq_refl).
    vm_compute. reflexivity.
  - reflexivity.
Defined.

(** *** Decoding *)

Definition chain_state : ChainState := chain_of node_empty.

Lemma decode_B :
  Decoder.decoderawtransaction chain_state request_B false
  = Ok (Value_obj (Decoder.TxToJSON chain_state variant_B 0 [])).
Proof. vm_compute. reflexivity. Defined.

Lemma decoded_fields_example :
  Decoder.decoderawtransaction chain_state request_B false
  = Ok (Value_obj (Decoder.TxToJSON chain_state variant_B 0 []))
  /\ (Decoder.TxToJSON chain_state variant_B 0 []).*1
     = ["txid"; "version"; "locktime"; "vin"; "vout"].
Proof.
  destruct (Decoder.decoded_transaction_has_no_block_fields chain_state request_B false _
              decode_B)
    as (p0 & txData & tx & rest & decoded & _ & _ & _ & _ & Hresult & Hnames & _).
  injection Hresult as <-.
  split; [exact decode_B | exact Hnames].
Defined.

Definition script_51 : Value :=
  match Decoder.decodescript [Value_str "51"] false with
  | Ok result => result
  | _ => Value_null
  end.

Lemma decodescript_51 : Decoder.decodescript [Value_str "51"] false = Ok script_51.
Proof. vm_compute. reflexivity. Defined.

Lemma decoded_script_example :
  Decoder.decodescript [Value_str "51"] false = Ok script_51
  /\ exists decoded,
       script_51 = Value_obj decoded /\ Json.find_value decoded "hex" = Value_null.
Proof.
  destruct (Decoder.decoded_script_has_no_hex_field [Value_str "51"] false script_51
              decodescript_51)
    as (text & script & decoded & _ & _ & _ & Hresult & _ & _ & Hhex).
  split; [exact decodescript_51|]. exists decoded. split; [exact Hresult | exact Hhex].
Defined.

Lemma text_of_tx_data_parses :
  ParseHexV (Value_str (HexStr (Serialize tx_data))) "argument" = Ok (Serialize tx_data).
Proof. vm_compute. reflexivity. Defined.

Lemma bytes_of_tx_data_read_back : Unserialize (Serialize tx_data) = Some (tx_data, []).
Proof. vm_compute. reflexivity. Defined.

Lemma tx_data_is_no_coinbase : IsCoinBase tx_data = false.
Proof. reflexivity. Defined.

Lemma decode_what_was_built_example :
  Builder.build params_data false = Ok tx_data
  /\ IsCoinBase tx_data = false
  /\ exists decoded ins,
       (hex ← Builder.createrawtransaction params_data false;
        Decoder.decoderawtransaction chain_state [hex] false) = Ok (Value_obj decoded)
       /\ Json.find_value decoded "vin" = Value_array ins
       /\ length ins = 1%nat.
Proof.
  destruct (Decoder.decoding_shows_the_request_back chain_state params_data tx_data []
              build_data text_of_tx_data_parses bytes_of_tx_data_read_back
              tx_data_is_no_coinbase)
    as (inputs & sendTo & decoded & ins & outs & Hparams & Hrun & Hvin & _ & Hlen & _).
  injection Hparams as <- <-.
  split; [exact build_data|]. split; [reflexivity|].
  exists decoded, ins. split; [exact Hrun|]. split; [exact Hvin | exact Hlen].
Defined.

(** *** Listing *)

Definition unspent_default : Value :=
  match Listing.listunspent wallet [] false with
  | Ok result => result
  | _ => Value_null
  end.

Lemma listunspent_default : Listing.listunspent wallet [] false = Ok unspent_default.
Proof. vm_compute. reflexivity. Defined.

Lemma listed_outputs_example :
  Listing.listunspent wallet [] false = Ok unspent_default
  /\ exists kept,
       sublist kept (AvailableCoins wallet)
       /\ unspent_default = Value_array (Listing.entry_of wallet <$> kept)
       /\ Forall (fun out => 1 <= nDepth out <= 9999999) kept.
Proof.
  destruct (Listing.listed_outputs_respect_the_depth_bounds wallet [] false
              unspent_default listunspent_default) as (kept & Hsub & Hresult & Hall).
  split; [exact listunspent_default|]. exists kept.
  split; [exact Hsub|]. split; [exact Hresult|].
  eapply Forall_impl; [exact Hall|]. intros out [Hdepth _]. exact Hdepth.
Defined.

Lemma inverted_bounds_example :
  to_int 2 < to_int 5
  /\ Listing.listunspent wallet [Value_int 5; Value_int 2] false = Ok (Value_array []).
Proof.
  assert (Hinv : to_int 2 < to_int 5) by reflexivity.
  split; [exact Hinv|].
  exact (Listing.inverted_depth_bounds_list_nothing wallet 5 2 Hinv).
Defined.

(** A wallet with an output paying to the address B76 and one without
    a destination. *)
Definition tx_paying : CMutableTransaction :=
  {| nVersion := 1; vin := [in0];
     vout := [{| nValue := 5; scriptPubKey := [x76] |}]; nLockTime := 0 |}.

Definition wallet_paying : WalletView := {|
  AvailableCoins := [ {| out_tx := tx_paying; out_i := 0; nDepth := 3 |};
                      {| out_tx := variant_B; out_i := 0; nDepth := 3 |} ];
  mapAddressBook := fun _ => None;
  GetCScript := fun _ => None
|}.

Definition request_B76 : Array :=
  [Value_int 0; Value_int 10; Value_array [Value_str "B76"]].

Definition unspent_B76 : Value :=
  match Listing.listunspent wallet_paying request_B76 false with
  | Ok result => result
  | _ => Value_null
  end.

Lemma listunspent_B76 :
  Listing.listunspent wallet_paying request_B76 false = Ok unspent_B76.
Proof. vm_compute. reflexivity. Defined.

Lemma address_filter_example :
  Listing.listunspent wallet_paying request_B76 false = Ok unspent_B76
  /\ exists kept,
       sublist kept (AvailableCoins wallet_paying)
       /\ unspent_B76 = Value_array (Listing.entry_of wallet_paying <$> kept)
       /\ Forall (fun out =>
                    exists txout,
                      vout (out_tx out) !! Z.to_nat (out_i out) = Some txout
                      /\ ExtractDestination (scriptPubKey txout) = Some "B76") kept.
Proof.
  destruct (Listing.address_filter_lists_only_the_named_addresses wallet_paying
              (Value_int 0) (Value_int 10) (Value_str "B76") [] unspent_B76
              listunspent_B76) as (kept & Hsub & Hresult & Hall).
  split; [exact listunspent_B76|]. exists kept.
  split; [exact Hsub|]. split; [exact Hresult|].
  eapply Forall_impl; [exact Hall|].
  intros out (txout & address & text & Hat & Hdest & Htext & Haddr).
  exists txout. split; [exact Hat|].
  apply list_elem_of_singleton in Htext. injection Htext as ->.
  injection Haddr as <-. exact Hdest.
Defined.

(** *** Minting *)

Definition funded : Node :=
  {| mempool := {[7]} ∪ ∅; pcoinsTip := SigningEngine.empty_view;
     relayed := []; synced := [] |}.

Lemma payment_is_made :
  SendMoneyToDestination2 node_empty "Bwallet" (1001 * COIN) = ("", 7, funded).
Proof. reflexivity. Defined.

Lemma digest_7_exists : is_Ok (Token.token_hash (files "token.bin") (GetHex 7)).
Proof. exists digest_7. exact digest_7_defined. Defined.

Lemma bad_destination_example :
  CBitcoinAddress "alice" = None
  /\ Minting.inittoken true files key_5 node_empty
       [Value_str "alice"; Value_str "token.bin"] false
     = (Throw (JSONRPCError RPC_INVALID_ADDRESS_OR_KEY "Invalid smly address"), funded)
  /\ funded <> node_empty.
Proof.
  split; [reflexivity|]. split.
  - exact (Minting.bad_destination_is_noticed_after_the_funding_payment true files key_5
             node_empty funded "alice" "token.bin" ("Bwallet" : @Address scripts)
             (1001 * COIN) 7
             funding_with_match 0 eq_refl eq_refl payment_is_made eq_refl
             digest_7_exists eq_refl).
  - intros Hsame. apply (f_equal mempool) in Hsame.
    assert (Hin : 7 ∈ mempool funded)
      by (apply elem_of_union_l, elem_of_singleton_2; reflexivity).
    rewrite Hsame in Hin. exact (not_elem_of_empty 7 Hin).
Defined.

Definition minted_answer : Value :=
  match (Minting.inittoken true files key_5 node_empty
           [Value_str "Bob"; Value_str "token.bin"] false).1 with
  | Ok result => result
  | _ => Value_null
  end.

Definition minted_world : Node :=
  (Minting.inittoken true files key_5 node_empty
     [Value_str "Bob"; Value_str "token.bin"] false).2.

Lemma minting_runs :
  Minting.inittoken true files key_5 node_empty [Value_str "Bob"; Value_str "token.bin"] false
  = (Ok minted_answer, minted_world).
Proof. vm_compute. reflexivity. Defined.

Lemma minted_token_example :
  Minting.inittoken true files key_5 node_empty [Value_str "Bob"; Value_str "token.bin"] false
  = (Ok minted_answer, minted_world)
  /\ Json.find_value
       (default [] (match minted_answer with Value_obj o => Some o | _ => None end))
       "Token ID"
     = Value_str (HexStr (Sign key_5 digest_7)).
Proof.
  destruct (Minting.minted_token_is_anchored_at_the_funding_payment true files key_5
              (node_empty : @World _ _ mint) minted_world _ minted_answer minting_runs)
    as (smlyaddress & path & walletAddress & nValue & inputtxid & w1 & hash & tx
        & Hparams & _ & _ & Hsend & Hhash & Hresult & _).
  injection Hparams as <- <-. injection Hsend as <- <-.
  rewrite digest_7_defined in Hhash. injection Hhash as <-.
  split; [exact minting_runs|]. rewrite Hresult. reflexivity.
Defined.

End Walkthrough.
